(** * LeadWell backend: conversation-to-meeting pipeline

    A shallow embedding of the calendar service (slot suggestion,
    availability re-check, event creation), the lead / conversation /
    scheduling models, the OpenAI and Twilio services, the conversation
    service and the meeting-booking route, together with the properties
    the specification states about them.

    Conventions.
    - Instants are [Z] milliseconds since the epoch (what a moment wraps),
      within the range a JavaScript [Date] can hold; a moment pushed out
      of that range is invalid.  Calendar days are [Z] day numbers counted
      from 1970-01-01.
    - JSON / JavaScript values are [jsval]; objects are [gmap string jsval].
    - Asynchronous functions are computations in the monad [M]: they
      thread the [world] (database tables and the trace of calls to the
      outside) and either return or throw a JavaScript [Error].
    - What the process does not decide is a parameter: the answers of
      PostgREST, Google Calendar, OpenAI and Twilio ([Providers]),
      moment-timezone ([MomentTz]), the Unicode and regular-expression
      built-ins ([JsString]) and express-validator ([Validator]).  Each
      has an instance to run the model on.
    - A loop whose end depends on its input takes fuel.

    The definitions come first, module by module as in the sources; the
    properties follow. *)

From Stdlib Require Import ZArith Lia List Ascii String.
From stdpp Require Import gmap strings list fin_maps pretty sorting.

#[local] Set Warnings "-register-all".
#[local] Open Scope string_scope.
#[local] Open Scope list_scope.
#[local] Open Scope Z_scope.

(* ===================================================================== *)
(** * JavaScript values *)
(* ===================================================================== *)

(** A JSON value, as PostgREST returns it and as JavaScript sees it.
    Numbers are integers here: the functions below only ever ask whether
    one is zero.  [undefined] is not a JSON value: a property read that
    finds nothing is [None]. *)
Inductive jsval :=
| JNull
| JBool (b : bool)
| JNum (n : Z)
| JStr (s : string)
| JArr (l : list jsval)
| JObj (m : gmap string jsval).

(** JavaScript truthiness ([cond ? a : b], [a || b], [if (a)]). *)
Definition truthy (v : option jsval) : bool :=
  match v with
  | None | Some JNull => false
  | Some (JBool b) => b
  | Some (JNum n) => negb (n =? 0)
  | Some (JStr s) => negb (String.eqb s "")
  | Some (JArr _) | Some (JObj _) => true
  end.

(** The characters of a string as one-character strings, in order. *)
Fixpoint chars (s : string) : list string :=
  match s with
  | EmptyString => []
  | String c s' => String c EmptyString :: chars s'
  end.

(** Index-keyed properties of a string or an array: ["0"], ["1"], ... *)
Definition indexed (l : list jsval) : gmap string jsval :=
  list_to_map (imap (fun i v => (pretty i, v)) l).

(** Own enumerable properties: what [{ ...v }] copies.  Spreading [null],
    a boolean or a number copies nothing. *)
Definition own_props (v : jsval) : gmap string jsval :=
  match v with
  | JObj m => m
  | JArr l => indexed l
  | JStr s => indexed (JStr <$> chars s)
  | _ => ∅
  end.

(** [{ ...a, ...b }]: later spreads win. *)
Definition spread2 (a b : jsval) : gmap string jsval :=
  own_props b ∪ own_props a.

(** [v?.k] for a property name [k] that no built-in prototype defines. *)
Definition opt_get (v : jsval) (k : string) : option jsval :=
  own_props v !! k.

(** [a || b] *)
Definition js_or (a : option jsval) (b : jsval) : jsval :=
  match a with
  | Some v => if truthy a then v else b
  | None => b
  end.

(** A JavaScript [Error] (or a PostgREST error object): the two fields the
    code reads. *)
Record js_error := { err_message : string; err_code : option string }.

Definition new_Error (msg : string) : js_error :=
  {| err_message := msg; err_code := None |}.

(* ===================================================================== *)
(** * Moments and time zones *)
(* ===================================================================== *)

(** What the calendar service asks of moment-timezone.  A [None] is an
    invalid moment. *)
Class MomentTz := {
  (** [moment.tz(date, zone).startOf('day')] as an instant *)
  tz_startOf_day : string -> Z -> Z;
  (** [moment.tz(date, zone).endOf('day')] as an instant *)
  tz_endOf_day : string -> Z -> Z;
  (** [moment.tz(current.format('YYYY-MM-DD') + 'T' + text, zone)] *)
  tz_parse : string -> Z -> string -> option Z
}.

Definition ms_per_minute : Z := 60000.
Definition ms_per_day : Z := 86400000.

(** A [Date] holds an instant of at most 8.64e15 milliseconds either side
    of the epoch.  [setTime] beyond that (ECMAScript's TimeClip) leaves
    an invalid date, hence an invalid moment: [None]. *)
Definition max_instant : Z := 8640000000000000.

Definition time_clip (t : Z) : option Z :=
  if (- max_instant <=? t) && (t <=? max_instant) then Some t else None.

(** A comparison with an invalid moment ([isBefore], [isSameOrAfter], ...)
    is false. *)
Definition when_valid (m : option Z) (test : Z -> bool) : bool :=
  match m with
  | Some t => test t
  | None => false
  end.

(** [current.format('dddd').toLowerCase()]; day 0 is Thursday 1970-01-01. *)
Definition weekday_name (day : Z) : string :=
  match day mod 7 with
  | 0 => "thursday"
  | 1 => "friday"
  | 2 => "saturday"
  | 3 => "sunday"
  | 4 => "monday"
  | 5 => "tuesday"
  | _ => "wednesday"
  end.

(** A time in a request to the calendar provider: the text a client sent,
    or the ISO rendering of an instant. *)
Inductive time_ref :=
| IsoText (s : string)
| Instant (ms : Z).

(** ** A concrete zone for running the model: UTC, times as "HH:mm" or
    "HH:mm:ss". *)
Definition digit (c : ascii) : option Z :=
  let n := Z.of_nat (nat_of_ascii c) in
  if (48 <=? n) && (n <=? 57) then Some (n - 48) else None.

Definition two_digits (a b : ascii) : option Z :=
  match digit a, digit b with
  | Some x, Some y => Some (10 * x + y)
  | _, _ => None
  end.

Definition parse_clock (text : string) : option Z :=
  match text with
  | String h1 (String h2 (String ":" (String m1 (String m2 rest)))) =>
      match two_digits h1 h2, two_digits m1 m2 with
      | Some h, Some m =>
          if (h <? 24) && (m <? 60) then
            match rest with
            | EmptyString => Some ((h * 60 + m) * ms_per_minute)
            | String ":" (String s1 (String s2 EmptyString)) =>
                match two_digits s1 s2 with
                | Some s =>
                    if s <? 60 then Some ((h * 60 + m) * ms_per_minute + s * 1000)
                    else None
                | None => None
                end
            | _ => None
            end
          else None
      | _, _ => None
      end
  | _ => None
  end.

Definition utc : MomentTz := {|
  tz_startOf_day := fun _ day => day * ms_per_day;
  tz_endOf_day := fun _ day => day * ms_per_day + (ms_per_day - 1);
  tz_parse := fun _ day text => (fun t => day * ms_per_day + t) <$> parse_clock text
|}.

(* ===================================================================== *)
(** * Calendar service: slot generation *)
(* ===================================================================== *)

Module Calendar.

(** An entry of [freebusy.data.calendars.primary.busy], as [moment(busy.start)]
    and [moment(busy.end)] read it. *)
Record busy := { busy_start : Z; busy_end : Z }.

(** An element of [businessHours] as the route hands it over:
    [{ day, start, end }]. *)
Record hours := { day : string; start : string; end_ : string }.

(** An element of [availableSlots]: [{ start, end }], each the instant
    [toISOString()] renders.  [slotStart] is a valid moment whenever the
    body of the loop runs; [slotEnd] need not be, and [toISOString()] of
    an invalid moment is [null]: [None]. *)
Record slot := { slot_start : Z; slot_end : option Z }.

(** The callback of [busySlots.some(...)]. *)
Definition conflicts (slotStart : Z) (slotEnd : option Z) (b : busy) : bool :=
  let busyStart := busy_start b in
  let busyEnd := busy_end b in
  ((busyStart <=? slotStart) && (slotStart <? busyEnd))
  || when_valid slotEnd (fun slotEnd => (busyStart <? slotEnd) && (slotEnd <=? busyEnd))
  || ((slotStart <=? busyStart) && when_valid slotEnd (fun slotEnd => busyEnd <=? slotEnd)).

(** The inner [while]: [slotStart.add(durationMinutes, 'minutes')] in the
    loop condition mutates [slotStart] before it is compared and before
    the body runs.  An addition that leaves the range of dates makes the
    moment invalid, and [isSameOrBefore] of an invalid moment is false:
    the loop ends.  [slotEnd] is a clone, moved once more.  [None] when
    the fuel runs out. *)
Fixpoint slot_loop (fuel : nat) (durationMinutes : Z) (busySlots : list busy)
    (dayEnd slotStart : Z) (availableSlots : list slot) : option (list slot) :=
  match fuel with
  | O => None
  | S fuel' =>
      match time_clip (slotStart + durationMinutes * ms_per_minute) with
      | Some slotStart =>
          if slotStart <=? dayEnd then
            let slotEnd := time_clip (slotStart + durationMinutes * ms_per_minute) in
            let isAvailable := negb (existsb (conflicts slotStart slotEnd) busySlots) in
            slot_loop fuel' durationMinutes busySlots dayEnd slotStart
              (if isAvailable
               then availableSlots ++ [{| slot_start := slotStart; slot_end := slotEnd |}]
               else availableSlots)
          else Some availableSlots
      | None => Some availableSlots
      end
  end.

Section Slots.
Context `{MomentTz}.

(** The body of the outer [while] for the day [current].  An invalid
    [dayStart] or [dayEnd] makes the inner condition false at once. *)
Definition day_slots (fuel : nat) (timezone : string) (durationMinutes : Z)
    (businessHours : list hours) (busySlots : list busy)
    (current : Z) (availableSlots : list slot) : option (list slot) :=
  let dayOfWeek := weekday_name current in
  match find (fun h => String.eqb (day h) dayOfWeek) businessHours with
  | Some dayHours =>
      match tz_parse timezone current (start dayHours),
            tz_parse timezone current (end_ dayHours) with
      | Some dayStart, Some dayEnd =>
          slot_loop fuel durationMinutes busySlots dayEnd dayStart availableSlots
      | _, _ => Some availableSlots
      end
  | None => Some availableSlots
  end.

(** The outer [while (current.isSameOrBefore(end, 'day'))] with
    [current.add(1, 'day')]: one round per calendar day. *)
Fixpoint days_loop (fuel : nat) (timezone : string) (durationMinutes : Z)
    (businessHours : list hours) (busySlots : list busy)
    (days : list Z) (availableSlots : list slot) : option (list slot) :=
  match days with
  | [] => Some availableSlots
  | current :: rest =>
      match day_slots fuel timezone durationMinutes businessHours busySlots
              current availableSlots with
      | Some availableSlots' =>
          days_loop fuel timezone durationMinutes businessHours busySlots
            rest availableSlots'
      | None => None
      end
  end.

(** The calendar days from [startDate] to [endDate], both included. *)
Definition days_between (startDate endDate : Z) : list Z :=
  seqZ startDate (endDate - startDate + 1).

End Slots.

End Calendar.

(* ===================================================================== *)
(** * Database rows *)
(* ===================================================================== *)

(** One record per table of [setup-database.sql], with the columns the
    code reads or writes.  Nullable TEXT columns are [option string];
    JSONB columns are [jsval]. *)

Module Lead.
Record t := {
  id : string;
  business_id : string;
  name : option string;
  phone : option string;
  email : option string;
  source : option string;
  contact_channel : string;
  status : string;
  additional_info : jsval;
  created_at : Z;
  updated_at : Z
}.
End Lead.

Module Conversation.
Record t := {
  id : string;
  lead_id : string;
  business_id : string;
  status : string;
  last_message_at : option Z;
  created_at : Z;
  updated_at : Z
}.
End Conversation.

Module Message.
Record t := {
  id : string;
  conversation_id : string;
  content : string;
  is_from_lead : bool;
  metadata : jsval;
  created_at : Z
}.

(** The row as the JavaScript object PostgREST returns: one property
    per column (the timestamp stands for its ISO rendering). *)
Definition to_object (m : t) : gmap string jsval :=
  {[ "id" := JStr (id m);
     "conversation_id" := JStr (conversation_id m);
     "content" := JStr (content m);
     "is_from_lead" := JBool (is_from_lead m);
     "metadata" := metadata m;
     "created_at" := JNum (created_at m) ]}.
End Message.

Module Meeting.
Record t := {
  id : string;
  lead_id : string;
  business_id : string;
  conversation_id : option string;
  title : string;
  description : option string;
  start_time : string;
  end_time : string;
  timezone : string;
  status : string;
  location : option string;
  google_event_id : option string;
  outlook_event_id : option string;
  additional_info : jsval;
  created_at : Z
}.
End Meeting.

Module Business.
Record t := {
  id : string;
  user_id : string;
  name : string;
  industry : string;
  services : string;
  timezone : string
}.
End Business.

Module AssistantConfig.
Record t := {
  id : string;
  business_id : string;
  role : string;
  tone : string;
  greeting_message : option string;
  required_info : string
}.
End AssistantConfig.

Module CalendarIntegration.
Record t := {
  id : string;
  user_id : string;
  provider : string;
  refresh_token : string
}.
End CalendarIntegration.

(* ===================================================================== *)
(** * The world: tables and the trace of calls to the outside *)
(* ===================================================================== *)

(** A message of the chat-completion request: [{ role, content }]. *)
Record chat_message := { role : string; content : option jsval }.

(** The [requestBody] of [calendar.events.insert]. *)
Record calendar_event := {
  summary : string;
  description : string;
  start_dateTime : string;
  end_dateTime : string;
  timeZone : string;
  attendees : list string;
  location : option string
}.

Inductive db_op := Select | Insert | Update.

(** Every call that leaves the process, with its answer. *)
Inductive event :=
| Db (table : string) (op : db_op) (error : option js_error)
| FreeBusy (refreshToken : string) (timeMin timeMax : time_ref)
    (answer : option (list Calendar.busy))
| EventsInsert (refreshToken : string) (ev : calendar_event) (answer : option string)
| ChatCompletion (messages : list chat_message) (answer : option string)
| TwilioCreate (body from to : string) (error : option js_error)
| ConsoleError (label : string).

(** The tables. *)
Record store := {
  leads : list Lead.t;
  conversations : list Conversation.t;
  messages : list Message.t;
  meetings : list Meeting.t;
  businesses : list Business.t;
  assistant_configs : list AssistantConfig.t;
  calendar_integrations : list CalendarIntegration.t
}.

Record world := { db : store; trace : list event }.

Definition set_leads (f : list Lead.t -> list Lead.t) (s : store) : store :=
  {| leads := f (leads s); conversations := conversations s; messages := messages s;
     meetings := meetings s; businesses := businesses s;
     assistant_configs := assistant_configs s;
     calendar_integrations := calendar_integrations s |}.

Definition set_conversations (f : list Conversation.t -> list Conversation.t)
    (s : store) : store :=
  {| leads := leads s; conversations := f (conversations s); messages := messages s;
     meetings := meetings s; businesses := businesses s;
     assistant_configs := assistant_configs s;
     calendar_integrations := calendar_integrations s |}.

Definition set_messages (f : list Message.t -> list Message.t) (s : store) : store :=
  {| leads := leads s; conversations := conversations s; messages := f (messages s);
     meetings := meetings s; businesses := businesses s;
     assistant_configs := assistant_configs s;
     calendar_integrations := calendar_integrations s |}.

Definition set_meetings (f : list Meeting.t -> list Meeting.t) (s : store) : store :=
  {| leads := leads s; conversations := conversations s; messages := messages s;
     meetings := f (meetings s); businesses := businesses s;
     assistant_configs := assistant_configs s;
     calendar_integrations := calendar_integrations s |}.

(** One more call to the outside. *)
Definition record (e : event) (w : world) : world :=
  {| db := db w; trace := trace w ++ [e] |}.

(** The position of the next call in the trace; the oracles below are
    indexed by it, so that two calls may be answered differently. *)
Definition tick (w : world) : nat := length (trace w).

(** What the outside answers.  Nothing is assumed of these functions. *)
Class Providers := {
  (** the error PostgREST answers the database request with, if any *)
  db_fault : nat -> option js_error;
  (** [uuidv4()] and [new Date()] *)
  uuidv4 : nat -> string;
  now : nat -> Z;
  (** [calendar.freebusy.query]: [response.data.calendars.primary.busy],
      or [None] when the call (or reading the answer) throws *)
  freebusy_query : nat -> string -> time_ref -> time_ref -> option (list Calendar.busy);
  (** [calendar.events.insert]: [response.data.id] *)
  events_insert : nat -> string -> calendar_event -> option string;
  (** [openai.chat.completions.create]: [completion.choices[0].message.content] *)
  chat_completions_create : nat -> list chat_message -> option string;
  (** [client.messages.create({ body, from, to })] of Twilio: the error it
      throws, if any *)
  twilio_messages_create : nat -> string -> string -> string -> option js_error;
  TWILIO_WHATSAPP_NUMBER : string;
  TWILIO_PHONE_NUMBER : string
}.

(** ** The monad of asynchronous functions *)

Inductive outcome (A : Type) :=
| Ret (a : A)
| Throw (error : js_error).
Arguments Ret {A} a.
Arguments Throw {A} error.

Definition M (A : Type) : Type := world -> outcome A * world.

#[export] Instance M_ret : MRet M := fun A a w => (Ret a, w).

#[export] Instance M_bind : MBind M := fun A B k m w =>
  match m w with
  | (Ret a, w') => k a w'
  | (Throw e, w') => (Throw e, w')
  end.

Definition throw {A} (e : js_error) : M A := fun w => (Throw e, w).

(** [try { m } catch (error) { h error }] *)
Definition try_catch {A} (m : M A) (h : js_error -> M A) : M A := fun w =>
  match m w with
  | (Ret a, w') => (Ret a, w')
  | (Throw e, w') => h e w'
  end.

Definition emit (e : event) : M unit := fun w =>
  (Ret tt, record e w).

Definition console_error (label : string) : M unit := emit (ConsoleError label).

Definition get_world : M world := fun w => (Ret w, w).

(* ===================================================================== *)
(** * The Supabase client *)
(* ===================================================================== *)

Section Supabase.
Context `{Providers}.

(** PostgREST's answer to [.single()] when zero or several rows match. *)
Definition pgrst116 : js_error :=
  {| err_message := "JSON object requested, multiple (or no) rows returned";
     err_code := Some "PGRST116" |}.

Definition is_pgrst116 (e : js_error) : bool :=
  match err_code e with
  | Some c => String.eqb c "PGRST116"
  | None => false
  end.

(** [{ data, error }] of a request: the data, or the error. *)
Definition db_answer (A : Type) : Type := A + js_error.

(** [.select('*')...] : the rows the query denotes. *)
Definition db_select {A} (table : string) (rows : store -> list A)
  : M (db_answer (list A)) := fun w =>
  match db_fault (tick w) with
  | Some e => (Ret (inr e), record (Db table Select (Some e)) w)
  | None => (Ret (inl (rows (db w))), record (Db table Select None) w)
  end.

(** [.select('*')....single()] *)
Definition db_single {A} (table : string) (rows : store -> list A)
  : M (db_answer A) := fun w =>
  match db_fault (tick w) with
  | Some e => (Ret (inr e), record (Db table Select (Some e)) w)
  | None =>
      match rows (db w) with
      | [row] => (Ret (inl row), record (Db table Select None) w)
      | _ => (Ret (inr pgrst116), record (Db table Select (Some pgrst116)) w)
      end
  end.

(** [.insert([row]).select()] and [.update({...}).eq(...).select()]:
    [write] is the change of the tables, [data] the rows it returns. *)
Definition db_write {A} (table : string) (op : db_op) (write : store -> store)
    (data : store -> list A) : M (db_answer (list A)) := fun w =>
  match db_fault (tick w) with
  | Some e => (Ret (inr e), record (Db table op (Some e)) w)
  | None =>
      let s := write (db w) in
      (Ret (inl (data s)), {| db := s; trace := trace w ++ [Db table op None] |})
  end.

(** [if (error) throw error; return data] *)
Definition or_throw {A} (a : db_answer A) : M A :=
  match a with
  | inl data => mret data
  | inr error => throw error
  end.

(** [if (error && error.code !== 'PGRST116') throw error; return data] *)
Definition or_null {A} (a : db_answer A) : M (option A) :=
  match a with
  | inl data => mret (Some data)
  | inr error => if is_pgrst116 error then mret None else throw error
  end.

(** [catch (error) { console.error(label, error); throw new Error(`${prefix}: ${error.message}`) }] *)
Definition rethrow {A} (label prefix : string) (error : js_error) : M A :=
  console_error label ;;
  throw (new_Error (prefix +:+ ": " +:+ err_message error)).

End Supabase.

(* ===================================================================== *)
(** * models/lead.js *)
(* ===================================================================== *)

Module LeadModel.
Section LeadModel.
Context `{Providers}.

Definition getLeadById (leadId : string) : M Lead.t :=
  try_catch
    (a ← db_single "leads" (fun s => filter (fun l => Lead.id l = leadId) (leads s));
     or_throw a)
    (rethrow "Get Lead Error:" "Failed to fetch lead").

Definition getLeadsByPhone (phone : string) : M (list Lead.t) :=
  try_catch
    (a ← db_select "leads"
           (fun s => filter (fun l => Lead.phone l = Some phone) (leads s));
     or_throw a)
    (rethrow "Get Leads By Phone Error:" "Failed to fetch leads by phone").

(** [.update({ status, updated_at: new Date() })] on one row *)
Definition with_status (status : string) (at_ : Z) (l : Lead.t) : Lead.t :=
  {| Lead.id := Lead.id l; Lead.business_id := Lead.business_id l;
     Lead.name := Lead.name l; Lead.phone := Lead.phone l;
     Lead.email := Lead.email l; Lead.source := Lead.source l;
     Lead.contact_channel := Lead.contact_channel l;
     Lead.status := status;
     Lead.additional_info := Lead.additional_info l;
     Lead.created_at := Lead.created_at l;
     Lead.updated_at := at_ |}.

(** [.update({ additional_info, updated_at: new Date() })] on one row *)
Definition with_additional_info (info : jsval) (at_ : Z) (l : Lead.t) : Lead.t :=
  {| Lead.id := Lead.id l; Lead.business_id := Lead.business_id l;
     Lead.name := Lead.name l; Lead.phone := Lead.phone l;
     Lead.email := Lead.email l; Lead.source := Lead.source l;
     Lead.contact_channel := Lead.contact_channel l;
     Lead.status := Lead.status l;
     Lead.additional_info := info;
     Lead.created_at := Lead.created_at l;
     Lead.updated_at := at_ |}.

(** [.update(...).eq('id', leadId)]: every row with that id *)
Definition update_where_id (leadId : string) (f : Lead.t -> Lead.t)
    (rows : list Lead.t) : list Lead.t :=
  (fun l => if decide (Lead.id l = leadId) then f l else l) <$> rows.

Definition updateLeadStatus (leadId status : string) : M (option Lead.t) :=
  try_catch
    (w0 ← get_world;
     let at_ := now (tick w0) in
     a ← db_write "leads" Update
           (set_leads (update_where_id leadId (with_status status at_)))
           (fun s => filter (fun l => Lead.id l = leadId) (leads s));
     data ← or_throw a;
     mret (head data))
    (rethrow "Update Lead Status Error:" "Failed to update lead status").

(** The merged [additional_info]:
    [{ ...lead.additional_info,
       qualification_data: { ...(lead.additional_info?.qualification_data || {}),
                             ...qualificationData } }] *)
Definition updatedInfo (additional_info qualificationData : jsval) : jsval :=
  JObj (<["qualification_data" :=
            JObj (spread2
                    (js_or (opt_get additional_info "qualification_data") (JObj ∅))
                    qualificationData)]>
          (own_props additional_info)).

(** [qualificationData] is a JSON value: the caller passes an object of
    strings; [JNull] stands for an argument left out. *)
Definition addLeadQualificationData (leadId : string) (qualificationData : jsval)
  : M (option Lead.t) :=
  try_catch
    (lead ← getLeadById leadId;
     let info := updatedInfo (Lead.additional_info lead) qualificationData in
     w0 ← get_world;
     let at_ := now (tick w0) in
     a ← db_write "leads" Update
           (set_leads (update_where_id leadId (with_additional_info info at_)))
           (fun s => filter (fun l => Lead.id l = leadId) (leads s));
     data ← or_throw a;
     mret (head data))
    (rethrow "Add Lead Qualification Error:" "Failed to add lead qualification data").

End LeadModel.
End LeadModel.

(* ===================================================================== *)
(** * models/conversation.js *)
(* ===================================================================== *)

Module ConversationModel.
Section ConversationModel.
Context `{Providers}.

(** [.order('created_at', { ascending: true })] and [{ ascending: false }];
    rows of the same instant stay in the order of the table. *)
Definition sent_before (a b : Message.t) : Prop :=
  Message.created_at a ≤ Message.created_at b.

Definition started_before (a b : Conversation.t) : Prop :=
  Conversation.created_at a ≤ Conversation.created_at b.

#[export] Instance sent_before_dec : RelDecision sent_before :=
  fun a b => decide (Message.created_at a ≤ Message.created_at b).

#[export] Instance started_before_dec : RelDecision started_before :=
  fun a b => decide (Conversation.created_at a ≤ Conversation.created_at b).

Definition oldest_first (rows : list Message.t) : list Message.t :=
  merge_sort sent_before rows.

Definition newest_first (rows : list Message.t) : list Message.t :=
  merge_sort (flip sent_before) rows.

Definition newest_conversation_first (rows : list Conversation.t)
  : list Conversation.t :=
  merge_sort (flip started_before) rows.

Definition of_conversation (conversationId : string) (rows : list Message.t)
  : list Message.t :=
  filter (fun m => Message.conversation_id m = conversationId) rows.

(** [.update({ last_message_at: new Date(), updated_at: new Date() })] *)
Definition touch (at_ : Z) (c : Conversation.t) : Conversation.t :=
  {| Conversation.id := Conversation.id c;
     Conversation.lead_id := Conversation.lead_id c;
     Conversation.business_id := Conversation.business_id c;
     Conversation.status := Conversation.status c;
     Conversation.last_message_at := Some at_;
     Conversation.created_at := Conversation.created_at c;
     Conversation.updated_at := at_ |}.

Definition addMessage (conversationId content : string) (isFromLead : bool)
    (metadata : jsval) : M (option Message.t) :=
  try_catch
    (w0 ← get_world;
     let row := {| Message.id := uuidv4 (tick w0);
                   Message.conversation_id := conversationId;
                   Message.content := content;
                   Message.is_from_lead := isFromLead;
                   Message.metadata := metadata;
                   Message.created_at := now (tick w0) |} in
     a ← db_write "messages" Insert
           (set_messages (fun rows => rows ++ [row])) (fun _ => [row]);
     data ← or_throw a;
     (* Update the conversation's last_message_at; the answer is not read *)
     w1 ← get_world;
     let at_ := now (tick w1) in
     _ ← db_write "conversations" Update
           (set_conversations
              (fmap (fun c => if decide (Conversation.id c = conversationId)
                              then touch at_ c else c)))
           (fun _ => @nil Conversation.t);
     mret (head data))
    (rethrow "Add Message Error:" "Failed to add message").

Definition startConversation (leadId businessId : string)
    (initialMessage : option string) : M Conversation.t :=
  try_catch
    (w0 ← get_world;
     let row := {| Conversation.id := uuidv4 (tick w0);
                   Conversation.lead_id := leadId;
                   Conversation.business_id := businessId;
                   Conversation.status := "active";
                   Conversation.last_message_at := None;
                   Conversation.created_at := now (tick w0);
                   Conversation.updated_at := now (tick w0) |} in
     a ← db_write "conversations" Insert
           (set_conversations (fun rows => rows ++ [row])) (fun _ => [row]);
     _ ← or_throw a;
     (* [data[0]] is the inserted row.  If an initial message was provided,
        add it to the conversation *)
     match initialMessage with
     | Some text =>
         if String.eqb text "" then mret row
         else _ ← addMessage (Conversation.id row) text false (JObj ∅); mret row
     | None => mret row
     end)
    (rethrow "Conversation Creation Error:" "Failed to start conversation").

Definition getActiveConversationByLeadId (leadId : string)
  : M (option Conversation.t) :=
  try_catch
    (a ← db_single "conversations"
           (fun s => take 1 (newest_conversation_first
                               (filter (fun c => Conversation.lead_id c = leadId
                                                 ∧ Conversation.status c = "active")
                                       (conversations s))));
     or_null a)
    (rethrow "Get Active Conversation Error:" "Failed to fetch active conversation").

(** [.range(offset, offset + limit - 1)] of the rows, oldest first;
    [limit = 100] and [offset = 0] when the caller passes neither. *)
Definition getMessagesByConversationId (conversationId : string)
    (limit offset : nat) : M (list Message.t) :=
  try_catch
    (a ← db_select "messages"
           (fun s => take limit
                       (drop offset
                          (oldest_first (of_conversation conversationId (messages s)))));
     or_throw a)
    (rethrow "Get Messages Error:" "Failed to fetch messages").

(** The [limit] newest rows, returned in chronological order. *)
Definition getRecentMessages (conversationId : string) (limit : nat)
  : M (list Message.t) :=
  try_catch
    (a ← db_select "messages"
           (fun s => take limit
                       (newest_first (of_conversation conversationId (messages s))));
     data ← or_throw a;
     mret (reverse data))
    (rethrow "Get Recent Messages Error:" "Failed to fetch recent messages").

End ConversationModel.
End ConversationModel.

(* ===================================================================== *)
(** * models/business.js, models/user.js, models/scheduling.js *)
(* ===================================================================== *)

Module BusinessModel.
Section BusinessModel.
Context `{Providers}.

Definition getBusinessById (businessId : string) : M Business.t :=
  try_catch
    (a ← db_single "businesses"
           (fun s => filter (fun b => Business.id b = businessId) (businesses s));
     or_throw a)
    (rethrow "Get Business Error:" "Failed to fetch business").

Definition getBusinessByUserId (userId : string) : M (option Business.t) :=
  try_catch
    (a ← db_single "businesses"
           (fun s => filter (fun b => Business.user_id b = userId) (businesses s));
     or_null a)
    (rethrow "Get Business By User Error:" "Failed to fetch business by user").

Definition getAssistantConfig (businessId : string) : M (option AssistantConfig.t) :=
  try_catch
    (a ← db_single "assistant_configs"
           (fun s => filter (fun c => AssistantConfig.business_id c = businessId)
                            (assistant_configs s));
     or_null a)
    (rethrow "Get Assistant Config Error:" "Failed to fetch assistant config").

End BusinessModel.
End BusinessModel.

Module UserModel.
Section UserModel.
Context `{Providers}.

(** [provider = 'google'] when the caller passes none. *)
Definition getCalendarCredentials (userId provider : string)
  : M (option CalendarIntegration.t) :=
  try_catch
    (a ← db_single "calendar_integrations"
           (fun s => filter (fun c => CalendarIntegration.user_id c = userId
                                      ∧ CalendarIntegration.provider c = provider)
                            (calendar_integrations s));
     or_null a)
    (rethrow "Get Calendar Credentials Error:" "Failed to get calendar credentials").

End UserModel.
End UserModel.

Module SchedulingModel.
Section SchedulingModel.
Context `{Providers}.

(** The [meetingData] argument; [None] is a property left out. *)
Record meeting_data := {
  title : string;
  description : option string;
  start_time : string;
  end_time : string;
  timezone : string;
  status : option string;
  location : option string;
  google_event_id : option string;
  outlook_event_id : option string;
  additional_info : option jsval
}.

Definition createMeeting (leadId businessId : string) (conversationId : option string)
    (meetingData : meeting_data) : M (option Meeting.t) :=
  try_catch
    (w0 ← get_world;
     let row := {| Meeting.id := uuidv4 (tick w0);
                   Meeting.lead_id := leadId;
                   Meeting.business_id := businessId;
                   Meeting.conversation_id := conversationId;
                   Meeting.title := title meetingData;
                   Meeting.description := description meetingData;
                   Meeting.start_time := start_time meetingData;
                   Meeting.end_time := end_time meetingData;
                   Meeting.timezone := timezone meetingData;
                   Meeting.status := default "scheduled" (status meetingData);
                   Meeting.location := location meetingData;
                   Meeting.google_event_id := google_event_id meetingData;
                   Meeting.outlook_event_id := outlook_event_id meetingData;
                   Meeting.additional_info :=
                     default (JObj ∅) (additional_info meetingData);
                   Meeting.created_at := now (tick w0) |} in
     a ← db_write "meetings" Insert
           (set_meetings (fun rows => rows ++ [row])) (fun _ => [row]);
     data ← or_throw a;
     mret (head data))
    (rethrow "Meeting Creation Error:" "Failed to create meeting").

End SchedulingModel.
End SchedulingModel.

(* ===================================================================== *)
(** * services/calendar.js: the calls to Google Calendar *)
(* ===================================================================== *)

Module CalendarService.
Section CalendarService.
Context `{Providers} `{MomentTz}.

(** [await calendar.freebusy.query(...)] followed by
    [response.data.calendars.primary.busy] *)
Definition freebusy (refreshToken : string) (timeMin timeMax : time_ref)
  : M (list Calendar.busy) := fun w =>
  let answer := freebusy_query (tick w) refreshToken timeMin timeMax in
  let w' := record (FreeBusy refreshToken timeMin timeMax answer) w in
  match answer with
  | Some busySlots => (Ret busySlots, w')
  | None => (Throw (new_Error "freebusy.query"), w')
  end.

Definition checkAvailability (refreshToken startTime endTime : string) : M bool :=
  try_catch
    (busySlots ← freebusy refreshToken (IsoText startTime) (IsoText endTime);
     (* Returns true if no busy slots found *)
     mret (Nat.eqb (length busySlots) 0))
    (fun error =>
       console_error "Google Calendar Availability Error:" ;;
       throw (new_Error "Failed to check calendar availability")).

(** [if (location) { event.location = location }] *)
Definition if_truthy (s : option string) : option string :=
  match s with
  | Some text => if String.eqb text "" then None else Some text
  | None => None
  end.

(** [await calendar.events.insert(...)] followed by [response.data.id],
    the one field of the answer the caller reads. *)
Definition insert_event (refreshToken : string) (ev : calendar_event) : M string :=
  fun w =>
  let answer := events_insert (tick w) refreshToken ev in
  let w' := record (EventsInsert refreshToken ev answer) w in
  match answer with
  | Some eventId => (Ret eventId, w')
  | None => (Throw (new_Error "events.insert"), w')
  end.

Definition createMeeting (refreshToken summary description startTime endTime
    timezone : string) (attendees : list string) (location : option string)
  : M string :=
  try_catch
    (let ev := {| summary := summary; description := description;
                  start_dateTime := startTime; end_dateTime := endTime;
                  timeZone := timezone; attendees := attendees;
                  location := if_truthy location |} in
     insert_event refreshToken ev)
    (fun error =>
       console_error "Google Calendar Event Creation Error:" ;;
       throw (new_Error "Failed to create calendar event")).

(** [startDate] and [endDate] are the calendar days
    [moment.tz(startDate, timezone)] and [moment.tz(endDate, timezone)]
    fall on.  The result is [None] when the slot loop runs out of fuel. *)
Definition suggestTimeSlots (fuel : nat) (refreshToken : string)
    (startDate endDate : Z) (timezone : string) (durationMinutes : Z)
    (businessHours : list Calendar.hours)
  : world -> option (outcome (list Calendar.slot) * world) := fun w =>
  let failed w' :=
    (console_error "Calendar Slot Suggestion Error:" ;;
     throw (new_Error "Failed to suggest available time slots")) w' in
  match freebusy refreshToken
          (Instant (tz_startOf_day timezone startDate))
          (Instant (tz_endOf_day timezone endDate)) w with
  | (Ret busySlots, w') =>
      match Calendar.days_loop fuel timezone durationMinutes businessHours busySlots
              (Calendar.days_between startDate endDate) [] with
      | Some availableSlots => Some (Ret availableSlots, w')
      | None => None
      end
  | (Throw error, w') => Some (failed w')
  end.

End CalendarService.
End CalendarService.

(* ===================================================================== *)
(** * services/openai.js *)
(* ===================================================================== *)

Module OpenAIService.
Section OpenAIService.
Context `{Providers}.

(** [obj.key]: [undefined], here [None], when the object has no such
    property. *)
Definition prop (obj : gmap string jsval) (key : string) : option jsval :=
  obj !! key.

Definition formattedHistory (conversationHistory : list (gmap string jsval))
  : list chat_message :=
  (fun msg => {| role := if truthy (prop msg "isFromLead") then "user" else "assistant";
                 content := prop msg "content" |})
  <$> conversationHistory.

Definition newline : string := String (ascii_of_nat 10) EmptyString.

Definition systemPrompt (businessName industry services tone role_ requiredInfo : string)
  : string :=
  "You are a helpful " +:+ role_ +:+ " for " +:+ businessName
  +:+ ", a company in the " +:+ industry +:+ " industry that offers " +:+ services
  +:+ ". " +:+ newline
  +:+ "    Your tone should be " +:+ tone
  +:+ ". Your goal is to qualify leads by collecting the following information: "
  +:+ requiredInfo +:+ "." +:+ newline
  +:+ "    If appropriate in the conversation, suggest booking a meeting. Be natural, friendly and conversational.".

(** The [messages] array of the GPT call. *)
Definition chat_messages (businessName industry services tone role_ requiredInfo : string)
    (conversationHistory : list (gmap string jsval)) (userMessage : string)
  : list chat_message :=
  [{| role := "system";
      content := Some (JStr (systemPrompt businessName industry services tone role_
                               requiredInfo)) |}]
  ++ formattedHistory conversationHistory
  ++ [{| role := "user"; content := Some (JStr userMessage) |}].

(** [await openai.chat.completions.create(...)] followed by
    [completion.choices[0].message.content] *)
Definition create_completion (messages : list chat_message) : M string := fun w =>
  let answer := chat_completions_create (tick w) messages in
  let w' := record (ChatCompletion messages answer) w in
  match answer with
  | Some text => (Ret text, w')
  | None => (Throw (new_Error "chat.completions.create"), w')
  end.

Definition generateConversation (businessName industry services tone role_
    requiredInfo : string) (conversationHistory : list (gmap string jsval))
    (userMessage : string) : M string :=
  try_catch
    (create_completion
       (chat_messages businessName industry services tone role_ requiredInfo
          conversationHistory userMessage))
    (fun error =>
       console_error "OpenAI API Error:" ;;
       throw (new_Error "Failed to generate response from AI")).

End OpenAIService.
End OpenAIService.

(* ===================================================================== *)
(** * JavaScript string built-ins *)
(* ===================================================================== *)

(** The built-ins whose result depends on Unicode tables or on the regular
    expression engine. *)
Class JsString := {
  toLowerCase : string -> string;
  trim : string -> string;
  (** capture group 1 of [content.match(...)] with the budget pattern of
      [extractQualificationData]: the word budget, white space, an optional
      [is], [of] or colon, white space, an optional currency sign, white
      space, then the captured group: one digit or more followed by any
      run of digits and commas; matched case-insensitively *)
  match_budget : string -> option string
}.

(** [s.includes(sub)] *)
Fixpoint includes (s sub : string) : bool :=
  String.prefix sub s
  || match s with
     | EmptyString => false
     | String _ s' => includes s' sub
     end.

(** [s.split(',')] *)
Fixpoint split_comma_aux (current : string) (s : string) : list string :=
  match s with
  | EmptyString => [current]
  | String c s' =>
      if Ascii.eqb c ","%char then current :: split_comma_aux "" s'
      else split_comma_aux (current +:+ String c EmptyString) s'
  end.

Definition split_comma (s : string) : list string := split_comma_aux "" s.

(** [s.replace(/,/g, '')] *)
Fixpoint remove_commas (s : string) : string :=
  match s with
  | EmptyString => EmptyString
  | String c s' =>
      if Ascii.eqb c ","%char then remove_commas s' else String c (remove_commas s')
  end.

(** ** The built-ins on ASCII text, for running the model *)

Definition ascii_lower (c : ascii) : ascii :=
  let n := nat_of_ascii c in
  if (Nat.leb 65 n && Nat.leb n 90)%bool then ascii_of_nat (n + 32) else c.

Fixpoint lower (s : string) : string :=
  match s with
  | EmptyString => EmptyString
  | String c s' => String (ascii_lower c) (lower s')
  end.

Definition is_space (c : ascii) : bool :=
  let n := nat_of_ascii c in
  (Nat.eqb n 32 || (Nat.leb 9 n && Nat.leb n 13))%bool.

Definition is_digit (c : ascii) : bool :=
  let n := nat_of_ascii c in (Nat.leb 48 n && Nat.leb n 57)%bool.

Fixpoint skip_spaces (s : string) : string :=
  match s with
  | String c s' => if is_space c then skip_spaces s' else s
  | EmptyString => EmptyString
  end.

Definition trim_ascii (s : string) : string :=
  String.rev (skip_spaces (String.rev (skip_spaces s))).

(** [p?]: drop the prefix when it is there. *)
Definition skip_prefix (p s : string) : option string :=
  if String.prefix p s
  then Some (String.substring (String.length p) (String.length s - String.length p) s)
  else None.

Definition skip_one_of (ps : list string) (s : string) : string :=
  default s (head (omap (fun p => skip_prefix p s) ps)).

(** [[,\d]*] *)
Fixpoint digits_and_commas (s : string) : string :=
  match s with
  | String c s' =>
      if (is_digit c || Ascii.eqb c ","%char)%bool
      then String c (digits_and_commas s') else EmptyString
  | EmptyString => EmptyString
  end.

(** The pattern after the word [budget]. *)
Definition budget_amount (s : string) : option string :=
  let s := skip_spaces s in
  let s := skip_one_of ["is"; "of"; ":"] s in
  let s := skip_spaces s in
  let s := skip_one_of ["$"; "£"; "€"] s in
  let s := skip_spaces s in
  match s with
  | String c s' => if is_digit c then Some (String c (digits_and_commas s')) else None
  | EmptyString => None
  end.

(** The leftmost match. *)
Fixpoint match_budget_ascii (s : string) : option string :=
  match match skip_prefix "budget" s with
        | Some rest => budget_amount rest
        | None => None
        end with
  | Some amount => Some amount
  | None =>
      match s with
      | String _ s' => match_budget_ascii s'
      | EmptyString => None
      end
  end.

Definition ascii_strings : JsString := {|
  toLowerCase := lower;
  trim := trim_ascii;
  match_budget := match_budget_ascii
|}.

(* ===================================================================== *)
(** * services/twilio.js *)
(* ===================================================================== *)

Module TwilioService.
Section TwilioService.
Context `{Providers} `{JsString}.

Definition messages_create (body from to : string) : M unit := fun w =>
  let error := twilio_messages_create (tick w) body from to in
  let w' := record (TwilioCreate body from to error) w in
  match error with
  | None => (Ret tt, w')
  | Some e => (Throw e, w')
  end.

Definition sendWhatsAppMessage (to message : string) : M unit :=
  try_catch
    (messages_create message ("whatsapp:" +:+ TWILIO_WHATSAPP_NUMBER) ("whatsapp:" +:+ to))
    (rethrow "Twilio WhatsApp Error:" "Failed to send WhatsApp message").

Definition sendSMS (to message : string) : M unit :=
  try_catch
    (messages_create message TWILIO_PHONE_NUMBER to)
    (rethrow "Twilio SMS Error:" "Failed to send SMS").

Definition sendMessage (to message channel : string) : M unit :=
  let c := toLowerCase channel in
  if String.eqb c "whatsapp" then sendWhatsAppMessage to message
  else if String.eqb c "sms" then sendSMS to message
  else throw (new_Error ("Unsupported channel: " +:+ channel)).

End TwilioService.
End TwilioService.

(* ===================================================================== *)
(** * services/conversation.js *)
(* ===================================================================== *)

Module ConversationService.
Section ConversationService.
Context `{Providers} `{JsString}.

(** The body of the two nested [for] loops for one field and the
    lower-cased content of one lead message. *)
Definition analyse (field content : string) (qualificationData : gmap string jsval)
  : gmap string jsval :=
  let qualificationData :=
    if String.eqb field "budget" && includes content "budget" then
      (* Simplistic budget extraction - look for numbers near 'budget' *)
      match match_budget content with
      | Some group1 => <["budget" := JStr (remove_commas group1)]> qualificationData
      | None => qualificationData
      end
    else qualificationData in
  if String.eqb field "timeline"
     && (includes content "timeline" || includes content "time frame") then
    (* Simple timeline extraction *)
    if includes content "month" then <["timeline" := JStr "months"]> qualificationData
    else if includes content "week" then <["timeline" := JStr "weeks"]> qualificationData
    else if includes content "day" then <["timeline" := JStr "days"]> qualificationData
    else qualificationData
  else qualificationData.

(** [for (const message of messages)] with its [continue] guard *)
Definition scan_messages (field : string) (messages : list Message.t)
    (qualificationData : gmap string jsval) : gmap string jsval :=
  foldl (fun qd message =>
           if negb (Message.is_from_lead message) then qd (* Only analyze lead messages *)
           else analyse field (toLowerCase (Message.content message)) qd)
        qualificationData messages.

(** [for (const field of requiredFields)], from the empty object *)
Definition scan_fields (requiredFields : list string) (messages : list Message.t)
  : gmap string jsval :=
  foldl (fun qd field => scan_messages field messages qd) ∅ requiredFields.

Definition requiredFields (requiredInfo : string) : list string :=
  (fun field => toLowerCase (trim field)) <$> split_comma requiredInfo.

Definition extractQualificationData (leadId conversationId requiredInfo : string)
  : M unit :=
  try_catch
    ((* Get the conversation messages *)
     messages ← ConversationModel.getMessagesByConversationId conversationId 100 0;
     let qualificationData := scan_fields (requiredFields requiredInfo) messages in
     (* Only update if we found some qualification data *)
     if Nat.ltb 0 (size qualificationData)
     then _ ← LeadModel.addLeadQualificationData leadId (JObj qualificationData); mret tt
     else mret tt)
    (fun error =>
       (* Don't throw here, just log the error, as this is a background process *)
       console_error "Extract Qualification Data Error:").

(** [processIncomingMessage] once the reply is generated: save it, send
    it, extract. *)
Definition deliver (phone channel : string) (lead : Lead.t)
    (conversation : Conversation.t) (assistantConfig : AssistantConfig.t)
    (aiResponse : string) : M (Lead.t * Conversation.t * string) :=
  (* Save AI response to conversation *)
  _ ← ConversationModel.addMessage (Conversation.id conversation) aiResponse
        false (JObj ∅);
  (* Send response back to the lead *)
  TwilioService.sendMessage phone aiResponse channel ;;
  (* Extract and store qualification data from the conversation *)
  extractQualificationData (Lead.id lead) (Conversation.id conversation)
    (AssistantConfig.required_info assistantConfig) ;;
  mret (lead, conversation, aiResponse).

Definition processIncomingMessage (phone message channel : string)
  : M (Lead.t * Conversation.t * string) :=
  try_catch
    ((* Find the lead by phone number *)
     leads ← LeadModel.getLeadsByPhone phone;
     match leads with
     | [] => throw (new_Error "Lead not found for this phone number")
     | lead :: _ =>
         (* Get or create active conversation *)
         active ← ConversationModel.getActiveConversationByLeadId (Lead.id lead);
         conversation ←
           match active with
           | Some c => mret c
           | None => ConversationModel.startConversation
                       (Lead.id lead) (Lead.business_id lead) None
           end;
         (* Add the incoming message to conversation *)
         _ ← ConversationModel.addMessage (Conversation.id conversation) message true
               (JObj ∅);
         (* Get business and assistant configuration *)
         business ← BusinessModel.getBusinessById (Lead.business_id lead);
         assistantConfig ← BusinessModel.getAssistantConfig (Lead.business_id lead);
         match assistantConfig with
         | None => throw (new_Error "Business or assistant configuration not found")
         | Some assistantConfig =>
             (* Get recent conversation history for context *)
             conversationHistory ←
               ConversationModel.getRecentMessages (Conversation.id conversation) 20;
             (* Generate AI response *)
             aiResponse ←
               OpenAIService.generateConversation
                 (Business.name business) (Business.industry business)
                 (Business.services business)
                 (AssistantConfig.tone assistantConfig)
                 (AssistantConfig.role assistantConfig)
                 (AssistantConfig.required_info assistantConfig)
                 (Message.to_object <$> conversationHistory)
                 message;
             deliver phone channel lead conversation assistantConfig aiResponse
         end
     end)
    (rethrow "Process Incoming Message Error:" "Failed to process incoming message").

End ConversationService.
End ConversationService.

(* ===================================================================== *)
(** * routes/scheduling.js: POST /api/scheduling/meetings *)
(* ===================================================================== *)

(** [validator.isISO8601] of express-validator. *)
Class Validator := { isISO8601 : string -> bool }.

Module SchedulingRoute.
Section SchedulingRoute.
Context `{Providers} `{Validator}.

(** [req.user.id] and the fields of [req.body]; a field left out of the
    body is [""] where the validators require it and [None] otherwise. *)
Record request := {
  userId : string;
  leadId : string;
  title : string;
  description : option string;
  startTime : string;
  endTime : string;
  timezone : string;
  location : option string;
  conversationId : option string
}.

Inductive response :=
| Json (status : nat) (message : string) (meeting : option Meeting.t)
| JsonErrors (status : nat)
| Next (error : js_error).

(** [validationResult(req).isEmpty()] *)
Definition valid (req : request) : bool :=
  negb (String.eqb (leadId req) "")
  && negb (String.eqb (title req) "")
  && isISO8601 (startTime req)
  && isISO8601 (endTime req)
  && negb (String.eqb (timezone req) "").

(** "Create meeting in calendar if credentials exist": the early answer
    of the handler, or the value of [googleEventId] it goes on with. *)
Definition createRemoteEvent (req : request) (lead : Lead.t)
    (calendarCredentials : option CalendarIntegration.t)
  : M (response + option string) :=
  match calendarCredentials with
  | Some credentials =>
      (* Check calendar availability *)
      isAvailable ← CalendarService.checkAvailability
                      (CalendarIntegration.refresh_token credentials)
                      (startTime req) (endTime req);
      if negb isAvailable
      then mret (inl (Json 409 "Selected time slot is no longer available" None))
      else
        (* Create calendar event *)
        let attendees :=
          match CalendarService.if_truthy (Lead.email lead) with
          | Some email => [email]
          | None => []
          end in
        calendarEventId ← CalendarService.createMeeting
                            (CalendarIntegration.refresh_token credentials)
                            (title req) (default "" (description req))
                            (startTime req) (endTime req) (timezone req)
                            attendees (location req);
        mret (inr (Some calendarEventId))
  | None => mret (inr None)
  end.

(** "Create meeting in database" and what follows it. *)
Definition persistMeeting (req : request) (business : Business.t) (lead : Lead.t)
    (googleEventId : option string) : M response :=
  meeting ← SchedulingModel.createMeeting (leadId req) (Business.id business)
              (conversationId req)
              {| SchedulingModel.title := title req;
                 SchedulingModel.description := description req;
                 SchedulingModel.start_time := startTime req;
                 SchedulingModel.end_time := endTime req;
                 SchedulingModel.timezone := timezone req;
                 SchedulingModel.status := None;
                 SchedulingModel.location := location req;
                 SchedulingModel.google_event_id := googleEventId;
                 SchedulingModel.outlook_event_id := None;
                 SchedulingModel.additional_info := None |};
  (* If lead was created through a conversation, update lead status *)
  (if String.eqb (Lead.status lead) "new"
   then _ ← LeadModel.updateLeadStatus (leadId req) "qualified"; mret tt
   else mret tt) ;;
  mret (Json 201 "Meeting created successfully" meeting).

(** The handler from the line [let googleEventId = null] on: the booking
    proper, for the business, the lead and the calendar credentials the
    lines before have fetched. *)
Definition bookMeeting (req : request) (business : Business.t) (lead : Lead.t)
    (calendarCredentials : option CalendarIntegration.t) : M response :=
  r ← createRemoteEvent req lead calendarCredentials;
  match r with
  | inl res => mret res
  | inr googleEventId => persistMeeting req business lead googleEventId
  end.

Definition post_meetings (req : request) : world -> response * world := fun w =>
  let handler : M response :=
    if negb (valid req) then mret (JsonErrors 400)
    else
      (* Get the business *)
      business ← BusinessModel.getBusinessByUserId (userId req);
      match business with
      | None => mret (Json 404 "Business not found" None)
      | Some business =>
          (* Verify lead belongs to business *)
          lead ← LeadModel.getLeadById (leadId req);
          if negb (String.eqb (Lead.business_id lead) (Business.id business))
          then mret (Json 404 "Lead not found" None)
          else
            (* Get calendar credentials *)
            calendarCredentials ← UserModel.getCalendarCredentials (userId req) "google";
            bookMeeting req business lead calendarCredentials
      end in
  match handler w with
  | (Ret res, w') => (res, w')
  | (Throw error, w') => (Next error, w')
  end.

End SchedulingRoute.
End SchedulingRoute.

(* ===================================================================== *)
(** * Concrete worlds for running the model *)
(* ===================================================================== *)

(** An outside that never fails the database; the calendar, the
    completion and the event creation answer as given. *)
Definition outside (busySlots : option (list Calendar.busy)) (eventId : option string)
    (reply : option string) : Providers := {|
  db_fault := fun _ => None;
  uuidv4 := fun n => "uuid-" +:+ pretty n;
  now := fun n => Z.of_nat n;
  freebusy_query := fun _ _ _ _ => busySlots;
  events_insert := fun _ _ _ => eventId;
  chat_completions_create := fun _ _ => reply;
  twilio_messages_create := fun _ _ _ _ => None;
  TWILIO_WHATSAPP_NUMBER := "+15550000001";
  TWILIO_PHONE_NUMBER := "+15550000002"
|}.

Definition empty_store : store := {|
  leads := []; conversations := []; messages := []; meetings := [];
  businesses := []; assistant_configs := []; calendar_integrations := []
|}.

Definition empty_world : world := {| db := empty_store; trace := [] |}.

(** Monday 1 January 2024 is day 19723; [at_clock day h m] is [h:m] UTC on [day]. *)
Definition monday : Z := 19723.

Definition at_clock (day h m : Z) : Z := day * ms_per_day + (h * 60 + m) * ms_per_minute.

(** A validator for running the model: it accepts the texts of the shape
    [YYYY-MM-DDTHH:mm:ssZ]. *)
Definition shaped (pattern text : string) : bool :=
  Nat.eqb (String.length pattern) (String.length text)
  && forallb (fun pc => match pc with
                        | ("9"%char, c) => is_digit c
                        | (p, c) => Ascii.eqb p c
                        end)
       (zip (list_ascii_of_string pattern) (list_ascii_of_string text)).

Definition iso_shape : Validator :=
  {| isISO8601 := shaped "9999-99-99T99:99:99Z" |}.

(** A business with one lead (new, reachable on WhatsApp), an assistant
    configuration and a connected Google calendar. *)
Definition acme : Business.t := {|
  Business.id := "biz-1"; Business.user_id := "user-1"; Business.name := "Acme";
  Business.industry := "retail"; Business.services := "shoes";
  Business.timezone := "UTC"
|}.

Definition ada : Lead.t := {|
  Lead.id := "lead-1"; Lead.business_id := "biz-1"; Lead.name := Some "Ada";
  Lead.phone := Some "+15551230000"; Lead.email := Some "ada@example.com";
  Lead.source := None; Lead.contact_channel := "whatsapp"; Lead.status := "new";
  Lead.additional_info := JObj ∅; Lead.created_at := 0; Lead.updated_at := 0
|}.

Definition acme_assistant : AssistantConfig.t := {|
  AssistantConfig.id := "cfg-1"; AssistantConfig.business_id := "biz-1";
  AssistantConfig.role := "sales assistant"; AssistantConfig.tone := "friendly";
  AssistantConfig.greeting_message := None;
  AssistantConfig.required_info := "Budget, Timeline"
|}.

Definition acme_calendar : CalendarIntegration.t := {|
  CalendarIntegration.id := "cal-1"; CalendarIntegration.user_id := "user-1";
  CalendarIntegration.provider := "google";
  CalendarIntegration.refresh_token := "token"
|}.

(** A lead whose qualification data already holds a budget and a region,
    next to a note of the sales team. *)
Definition grace : Lead.t := {|
  Lead.id := "lead-2"; Lead.business_id := "biz-1"; Lead.name := Some "Grace";
  Lead.phone := Some "+15551230002"; Lead.email := None;
  Lead.source := Some "form"; Lead.contact_channel := "sms"; Lead.status := "qualified";
  Lead.additional_info :=
    JObj {[ "note" := JStr "vip";
            "qualification_data" :=
              JObj {[ "budget" := JStr "100"; "region" := JStr "EU" ]} ]};
  Lead.created_at := 1; Lead.updated_at := 1
|}.

Definition two_leads : world :=
  {| db := set_leads (fun _ => [ada; grace]) empty_store; trace := [] |}.

Definition acme_store : store := {|
  leads := [ada]; conversations := []; messages := []; meetings := [];
  businesses := [acme]; assistant_configs := [acme_assistant];
  calendar_integrations := [acme_calendar]
|}.

Definition acme_world : world := {| db := acme_store; trace := [] |}.

(** A conversation with Ada: the greeting of the assistant, then her
    question. *)
Definition greeting : Message.t := {|
  Message.id := "msg-1"; Message.conversation_id := "conv-1";
  Message.content := "Hi there! How can I help you today?";
  Message.is_from_lead := false; Message.metadata := JObj ∅; Message.created_at := 10
|}.

Definition question : Message.t := {|
  Message.id := "msg-2"; Message.conversation_id := "conv-1";
  Message.content := "What do you charge?";
  Message.is_from_lead := true; Message.metadata := JObj ∅; Message.created_at := 20
|}.

(** A long conversation with Ada: a hundred messages of the assistant,
    then her answer about the budget. *)
Definition reminder (i : nat) : Message.t := {|
  Message.id := "msg-" +:+ pretty i; Message.conversation_id := "conv-1";
  Message.content := "Are you still there?";
  Message.is_from_lead := false; Message.metadata := JObj ∅;
  Message.created_at := Z.of_nat i
|}.

Definition answer : Message.t := {|
  Message.id := "msg-100"; Message.conversation_id := "conv-1";
  Message.content := "Sorry! My budget is 5,000";
  Message.is_from_lead := true; Message.metadata := JObj ∅; Message.created_at := 100
|}.

Definition long_conversation : world :=
  {| db := set_messages (fun _ => (reminder <$> seq 0 100) ++ [answer]) acme_store;
     trace := [] |}.

(** The booking of Monday 09:30-10:00 for that lead. *)
Definition monday_booking : SchedulingRoute.request := {|
  SchedulingRoute.userId := "user-1";
  SchedulingRoute.leadId := "lead-1";
  SchedulingRoute.title := "Intro call";
  SchedulingRoute.description := None;
  SchedulingRoute.startTime := "2024-01-01T09:30:00Z";
  SchedulingRoute.endTime := "2024-01-01T10:00:00Z";
  SchedulingRoute.timezone := "UTC";
  SchedulingRoute.location := None;
  SchedulingRoute.conversationId := None
|}.

(** The calendar owner is busy on Monday from 09:00 to 10:00. *)
Definition busy_morning : list Calendar.busy :=
  [{| Calendar.busy_start := at_clock monday 9 0;
      Calendar.busy_end := at_clock monday 10 0 |}].

Definition monday_9_to_10 : list Calendar.hours :=
  [{| Calendar.day := "monday"; Calendar.start := "09:00"; Calendar.end_ := "10:00" |}].

(* ===================================================================== *)
(** * Vocabulary of the specification *)
(* ===================================================================== *)

Module Vocabulary.
Import Calendar.

(** Overlap as the specification words it, for the half-open slot
    [[start, end)]: the slot starts within the busy interval, or ends
    within it, or contains it.  A slot without a valid end neither ends
    within an interval nor contains one. *)
Definition overlaps (s : slot) (b : busy) : Prop :=
  (busy_start b ≤ slot_start s ∧ slot_start s < busy_end b)
  ∨ (∃ e, slot_end s = Some e ∧ busy_start b < e ∧ e ≤ busy_end b)
  ∨ (∃ e, slot_end s = Some e ∧ slot_start s ≤ busy_start b ∧ busy_end b ≤ e).




(** ** Qualification data *)

(** The qualification map stored with a lead: the properties of the
    [qualification_data] entry of its [additional_info]. *)
Definition qualification_map (l : Lead.t) : gmap string jsval :=
  match opt_get (Lead.additional_info l) "qualification_data" with
  | Some v => own_props v
  | None => ∅
  end.

(** The other entries of [additional_info]. *)
Definition other_info (l : Lead.t) : gmap string jsval :=
  delete "qualification_data" (own_props (Lead.additional_info l)).

(** The columns of a lead other than [additional_info] and [updated_at]. *)
Definition identity (l : Lead.t)
  : string * string * option string * option string * option string
    * option string * string * string * Z :=
  (Lead.id l, Lead.business_id l, Lead.name l, Lead.phone l, Lead.email l,
   Lead.source l, Lead.contact_channel l, Lead.status l, Lead.created_at l).

(** The tables other than [leads]. *)
Definition other_tables (s : store) :=
  (conversations s, messages s, meetings s, businesses s, assistant_configs s,
   calendar_integrations s).

(** The lead-authored messages of a list. *)
Definition from_lead (rows : list Message.t) : list Message.t :=
  filter (fun m => Message.is_from_lead m = true) rows.

(** The first hundred messages of a conversation, oldest first. *)
Definition first_hundred (conversationId : string) (s : store) : list Message.t :=
  take 100 (ConversationModel.oldest_first
              (ConversationModel.of_conversation conversationId (messages s))).

(** The analysis of every message of [rows], in order, for each field in
    turn. *)
Definition analysis `{JsString} (fields : list string) (rows : list Message.t)
  : gmap string jsval :=
  foldl (fun qd field =>
           foldl (fun qd m =>
                    ConversationService.analyse field
                      (toLowerCase (Message.content m)) qd)
                 qd rows)
        ∅ fields.

(** The specification's reading of the extraction step: the messages it
    fetches to scan hold every lead-authored message of the conversation. *)
Definition every_lead_message_scanned `{Providers}
    (conversationId : string) (w : world) : Prop :=
  ∀ fetched w1,
    ConversationModel.getMessagesByConversationId conversationId 100 0 w
    = (Ret fetched, w1) →
    ∀ m, m ∈ from_lead (ConversationModel.of_conversation conversationId
                          (messages (db w))) →
         m ∈ from_lead fetched.

(** ** Worlds before and after a run *)

(** [w'] is [w] after more calls to the outside, each satisfying [P]. *)
Definition grows (P : event -> Prop) (w w' : world) : Prop :=
  ∃ evs, trace w' = trace w ++ evs ∧ Forall P evs.

(** Every run of [m] relates the world before and the world after by [R]. *)
Definition respects {A} (R : world -> world -> Prop) (m : M A) : Prop :=
  ∀ w r w', m w = (r, w') → R w w'.

(** Kinds of calls: reads of the database (and logs), calls to the
    database (and logs), logs. *)
Definition is_read (e : event) : Prop :=
  match e with
  | Db _ Select _ | ConsoleError _ => True
  | _ => False
  end.

Definition is_db (e : event) : Prop :=
  match e with
  | Db _ _ _ | ConsoleError _ => True
  | _ => False
  end.


(** Anything but a free/busy answer that reports a busy interval. *)
Definition not_conflict (e : event) : Prop :=
  match e with
  | FreeBusy _ _ _ (Some (_ :: _)) => False
  | _ => True
  end.

(** Anything but a call to the calendar. *)
Definition not_calendar (e : event) : Prop :=
  match e with
  | FreeBusy _ _ _ _ | EventsInsert _ _ _ => False
  | _ => True
  end.

(** The projection [proj] of the tables is as before. *)
Definition keeps {T} (proj : store -> T) (w w' : world) : Prop :=
  proj (db w') = proj (db w).

(** Both relations hold. *)
Definition both (R1 R2 : world -> world -> Prop) (w w' : world) : Prop :=
  R1 w w' ∧ R2 w w'.

(** Anything but a completion request that failed. *)
Definition not_failed_completion (e : event) : Prop :=
  match e with
  | ChatCompletion _ None => False
  | _ => True
  end.

(** Leads untouched; only database calls and logs. *)
Definition leads_kept (w w' : world) : Prop :=
  both (keeps leads) (grows is_db) w w'.

(** Leads and messages untouched; only database calls and logs. *)
Definition quiet (w w' : world) : Prop :=
  both (keeps messages) leads_kept w w'.

(** The tables are as before and only reads were issued. *)
Definition only_reads (w w' : world) : Prop :=
  db w' = db w ∧ grows is_read w w'.

End Vocabulary.


(* ===================================================================== *)
(** * The slots of a window, in closed form *)
(* ===================================================================== *)

Module SlotShape.
Import Calendar.

(** The candidate slots of a window: the [k]-th one starts [k] steps
    after the opening time, for [k] from 1 to the number of whole steps
    between the opening and the closing time. *)
Definition candidates (dayStart dayEnd step : Z) : list slot :=
  (fun k => {| slot_start := dayStart + k * step;
               slot_end := time_clip (dayStart + k * step + step) |})
  <$> seqZ 1 ((dayEnd - dayStart) / step).

(** A slot that conflicts with no busy interval. *)
Definition free (busySlots : list busy) (s : slot) : Prop :=
  existsb (conflicts (slot_start s) (slot_end s)) busySlots = false.

#[export] Instance free_dec busySlots s : Decision (free busySlots s) :=
  decide (existsb (conflicts (slot_start s) (slot_end s)) busySlots = false).

(** One slot ends before the next one starts. *)
Definition precedes (a b : slot) : Prop :=
  ∃ e, slot_end a = Some e ∧ e ≤ slot_start b.

(** Where a slot of the answer comes from: a day of the range, the first
    entry of the business hours for its weekday, and a start between one
    step after the opening time and the closing time. *)
Definition in_window `{MomentTz} (startDate endDate : Z) (timezone : string)
    (durationMinutes : Z) (businessHours : list hours) (s : slot) : Prop :=
  ∃ d h dayStart dayEnd,
    startDate ≤ d ≤ endDate
    ∧ find (fun h => String.eqb (day h) (weekday_name d)) businessHours = Some h
    ∧ tz_parse timezone d (start h) = Some dayStart
    ∧ tz_parse timezone d (end_ h) = Some dayEnd
    ∧ dayStart + durationMinutes * ms_per_minute ≤ slot_start s
    ∧ slot_start s ≤ dayEnd.

End SlotShape.

(* ===================================================================== *)
(** * routes/webhooks.js: POST /api/webhooks/twilio/incoming *)
(* ===================================================================== *)

Module WebhookRoute.
Section WebhookRoute.
Context `{Providers} `{JsString}.

(** [s.replace(pattern, '')] for a string pattern: the first occurrence
    goes. *)
Fixpoint remove_first (pattern s : string) : string :=
  match skip_prefix pattern s with
  | Some rest => rest
  | None =>
      match s with
      | String c s' => String c (remove_first pattern s')
      | EmptyString => EmptyString
      end
  end.

(** The empty TwiML answer. *)
Definition acknowledgement : string := "<Response></Response>".

(** [from] is [req.body.From], [None] when the payload has none; [body]
    is [req.body.Body].  The processing is started and not awaited: what
    it throws goes to [console.error]. *)
Definition twilio_incoming (from : option string) (body : string)
  : world -> string * world := fun w =>
  match from with
  | Some from =>
      (* Determine which channel this is coming from *)
      let channel := if String.prefix "whatsapp:" from then "whatsapp" else "sms" in
      (* For WhatsApp, Twilio prefixes numbers with "whatsapp:" - let's remove that prefix *)
      let phoneNumber := remove_first "whatsapp:" from in
      let processing :=
        try_catch
          (_ ← ConversationService.processIncomingMessage phoneNumber body channel;
           mret tt)
          (fun error => console_error "Webhook processing error:") in
      (acknowledgement, snd (processing w))
  | None =>
      (* [from.replace] throws; the handler logs and answers all the same *)
      (acknowledgement, snd (console_error "Twilio Webhook Error:" w))
  end.

End WebhookRoute.
End WebhookRoute.

(* ===================================================================== *)
(** * Vocabulary for the conversation pipeline *)
(* ===================================================================== *)

Module PipelineVocabulary.

(** Any call but a completion that succeeded, a message sent, or a call
    to the calendar. *)
Definition no_reply (e : event) : Prop :=
  match e with
  | Db _ _ _ | ConsoleError _ | ChatCompletion _ None => True
  | _ => False
  end.

(** The Twilio request [sendMessage] makes for a channel, as
    [(from, to)]; [None] for a channel it does not support. *)
Definition addresses `{Providers} `{JsString} (to channel : string)
  : option (string * string) :=
  if String.eqb (toLowerCase channel) "whatsapp"
  then Some ("whatsapp:" +:+ TWILIO_WHATSAPP_NUMBER, "whatsapp:" +:+ to)
  else if String.eqb (toLowerCase channel) "sms"
       then Some (TWILIO_PHONE_NUMBER, to)
       else None.

(** The label and the prefix of the error of a failed send. *)
Definition send_failure `{JsString} (channel : string) : string * string :=
  if String.eqb (toLowerCase channel) "whatsapp"
  then ("Twilio WhatsApp Error:", "Failed to send WhatsApp message")
  else ("Twilio SMS Error:", "Failed to send SMS").

(** Any call but a request to Twilio. *)
Definition not_sent (e : event) : Prop :=
  match e with
  | TwilioCreate _ _ _ _ => False
  | _ => True
  end.

(** Any call but a request to Twilio addressed to someone else. *)
Definition replies_to (sender : string) (e : event) : Prop :=
  match e with
  | TwilioCreate _ _ to _ => to = sender
  | _ => True
  end.

End PipelineVocabulary.

(* ===================================================================== *)
(** * Vocabulary for the booking *)
(* ===================================================================== *)

Module BookingVocabulary.
Import SchedulingRoute.

(** The row of [meetings] the handler asks for, column by column. *)
Definition row_of (req : request) (business : Business.t)
    (googleEventId : option string) (row : Meeting.t) : Prop :=
  Meeting.lead_id row = leadId req
  ∧ Meeting.business_id row = Business.id business
  ∧ Meeting.conversation_id row = conversationId req
  ∧ Meeting.title row = title req
  ∧ Meeting.start_time row = startTime req
  ∧ Meeting.end_time row = endTime req
  ∧ Meeting.timezone row = timezone req
  ∧ Meeting.status row = "scheduled"
  ∧ Meeting.google_event_id row = googleEventId.

(** The event the handler asks Google Calendar to create. *)
Definition event_of (req : request) (lead : Lead.t) : calendar_event :=
  Build_calendar_event
    (title req)
    (default "" (description req))
    (startTime req)
    (endTime req)
    (timezone req)
    match CalendarService.if_truthy (Lead.email lead) with
    | Some email => [email]
    | None => []
    end
    (CalendarService.if_truthy (location req)).

End BookingVocabulary.

(* ===================================================================== *)
(** * services/conversation.js: the start of a conversation *)
(* ===================================================================== *)

Module LeadConversation.
Section LeadConversation.
Context `{Providers} `{JsString}.

(** [assistantConfig.greeting_message || `Hi there! ...`] *)
Definition greeting_for (assistantConfig : AssistantConfig.t) (business : Business.t)
  : string :=
  default ("Hi there! I'm the virtual assistant for " +:+ Business.name business
           +:+ ". How can I help you today?")
          (CalendarService.if_truthy (AssistantConfig.greeting_message assistantConfig)).

(** [getLeadById] and [getBusinessById] return a row or throw, so the
    tests [!lead] and [!business] never hold. *)
Definition startLeadConversation (leadId businessId : string) : M Conversation.t :=
  try_catch
    ((* Get the lead *)
     lead ← LeadModel.getLeadById leadId;
     (* Get business information and assistant configuration *)
     business ← BusinessModel.getBusinessById businessId;
     assistantConfig ← BusinessModel.getAssistantConfig businessId;
     match assistantConfig with
     | None => throw (new_Error "Assistant configuration not found")
     | Some assistantConfig =>
         (* Create initial greeting message *)
         let greeting := greeting_for assistantConfig business in
         (* Start conversation *)
         conversation ← ConversationModel.startConversation leadId businessId
                          (Some greeting);
         (* Send the greeting message to the lead *)
         match CalendarService.if_truthy (Lead.phone lead) with
         | Some phone =>
             TwilioService.sendMessage phone greeting (Lead.contact_channel lead)
         | None => mret tt
         end ;;
         mret conversation
     end)
    (rethrow "Start Lead Conversation Error:" "Failed to start lead conversation").

End LeadConversation.
End LeadConversation.

Module StartVocabulary.

(** [c'] is the conversation [c], whatever its time stamps. *)
Definition same_conversation (c c' : Conversation.t) : Prop :=
  Conversation.id c' = Conversation.id c
  ∧ Conversation.lead_id c' = Conversation.lead_id c
  ∧ Conversation.business_id c' = Conversation.business_id c
  ∧ Conversation.status c' = Conversation.status c.

End StartVocabulary.

(* ===================================================================== *)
(** * models/lead.js: the creation of a lead *)
(* ===================================================================== *)

Module LeadCreation.
Section LeadCreation.
Context `{Providers}.

(** The [leadData] argument; [None] is a property left out. *)
Record lead_data := {
  name : option string;
  phone : option string;
  email : option string;
  source : option string;
  contact_channel : option string;
  additional_info : option jsval
}.

(** [updated_at] is not sent: the table fills it in with the time of the
    insertion. *)
Definition createLead (businessId : string) (leadData : lead_data)
  : M (option Lead.t) :=
  try_catch
    (w0 ← get_world;
     let row := {| Lead.id := uuidv4 (tick w0);
                   Lead.business_id := businessId;
                   Lead.name := name leadData;
                   Lead.phone := phone leadData;
                   Lead.email := email leadData;
                   Lead.source := source leadData;
                   Lead.contact_channel := default "whatsapp" (contact_channel leadData);
                   Lead.status := "new";
                   Lead.additional_info := default (JObj ∅) (additional_info leadData);
                   Lead.created_at := now (tick w0);
                   Lead.updated_at := now (tick w0) |} in
     (* Insert lead in Supabase *)
     a ← db_write "leads" Insert
           (set_leads (fun rows => rows ++ [row])) (fun _ => [row]);
     data ← or_throw a;
     mret (head data))
    (rethrow "Lead Creation Error:" "Failed to create lead").

End LeadCreation.
End LeadCreation.

(* ===================================================================== *)
(** * models/conversation.js: one conversation by its identifier *)
(* ===================================================================== *)

Module ConversationAdmin.
Section ConversationAdmin.
Context `{Providers}.

Definition getConversationById (conversationId : string) : M Conversation.t :=
  try_catch
    (a ← db_single "conversations"
           (fun s => filter (fun c => Conversation.id c = conversationId)
                            (conversations s));
     or_throw a)
    (rethrow "Get Conversation Error:" "Failed to fetch conversation").

(** [.update({ status, updated_at: new Date() })] on one row *)
Definition with_status (status : string) (at_ : Z) (c : Conversation.t)
  : Conversation.t :=
  {| Conversation.id := Conversation.id c;
     Conversation.lead_id := Conversation.lead_id c;
     Conversation.business_id := Conversation.business_id c;
     Conversation.status := status;
     Conversation.last_message_at := Conversation.last_message_at c;
     Conversation.created_at := Conversation.created_at c;
     Conversation.updated_at := at_ |}.

(** [.update(...).eq('id', conversationId)]: every row with that id *)
Definition update_where_id (conversationId : string)
    (f : Conversation.t -> Conversation.t) (rows : list Conversation.t)
  : list Conversation.t :=
  (fun c => if decide (Conversation.id c = conversationId) then f c else c) <$> rows.

Definition updateConversationStatus (conversationId status : string)
  : M (option Conversation.t) :=
  try_catch
    (w0 ← get_world;
     let at_ := now (tick w0) in
     a ← db_write "conversations" Update
           (set_conversations (update_where_id conversationId (with_status status at_)))
           (fun s => filter (fun c => Conversation.id c = conversationId)
                            (conversations s));
     data ← or_throw a;
     mret (head data))
    (rethrow "Update Conversation Status Error:" "Failed to update conversation status").

End ConversationAdmin.
End ConversationAdmin.

(* ===================================================================== *)
(** * routes/conversations.js *)
(* ===================================================================== *)

Module ConversationRoute.
Section ConversationRoute.
Context `{Providers} `{JsString}.

(** What the handlers answer: [{ error: true, message }] under a status,
    the two answers of success, or the error handed to [next]. *)
Inductive response :=
| Json (status : nat) (message : string)
| JsonErrors (status : nat)
| ConversationFound (conversation : Conversation.t) (messages : list Message.t)
    (lead : Lead.t)
| MessageSent (sentMessage : option Message.t)
| AiResponseSent (sentMessage : option Message.t) (aiResponse : string)
| ConversationStarted (conversation : Conversation.t)
| ConversationClosed (conversation : option Conversation.t)
| Next (error : js_error).

(** [if (lead.phone) { await twilioService.sendMessage(lead.phone, text,
    lead.contact_channel) }] *)
Definition sendIfPhone (lead : Lead.t) (text : string) : M unit :=
  match CalendarService.if_truthy (Lead.phone lead) with
  | Some phone => TwilioService.sendMessage phone text (Lead.contact_channel lead)
  | None => mret tt
  end.

(** [GET /:id]; [getMessagesByConversationId] is called with its
    defaults. *)
Definition get_conversation (userId conversationId : string)
  : world -> response * world := fun w =>
  let handler : M response :=
    (* Get the business for this user *)
    business ← BusinessModel.getBusinessByUserId userId;
    match business with
    | None => mret (Json 404 "Business not found")
    | Some business =>
        (* Get conversation *)
        conversation ← ConversationAdmin.getConversationById conversationId;
        (* Check if conversation belongs to this business *)
        if negb (String.eqb (Conversation.business_id conversation) (Business.id business))
        then mret (Json 404 "Conversation not found")
        else
          (* Get messages *)
          messages ← ConversationModel.getMessagesByConversationId conversationId 100 0;
          (* Get lead info *)
          lead ← LeadModel.getLeadById (Conversation.lead_id conversation);
          mret (ConversationFound conversation messages lead)
    end in
  match handler w with
  | (Ret res, w') => (res, w')
  | (Throw error, w') => (Next error, w')
  end.

(** [POST /:id/message]; [message] is [req.body.message], [""] when the
    body has none. *)
Definition post_message (userId conversationId message : string)
  : world -> response * world := fun w =>
  let handler : M response :=
    if String.eqb message "" then mret (JsonErrors 400)
    else
      (* Get the business for this user *)
      business ← BusinessModel.getBusinessByUserId userId;
      match business with
      | None => mret (Json 404 "Business not found")
      | Some business =>
          (* Get conversation *)
          conversation ← ConversationAdmin.getConversationById conversationId;
          (* Check if conversation belongs to this business *)
          if negb (String.eqb (Conversation.business_id conversation)
                     (Business.id business))
          then mret (Json 404 "Conversation not found")
          else
            (* Get lead info *)
            lead ← LeadModel.getLeadById (Conversation.lead_id conversation);
            (* Add message to conversation (human-sent, not from lead) *)
            sentMessage ← ConversationModel.addMessage conversationId message false
                            (JObj {[ "sent_by_user_id" := JStr userId ]});
            (* Send message to lead via Twilio if phone exists *)
            sendIfPhone lead message ;;
            mret (MessageSent sentMessage)
      end in
  match handler w with
  | (Ret res, w') => (res, w')
  | (Throw error, w') => (Next error, w')
  end.

(** [POST /lead/:leadId/start] *)
Definition post_start (userId leadId : string)
  : world -> response * world := fun w =>
  let handler : M response :=
    (* Get the business for this user *)
    business ← BusinessModel.getBusinessByUserId userId;
    match business with
    | None => mret (Json 404 "Business not found")
    | Some business =>
        (* Get lead and verify it belongs to this business *)
        lead ← LeadModel.getLeadById leadId;
        if negb (String.eqb (Lead.business_id lead) (Business.id business))
        then mret (Json 404 "Lead not found")
        else
          (* Get assistant configuration *)
          assistantConfig ← BusinessModel.getAssistantConfig (Business.id business);
          match assistantConfig with
          | None => mret (Json 400 "Assistant configuration not found")
          | Some assistantConfig =>
              (* Create initial greeting message *)
              let greeting := LeadConversation.greeting_for assistantConfig business in
              (* Start conversation *)
              conversation ← ConversationModel.startConversation leadId
                               (Business.id business) (Some greeting);
              (* Send the greeting message to the lead *)
              sendIfPhone lead greeting ;;
              mret (ConversationStarted conversation)
          end
    end in
  match handler w with
  | (Ret res, w') => (res, w')
  | (Throw error, w') => (Next error, w')
  end.

(** [POST /:id/ai-response] from "Add AI response to conversation" on. *)
Definition sendAiResponse (conversationId : string) (lead : Lead.t)
    (aiResponse : string) : M response :=
  (* Add AI response to conversation *)
  sentMessage ← ConversationModel.addMessage conversationId aiResponse false
                  (JObj {[ "generated_by_ai" := JBool true ]});
  (* Send response to lead via Twilio if phone exists *)
  match CalendarService.if_truthy (Lead.phone lead) with
  | Some phone => TwilioService.sendMessage phone aiResponse (Lead.contact_channel lead)
  | None => mret tt
  end ;;
  mret (AiResponseSent sentMessage aiResponse).

(** [getConversationById] returns a row or throws, so [!conversation]
    never holds. *)
Definition post_ai_response (userId conversationId : string)
  : world -> response * world := fun w =>
  let handler : M response :=
    (* Get the business for this user *)
    business ← BusinessModel.getBusinessByUserId userId;
    match business with
    | None => mret (Json 404 "Business not found")
    | Some business =>
        (* Get conversation *)
        conversation ← ConversationAdmin.getConversationById conversationId;
        (* Check if conversation belongs to this business *)
        if negb (String.eqb (Conversation.business_id conversation) (Business.id business))
        then mret (Json 404 "Conversation not found")
        else
          (* Get lead info *)
          lead ← LeadModel.getLeadById (Conversation.lead_id conversation);
          (* Get assistant configuration *)
          assistantConfig ← BusinessModel.getAssistantConfig (Business.id business);
          match assistantConfig with
          | None => mret (Json 400 "Assistant configuration not found")
          | Some assistantConfig =>
              (* Get recent conversation history *)
              conversationHistory ←
                ConversationModel.getRecentMessages conversationId 20;
              (* Check if there are any messages in the conversation *)
              if Nat.eqb (length conversationHistory) 0
              then mret (Json 400 "Cannot generate AI response for an empty conversation")
              else
                (* Get the last message from the lead for context *)
                match last (filter (fun msg => Message.is_from_lead msg = true)
                                   conversationHistory) with
                | None =>
                    mret (Json 400
                            "No lead messages found in this conversation to respond to")
                | Some lastLeadMessage =>
                    (* Generate AI response *)
                    aiResponse ←
                      OpenAIService.generateConversation
                        (Business.name business) (Business.industry business)
                        (Business.services business)
                        (AssistantConfig.tone assistantConfig)
                        (AssistantConfig.role assistantConfig)
                        (AssistantConfig.required_info assistantConfig)
                        (Message.to_object <$> conversationHistory)
                        (Message.content lastLeadMessage);
                    sendAiResponse conversationId lead aiResponse
                end
          end
    end in
  match handler w with
  | (Ret res, w') => (res, w')
  | (Throw error, w') => (Next error, w')
  end.

Definition put_close (userId conversationId : string)
  : world -> response * world := fun w =>
  let handler : M response :=
    (* Get the business for this user *)
    business ← BusinessModel.getBusinessByUserId userId;
    match business with
    | None => mret (Json 404 "Business not found")
    | Some business =>
        (* Get conversation *)
        conversation ← ConversationAdmin.getConversationById conversationId;
        (* Check if conversation belongs to this business *)
        if negb (String.eqb (Conversation.business_id conversation) (Business.id business))
        then mret (Json 404 "Conversation not found")
        else
          (* Close the conversation *)
          updatedConversation ←
            ConversationAdmin.updateConversationStatus conversationId "closed";
          mret (ConversationClosed updatedConversation)
    end in
  match handler w with
  | (Ret res, w') => (res, w')
  | (Throw error, w') => (Next error, w')
  end.

End ConversationRoute.
End ConversationRoute.

Module RouteVocabulary.
Import Vocabulary.

(** Any call but a completion request. *)
Definition not_completion (e : event) : Prop :=
  match e with
  | ChatCompletion _ _ => False
  | _ => True
  end.

(** The [limit] newest of the rows that belong to a conversation, oldest
    first. *)
Definition newest (conversationId : string) (limit : nat) (rows : list Message.t)
  : list Message.t :=
  reverse (take limit
             (ConversationModel.newest_first
                (ConversationModel.of_conversation conversationId rows))).

(** The messages [getRecentMessages] reads for a conversation and a
    limit. *)
Definition recent (conversationId : string) (limit : nat) (s : store)
  : list Message.t :=
  newest conversationId limit (messages s).

(** The business tables untouched; only database calls and logs. *)
Definition setup_kept (w w' : world) : Prop :=
  both (keeps businesses) (both (keeps assistant_configs) (grows is_db)) w w'.

(** A stored message as [generateConversation] presents it to the
    provider. *)
Definition as_assistant (m : Message.t) : chat_message :=
  {| role := "assistant"; content := Some (JStr (Message.content m)) |}.

End RouteVocabulary.

(* ===================================================================== *)
(** * More worlds for running the model *)
(* ===================================================================== *)

(** A conversation of Ada with Acme. *)
Definition chat (id status : string) (at_ : Z) : Conversation.t := {|
  Conversation.id := id; Conversation.lead_id := "lead-1";
  Conversation.business_id := "biz-1"; Conversation.status := status;
  Conversation.last_message_at := None;
  Conversation.created_at := at_; Conversation.updated_at := at_
|}.

(** Ada has two active conversations and a newer one that is closed. *)
Definition three_chats : world :=
  {| db := set_conversations
             (fun _ => [chat "conv-1" "active" 10; chat "conv-2" "active" 30;
                        chat "conv-3" "closed" 50])
             acme_store;
     trace := [] |}.

(** A lead who leaves only a phone number. *)
Definition walk_in : LeadCreation.lead_data := {|
  LeadCreation.name := None; LeadCreation.phone := Some "+15551230003";
  LeadCreation.email := None; LeadCreation.source := None;
  LeadCreation.contact_channel := None; LeadCreation.additional_info := None
|}.

(** Ada's conversation with Acme: the greeting and her question. *)
Definition ada_chatting : world :=
  {| db := set_messages (fun _ => [greeting; question])
             (set_conversations (fun _ => [chat "conv-1" "active" 5]) acme_store);
     trace := [] |}.

(** A short conversation: Ada states her budget, and the assistant then
    names another figure. *)
Definition offer : Message.t := {|
  Message.id := "msg-101"; Message.conversation_id := "conv-1";
  Message.content := "Our plans fit a budget of 9,000";
  Message.is_from_lead := false; Message.metadata := JObj ∅; Message.created_at := 101
|}.

Definition short_conversation : world :=
  {| db := set_messages (fun _ => [answer; offer]) acme_store; trace := [] |}.
(* ===================================================================== *)
(** * Properties of the slot calculator *)
(* ===================================================================== *)

Module CalendarFacts.
Import Calendar Vocabulary.

Lemma time_clip_Some t t' :
  time_clip t = Some t' ↔ t' = t ∧ - max_instant ≤ t ≤ max_instant.
Proof.
  unfold time_clip.
  destruct (Z.leb_spec (- max_instant) t), (Z.leb_spec t max_instant); cbn;
    split; try (intros [=]; subst; lia); try (intros [-> ?]; done || lia).
Qed.

Lemma time_clip_in_range t : - max_instant ≤ t ≤ max_instant → time_clip t = Some t.
Proof. intros Ht. by apply time_clip_Some. Qed.

Lemma time_clip_None t : time_clip t = None ↔ t < - max_instant ∨ max_instant < t.
Proof.
  unfold time_clip.
  destruct (Z.leb_spec (- max_instant) t), (Z.leb_spec t max_instant); cbn;
    split; try done; try lia; auto.
Qed.

(** One round of the inner loop. *)
Lemma slot_loop_step fuel dur busySlots dayEnd slotStart acc :
  slot_loop (S fuel) dur busySlots dayEnd slotStart acc
  = let next := slotStart + dur * ms_per_minute in
    if decide (- max_instant ≤ next ≤ max_instant ∧ next ≤ dayEnd)
    then slot_loop fuel dur busySlots dayEnd next
           (if existsb (conflicts next (time_clip (next + dur * ms_per_minute)))
                 busySlots
            then acc
            else acc ++ [{| slot_start := next;
                            slot_end := time_clip (next + dur * ms_per_minute) |}])
    else Some acc.
Proof.
  cbn [slot_loop]. cbn zeta.
  destruct (time_clip (slotStart + dur * ms_per_minute)) as [next |] eqn:Hclip.
  - apply time_clip_Some in Hclip as [-> Hrange].
    destruct (Z.leb_spec (slotStart + dur * ms_per_minute) dayEnd).
    + rewrite decide_True by done. by destruct (existsb _ busySlots).
    + rewrite decide_False by lia. done.
  - apply time_clip_None in Hclip. rewrite decide_False by lia. done.
Qed.



(** Passing the three-way test is being disjoint from the busy interval,
    as half-open intervals. *)
Lemma no_overlap_disjoint s b e :
  slot_end s = Some e →
  ¬ overlaps s b → e ≤ busy_start b ∨ busy_end b ≤ slot_start s.
Proof.
  intros He Hfree. unfold overlaps in Hfree. rewrite He in Hfree.
  destruct (Z.le_gt_cases e (busy_start b)); [by left |].
  destruct (Z.le_gt_cases (busy_end b) (slot_start s)); [by right |].
  exfalso. apply Hfree.
  destruct (Z.le_gt_cases (busy_start b) (slot_start s)); [left; lia |].
  right. destruct (Z.le_gt_cases e (busy_end b)).
  - left. exists e. split; [done | lia].
  - right. exists e. split; [done | lia].
Qed.


(** Where the inner loop puts its slots: the first one starts one
    duration after [slotStart], and a slot may start as late as [dayEnd]. *)
Lemma slot_loop_starts fuel dur busySlots dayEnd :
  0 ≤ dur →
  ∀ slotStart acc result,
    slot_loop fuel dur busySlots dayEnd slotStart acc = Some result →
    ∃ new, result = acc ++ new
           ∧ Forall (fun s => slotStart + dur * ms_per_minute ≤ slot_start s
                              ∧ slot_start s ≤ dayEnd) new.
Proof.
  intros Hdur.
  induction fuel as [| fuel IH]; intros slotStart acc result Hrun; [done |].
  rewrite slot_loop_step in Hrun. cbn zeta in Hrun.
  destruct (decide _) as [[Hrange Hle] | Hstop].
  - apply IH in Hrun as (new & -> & Hnew).
    assert (Forall (λ s, slotStart + dur * ms_per_minute ≤ slot_start s
                         ∧ slot_start s ≤ dayEnd) new) as Hnew'.
    { eapply Forall_impl; [exact Hnew |]. cbn. unfold ms_per_minute. intros s. lia. }
    destruct (existsb _ busySlots).
    + by exists new.
    + eexists (_ :: new). split; [by rewrite <- app_assoc |].
      apply Forall_cons. split; [cbn; lia | done].
  - simplify_eq. exists []. by rewrite app_nil_r.
Qed.





(** With a duration of zero and a window that is open, the inner loop
    never ends: no fuel is enough. *)
Lemma slot_loop_diverges busySlots dayEnd :
  ∀ fuel slotStart acc,
    - max_instant ≤ slotStart ≤ max_instant →
    slotStart ≤ dayEnd →
    slot_loop fuel 0 busySlots dayEnd slotStart acc = None.
Proof.
  induction fuel as [| fuel IH]; intros slotStart acc Hrange Hopen; [done |].
  rewrite slot_loop_step. cbn zeta.
  replace (slotStart + 0 * ms_per_minute) with slotStart by lia.
  rewrite decide_True by done. by apply IH.
Qed.



End CalendarFacts.

Module CalendarClaims.
Import Calendar Vocabulary CalendarFacts.




(** C2.  Monday 09:00-10:00, thirty-minute slots, nothing busy, asked for
    the week from Monday 1 to Sunday 7 January 2024: the call returns
    09:30-10:00 and 10:00-10:30, not 09:00-09:30 and 09:30-10:00.  The
    first slot starts one duration after the opening time and the last
    one ends after the closing time. *)
Theorem suggestTimeSlots_monday_morning :
  fst <$> @CalendarService.suggestTimeSlots (outside (Some []) None None) utc
            10 "token" monday (monday + 6) "UTC" 30 monday_9_to_10 empty_world
  = Some (Ret [{| slot_start := at_clock monday 9 30;
                  slot_end := Some (at_clock monday 10 0) |};
               {| slot_start := at_clock monday 10 0;
                  slot_end := Some (at_clock monday 10 30) |}]).
Proof. vm_compute. reflexivity. Qed.

(** C3.  The same request with 09:00-09:30 reported busy: the call
    returns 09:30-10:00 and also 10:00-10:30, which ends half an hour
    after closing time. *)
Theorem suggestTimeSlots_monday_morning_busy :
  fst <$> @CalendarService.suggestTimeSlots
            (outside (Some [{| busy_start := at_clock monday 9 0;
                               busy_end := at_clock monday 9 30 |}]) None None) utc
            10 "token" monday (monday + 6) "UTC" 30 monday_9_to_10 empty_world
  = Some (Ret [{| slot_start := at_clock monday 9 30;
                  slot_end := Some (at_clock monday 10 0) |};
               {| slot_start := at_clock monday 10 0;
                  slot_end := Some (at_clock monday 10 30) |}]).
Proof. vm_compute. reflexivity. Qed.

End CalendarClaims.

(* ===================================================================== *)
(** * Reasoning about runs *)
(* ===================================================================== *)

Module Runs.
Import Vocabulary.

#[export] Instance grows_refl P : Reflexive (grows P).
Proof. intros w. exists []. by rewrite app_nil_r. Qed.

#[export] Instance grows_trans P : Transitive (grows P).
Proof.
  intros w1 w2 w3 (e1 & H1 & F1) (e2 & H2 & F2).
  exists (e1 ++ e2). rewrite H2, H1, <- app_assoc. split; [done | by apply Forall_app].
Qed.

#[export] Instance only_reads_refl : Reflexive only_reads.
Proof. intros w. split; [done | reflexivity]. Qed.

#[export] Instance only_reads_trans : Transitive only_reads.
Proof.
  intros w1 w2 w3 [D1 G1] [D2 G2]. split; [congruence | by etransitivity].
Qed.

#[export] Instance keeps_refl {T} (proj : store → T) : Reflexive (keeps proj).
Proof. by intros w. Qed.

#[export] Instance keeps_trans {T} (proj : store → T) : Transitive (keeps proj).
Proof. unfold keeps. intros w1 w2 w3 H1 H2. congruence. Qed.

#[export] Instance both_refl R1 R2 `{!Reflexive R1} `{!Reflexive R2} :
  Reflexive (both R1 R2).
Proof. intros w. by split. Qed.

#[export] Instance both_trans R1 R2 `{!Transitive R1} `{!Transitive R2} :
  Transitive (both R1 R2).
Proof. intros w1 w2 w3 [A1 B1] [A2 B2]. split; by etransitivity. Qed.

#[export] Instance leads_kept_refl : Reflexive leads_kept.
Proof. unfold leads_kept. apply _. Qed.

#[export] Instance leads_kept_trans : Transitive leads_kept.
Proof. unfold leads_kept. apply _. Qed.

#[export] Instance quiet_refl : Reflexive quiet.
Proof. unfold quiet. apply _. Qed.

#[export] Instance quiet_trans : Transitive quiet.
Proof. unfold quiet. apply _. Qed.

Lemma grows_weaken (P Q : event → Prop) w w' :
  (∀ e, P e → Q e) → grows P w w' → grows Q w w'.
Proof.
  intros HPQ (evs & Ht & HF). exists evs. split; [done |].
  eapply Forall_impl; eauto.
Qed.

Lemma grows_record (P : event → Prop) e w : P e → grows P w (record e w).
Proof. intros He. exists [e]. split; [done | by apply Forall_singleton]. Qed.

Lemma grows_record2 (P : event → Prop) e1 e2 w :
  P e1 → P e2 → grows P w (record e2 (record e1 w)).
Proof.
  intros H1 H2. exists [e1; e2]. split; [cbn; by rewrite <- app_assoc |].
  by repeat constructor.
Qed.

(** ** Taking a run apart *)

Lemma bind_inv {A B} (m : M A) (k : A → M B) w r w' :
  (m ≫= k) w = (r, w') →
  (∃ a w1, m w = (Ret a, w1) ∧ k a w1 = (r, w'))
  ∨ (∃ e, m w = (Throw e, w') ∧ r = Throw e).
Proof.
  unfold mbind, M_bind. destruct (m w) as [[a | e] w1]; intros Hrun.
  - left. by exists a, w1.
  - right. simplify_eq. by exists e.
Qed.

Lemma try_catch_inv {A} (m : M A) (h : js_error → M A) w r w' :
  try_catch m h w = (r, w') →
  (∃ a, m w = (Ret a, w') ∧ r = Ret a)
  ∨ (∃ e w1, m w = (Throw e, w1) ∧ h e w1 = (r, w')).
Proof.
  unfold try_catch. destruct (m w) as [[a | e] w1]; intros Hrun.
  - left. simplify_eq. by exists a.
  - right. by exists e, w1.
Qed.

(** ** Composing what runs respect *)

Section Respects.
Context (R : world → world → Prop) `{!Reflexive R} `{!Transitive R}.

Lemma respects_ret {A} (a : A) : respects R (mret a).
Proof. intros w r w' Hrun. unfold mret, M_ret in Hrun. by simplify_eq. Qed.

Lemma respects_throw {A} e : respects R (@throw A e).
Proof. intros w r w' Hrun. unfold throw in Hrun. by simplify_eq. Qed.

Lemma respects_bind {A B} (m : M A) (k : A → M B) :
  respects R m → (∀ a, respects R (k a)) → respects R (m ≫= k).
Proof.
  intros Hm Hk w r w' Hrun.
  apply bind_inv in Hrun as [(a & w1 & H1 & H2) | (e & H1 & _)].
  - etransitivity; [by eapply Hm | by eapply Hk].
  - by eapply Hm.
Qed.

Lemma respects_try_catch {A} (m : M A) h :
  respects R m → (∀ e, respects R (h e)) → respects R (try_catch m h).
Proof.
  intros Hm Hh w r w' Hrun.
  apply try_catch_inv in Hrun as [(a & H1 & _) | (e & w1 & H1 & H2)].
  - by eapply Hm.
  - etransitivity; [by eapply Hm | by eapply Hh].
Qed.

Lemma respects_get_world : respects R get_world.
Proof. intros w r w' Hrun. unfold get_world in Hrun. by simplify_eq. Qed.

Lemma respects_emit e : (∀ w, R w (record e w)) → respects R (emit e).
Proof. intros He w r w' Hrun. unfold emit in Hrun. by simplify_eq. Qed.

Lemma respects_rethrow {A} label prefix e :
  (∀ w, R w (record (ConsoleError label) w)) → respects R (@rethrow A label prefix e).
Proof.
  intros He. unfold rethrow. apply respects_bind.
  - by apply respects_emit.
  - intros _. apply respects_throw.
Qed.

Lemma respects_or_throw {A} (a : db_answer A) : respects R (or_throw a).
Proof. destruct a; [apply respects_ret | apply respects_throw]. Qed.

Lemma respects_or_null {A} (a : db_answer A) : respects R (or_null a).
Proof.
  destruct a as [d | e]; cbn; [apply respects_ret |].
  destruct (is_pgrst116 e); [apply respects_ret | apply respects_throw].
Qed.

Lemma respects_db_select `{Providers} {A} table (rows : store → list A) :
  (∀ w err, R w (record (Db table Select err) w)) →
  respects R (db_select table rows).
Proof.
  intros He w r w' Hrun. unfold db_select in Hrun.
  destruct (db_fault (tick w)); simplify_eq; apply He.
Qed.

Lemma respects_db_single `{Providers} {A} table (rows : store → list A) :
  (∀ w err, R w (record (Db table Select err) w)) →
  respects R (db_single table rows).
Proof.
  intros He w r w' Hrun. unfold db_single in Hrun.
  repeat case_match; simplify_eq; apply He.
Qed.

Lemma respects_db_write `{Providers} {A} table op write (data : store → list A) :
  (∀ w err, R w (record (Db table op err) w)) →
  (∀ w, R w {| db := write (db w); trace := trace w ++ [Db table op None] |}) →
  respects R (db_write table op write data).
Proof.
  intros He Hw w r w' Hrun. unfold db_write in Hrun.
  destruct (db_fault (tick w)); simplify_eq; [apply He | apply Hw].
Qed.

Lemma respects_freebusy `{Providers} token timeMin timeMax :
  (∀ w answer, R w (record (FreeBusy token timeMin timeMax answer) w)) →
  respects R (CalendarService.freebusy token timeMin timeMax).
Proof.
  intros He w r w' Hrun. unfold CalendarService.freebusy in Hrun.
  destruct (freebusy_query _ _ _ _); simplify_eq; apply He.
Qed.

Lemma respects_insert_event `{Providers} token ev :
  (∀ w answer, R w (record (EventsInsert token ev answer) w)) →
  respects R (CalendarService.insert_event token ev).
Proof.
  intros He w r w' Hrun. unfold CalendarService.insert_event in Hrun.
  destruct (events_insert _ _ _); simplify_eq; apply He.
Qed.

Lemma respects_create_completion `{Providers} messages :
  (∀ w answer, R w (record (ChatCompletion messages answer) w)) →
  respects R (OpenAIService.create_completion messages).
Proof.
  intros He w r w' Hrun. unfold OpenAIService.create_completion in Hrun.
  destruct (chat_completions_create _ _); simplify_eq; apply He.
Qed.

Lemma respects_messages_create `{Providers} body from to :
  (∀ w error, R w (record (TwilioCreate body from to error) w)) →
  respects R (TwilioService.messages_create body from to).
Proof.
  intros He w r w' Hrun. unfold TwilioService.messages_create in Hrun.
  destruct (twilio_messages_create _ _ _ _); simplify_eq; apply He.
Qed.

End Respects.

(** ** Automation *)

Create HintDb models discriminated.

#[export] Hint Unfold
  LeadModel.getLeadById LeadModel.getLeadsByPhone LeadModel.updateLeadStatus
  LeadModel.addLeadQualificationData
  ConversationModel.addMessage ConversationModel.startConversation
  ConversationModel.getActiveConversationByLeadId
  ConversationModel.getMessagesByConversationId ConversationModel.getRecentMessages
  BusinessModel.getBusinessById BusinessModel.getBusinessByUserId
  BusinessModel.getAssistantConfig UserModel.getCalendarCredentials
  SchedulingModel.createMeeting
  CalendarService.checkAvailability CalendarService.createMeeting
  OpenAIService.generateConversation
  TwilioService.sendWhatsAppMessage TwilioService.sendSMS TwilioService.sendMessage
  ConversationService.extractQualificationData
  console_error : models.

(** One more event, tables as they were, whatever [R] of ours is asked. *)
Ltac record_step :=
  lazymatch goal with
  | |- quiet _ _ => split; record_step
  | |- leads_kept _ _ => split; record_step
  | |- both _ _ _ _ => split; record_step
  | |- keeps _ _ _ => reflexivity
  | |- grows _ _ _ => eexists [_]; split; [reflexivity | apply Forall_singleton; exact I]
  | |- only_reads _ _ =>
      split; [reflexivity
             | eexists [_]; split; [reflexivity | apply Forall_singleton; exact I]]
  | |- _ = _ => reflexivity
  end.

Ltac respects_step :=
  lazymatch goal with
  | |- respects _ (match ?x with _ => _ end) => destruct x
  | |- respects _ _ =>
      first
        [ apply respects_ret | apply respects_throw | apply respects_get_world
        | apply respects_or_throw | apply respects_or_null
        | apply respects_rethrow | apply respects_emit
        | apply respects_db_select | apply respects_db_single | apply respects_db_write
        | apply respects_freebusy | apply respects_insert_event
        | apply respects_create_completion | apply respects_messages_create
        | apply respects_bind | apply respects_try_catch ]
  | |- Reflexive _ => apply _
  | |- Transitive _ => apply _
  | |- ∀ _, _ => intro
  | |- _ => record_step
  end.

Ltac respects_auto := autounfold with models; repeat respects_step.

(** [grows P w w'] when [w'] is [w] with a few events recorded. *)
Ltac grows_now :=
  eexists; split;
  [ cbn; rewrite <- ?app_assoc; reflexivity
  | repeat first [apply Forall_nil_2 | apply Forall_cons_2 | apply Forall_app_2];
    try exact I ].

Ltac run_unfold H :=
  unfold try_catch, rethrow, console_error, emit, db_single, db_select, db_write,
    or_null, or_throw, get_world, throw, mbind, M_bind, mret, M_ret in H.

(** Reading the events of a run off [grows]. *)
Lemma grows_events P w w' evs :
  grows P w w' → trace w' = trace w ++ evs → Forall P evs.
Proof.
  intros (evs' & Ht & HF) Ht'. rewrite Ht in Ht'.
  apply app_inv_head in Ht'. by subst.
Qed.

Lemma Forall_In {A} (P : A → Prop) l x : Forall P l → In x l → P x.
Proof. intros HF Hin. eapply Forall_forall; [exact HF | by apply list_elem_of_In]. Qed.

End Runs.

(* ===================================================================== *)
(** * Properties of the booking route *)
(* ===================================================================== *)

Module BookingFacts.
Import Vocabulary Runs SchedulingRoute.

Section Booking.
Context `{Providers} `{Validator}.

Lemma checkAvailability_runs token startTime endTime w r w' :
  CalendarService.checkAvailability token startTime endTime w = (r, w') →
  (∃ busySlots,
     r = Ret (Nat.eqb (length busySlots) 0)
     ∧ w' = record (FreeBusy token (IsoText startTime) (IsoText endTime)
                      (Some busySlots)) w)
  ∨ (r = Throw (new_Error "Failed to check calendar availability")
     ∧ w' = record (ConsoleError "Google Calendar Availability Error:")
              (record (FreeBusy token (IsoText startTime) (IsoText endTime) None) w)).
Proof.
  intros Hrun. unfold CalendarService.checkAvailability, CalendarService.freebusy in Hrun.
  run_unfold Hrun.
  destruct (freebusy_query _ _ _ _) as [busySlots |]; simplify_eq; eauto.
Qed.

Lemma createMeeting_runs token summary descr startTime endTime tz attendees loc w r w' :
  CalendarService.createMeeting token summary descr startTime endTime tz attendees loc w
  = (r, w') →
  ∃ ev,
    (∃ eventId, r = Ret eventId ∧ w' = record (EventsInsert token ev (Some eventId)) w)
    ∨ (r = Throw (new_Error "Failed to create calendar event")
       ∧ w' = record (ConsoleError "Google Calendar Event Creation Error:")
                (record (EventsInsert token ev None) w)).
Proof.
  intros Hrun.
  unfold CalendarService.createMeeting, CalendarService.insert_event in Hrun.
  run_unfold Hrun. eexists.
  destruct (events_insert _ _ _) as [eventId |]; simplify_eq; eauto.
Qed.


Lemma persistMeeting_footprint P req business lead googleEventId :
  (∀ e, is_db e → P e) →
  respects (grows P) (persistMeeting req business lead googleEventId).
Proof.
  intros HP w r w' Hrun. eapply grows_weaken; [exact HP |].
  assert (respects (grows is_db) (persistMeeting req business lead googleEventId))
    as Hdb by (unfold persistMeeting; respects_auto).
  by eapply Hdb.
Qed.

Lemma bookMeeting_runs req business lead credentials w r w' :
  bookMeeting req business lead credentials w = (r, w') →
  (∃ token busySlots,
     busySlots ≠ []
     ∧ r = Ret (Json 409 "Selected time slot is no longer available" None)
     ∧ w' = record (FreeBusy token (IsoText (startTime req)) (IsoText (endTime req))
                      (Some busySlots)) w)
  ∨ grows not_conflict w w'.
Proof.
  intros Hrun. unfold bookMeeting in Hrun.
  apply bind_inv in Hrun as [(a & w1 & Hremote & Hrest) | (e & Hremote & ->)].
  - unfold createRemoteEvent in Hremote.
    destruct credentials as [credentials |].
    + apply bind_inv in Hremote
        as [(isAvailable & w2 & Hcheck & Hremote) | (e & Hcheck & ?)];
        apply checkAvailability_runs in Hcheck
          as [(busySlots & ? & ->) | [? ->]]; simplify_eq.
      destruct busySlots as [| b busySlots]; cbn in Hremote.
      * right.
        apply bind_inv in Hremote as [(eventId & w3 & Hcreate & Hret) | (e & Hcreate & ?)];
          apply createMeeting_runs in Hcreate as (ev & [(id & ? & ->) | [? ->]]);
          simplify_eq.
        unfold mret, M_ret in Hret. simplify_eq.
        etransitivity; [| by eapply (persistMeeting_footprint not_conflict);
                            [by intros [] | exact Hrest]].
        apply grows_record2; exact I.
      * left. unfold mret, M_ret in Hremote, Hrest. simplify_eq.
        by exists (CalendarIntegration.refresh_token credentials), (b :: busySlots).
    + right. unfold mret, M_ret in Hremote. simplify_eq.
      by eapply (persistMeeting_footprint not_conflict); [by intros [] | exact Hrest].
  - right. unfold createRemoteEvent in Hremote.
    destruct credentials as [credentials |];
      [| by unfold mret, M_ret in Hremote].
    apply bind_inv in Hremote
      as [(isAvailable & w2 & Hcheck & Hremote) | (e' & Hcheck & ?)];
      apply checkAvailability_runs in Hcheck
        as [(busySlots & ? & ->) | [? ->]]; simplify_eq.
    + destruct busySlots as [| b busySlots]; cbn in Hremote;
        [| by unfold mret, M_ret in Hremote].
      apply bind_inv in Hremote as [(eventId & w3 & Hcreate & Hret) | (e' & Hcreate & ?)];
        [by unfold mret, M_ret in Hret |].
      apply createMeeting_runs in Hcreate as (ev & [(id & ? & ->) | [? ->]]);
        simplify_eq.
      grows_now.
    + grows_now.
Qed.


Lemma getLeadById_reads leadId : respects only_reads (LeadModel.getLeadById leadId).
Proof. respects_auto. Qed.

Lemma getBusinessByUserId_reads userId :
  respects only_reads (BusinessModel.getBusinessByUserId userId).
Proof. respects_auto. Qed.

Lemma getCalendarCredentials_reads userId provider :
  respects only_reads (UserModel.getCalendarCredentials userId provider).
Proof. respects_auto. Qed.


Lemma in_middle {A} (x : A) l pre post : l = pre ++ x :: post → In x l.
Proof. intros ->. apply in_elt. Qed.

Lemma second_before {A} (x y d : A) rest pre post :
  x :: y :: rest = pre ++ d :: post → x ≠ d → y ≠ d → In y pre.
Proof.
  intros Heq Hx Hy. destruct pre as [| a [| b pre]]; cbn in Heq.
  - by simplify_eq.
  - by simplify_eq.
  - simplify_eq. right. by left.
Qed.

Lemma not_snoc {A} (l : list A) x : l ≠ l ++ [x].
Proof.
  intros Heq. apply (f_equal length) in Heq. rewrite length_app in Heq. cbn in Heq. lia.
Qed.

(** The handler only reads until it reaches the booking proper. *)
Lemma post_meetings_inv req w res w' :
  post_meetings req w = (res, w') →
  only_reads w w'
  ∨ ∃ business lead credentials w1 r,
      only_reads w w1
      ∧ bookMeeting req business lead credentials w1 = (r, w')
      ∧ res = match r with Ret answer => answer | Throw e => Next e end.
Proof.
  unfold post_meetings. intros Hrun.
  destruct (negb (valid req)).
  { left. unfold mret, M_ret in Hrun. by simplify_eq. }
  match type of Hrun with
  | match ?m w with _ => _ end = _ => destruct (m w) as [r0 w0] eqn:Hh
  end.
  assert (res = match r0 with Ret answer => answer | Throw e => Next e end ∧ w0 = w')
    as [-> ->] by (destruct r0; by simplify_eq).
  clear Hrun.
  apply bind_inv in Hh as [(business & w1 & Hb & Hh) | (e & Hb & ->)];
    apply getBusinessByUserId_reads in Hb; [| by left].
  destruct business as [business |];
    [| left; unfold mret, M_ret in Hh; by simplify_eq].
  apply bind_inv in Hh as [(lead & w2 & Hl & Hh) | (e & Hl & ->)];
    apply getLeadById_reads in Hl;
    [| left; by etransitivity].
  destruct (negb _).
  { left. unfold mret, M_ret in Hh. simplify_eq. by etransitivity. }
  apply bind_inv in Hh as [(credentials & w3 & Hc & Hh) | (e & Hc & ->)];
    apply getCalendarCredentials_reads in Hc;
    [| left; etransitivity; [| exact Hc]; by etransitivity].
  right. exists business, lead, credentials, w3, r0.
  split; [| done]. etransitivity; [| exact Hc]. by etransitivity.
Qed.

End Booking.
End BookingFacts.

Module BookingClaims.
Import Vocabulary Runs SchedulingRoute BookingFacts.

(** C5.  When a run of [POST /api/scheduling/meetings] has the calendar
    provider report a busy interval in its free/busy answer, the request
    is answered 409 (slot conflict), the tables are unchanged, and the
    free/busy query, made for the requested window, is the last thing
    the run does after reads only: no Meeting is inserted. *)
Theorem post_meetings_conflict `{Providers} `{Validator}
    (req : request) (w w' : world) (res : response) (evs : list event)
    (token : string) (timeMin timeMax : time_ref) (busySlots : list Calendar.busy) :
  post_meetings req w = (res, w') →
  trace w' = trace w ++ evs →
  In (FreeBusy token timeMin timeMax (Some busySlots)) evs →
  busySlots ≠ [] →
  res = Json 409 "Selected time slot is no longer available" None
  ∧ db w' = db w
  ∧ ∃ reads,
      evs = reads ++ [FreeBusy token (IsoText (startTime req)) (IsoText (endTime req))
                        (Some busySlots)]
      ∧ Forall is_read reads.
Proof.
  intros Hrun Htr Hin Hbusy.
  apply post_meetings_inv in Hrun
    as [[_ Hreads] | (business & lead & credentials & w1 & r & [Hdb Hreads] & Hbook & ->)].
  { eapply grows_events in Hreads; [| exact Htr].
    by apply (Forall_In _ _ _ Hreads) in Hin. }
  apply bookMeeting_runs in Hbook as [(token' & busy' & Hne & -> & ->) | Hquiet].
  - destruct Hreads as (reads & Htr1 & Hreads). cbn in Htr.
    rewrite Htr1, <- app_assoc in Htr. apply app_inv_head in Htr. subst evs.
    apply in_app_or in Hin as [Hin | [Hin | []]].
    { by apply (Forall_In _ _ _ Hreads) in Hin. }
    simplify_eq. split; [done |]. split; [done |]. by exists reads.
  - assert (grows not_conflict w w') as Hall.
    { etransitivity; [| exact Hquiet].
      eapply grows_weaken; [| exact Hreads]. by intros [| | | | |]. }
    eapply grows_events in Hall; [| exact Htr].
    apply (Forall_In _ _ _ Hall) in Hin. by destruct busySlots.
Qed.

(** C5 at work: the booking of Monday 09:30 when the calendar reports
    09:00-10:00 busy. *)
Lemma post_meetings_conflict_witness :
  fst (@post_meetings (outside (Some busy_morning) (Some "evt-1") None) iso_shape
         monday_booking acme_world)
  = Json 409 "Selected time slot is no longer available" None
  ∧ db (snd (@post_meetings (outside (Some busy_morning) (Some "evt-1") None) iso_shape
               monday_booking acme_world))
    = db acme_world.
Proof.
  destruct (@post_meetings_conflict (outside (Some busy_morning) (Some "evt-1") None)
              iso_shape monday_booking acme_world
              (snd (@post_meetings (outside (Some busy_morning) (Some "evt-1") None) iso_shape
                      monday_booking acme_world))
              (fst (@post_meetings (outside (Some busy_morning) (Some "evt-1") None) iso_shape
                      monday_booking acme_world))
              [Db "businesses" Select None; Db "leads" Select None;
               Db "calendar_integrations" Select None;
               FreeBusy "token" (IsoText "2024-01-01T09:30:00Z")
                 (IsoText "2024-01-01T10:00:00Z") (Some busy_morning)]
              "token" (IsoText "2024-01-01T09:30:00Z")
              (IsoText "2024-01-01T10:00:00Z") busy_morning)
    as (Hres & Hdb & _).
  - apply surjective_pairing.
  - vm_compute. reflexivity.
  - cbn. do 3 right. left. reflexivity.
  - discriminate.
  - split; [exact Hres | exact Hdb].
Defined.



End BookingClaims.

(* ===================================================================== *)
(** * Properties of the conversation service *)
(* ===================================================================== *)

Module ConversationFacts.
Import Vocabulary Runs ConversationService.

Section Conversation.
Context `{Providers} `{JsString}.

Lemma getLeadsByPhone_quiet phone : respects quiet (LeadModel.getLeadsByPhone phone).
Proof. respects_auto. Qed.

Lemma getActiveConversation_quiet leadId :
  respects quiet (ConversationModel.getActiveConversationByLeadId leadId).
Proof. respects_auto. Qed.

Lemma startConversation_quiet leadId businessId :
  respects quiet (ConversationModel.startConversation leadId businessId None).
Proof. respects_auto. Qed.

Lemma getBusinessById_quiet businessId :
  respects quiet (BusinessModel.getBusinessById businessId).
Proof. respects_auto. Qed.

Lemma getAssistantConfig_quiet businessId :
  respects quiet (BusinessModel.getAssistantConfig businessId).
Proof. respects_auto. Qed.

Lemma getRecentMessages_quiet conversationId limit :
  respects quiet (ConversationModel.getRecentMessages conversationId limit).
Proof. respects_auto. Qed.

Lemma addMessage_leads_kept conversationId content isFromLead metadata :
  respects leads_kept
    (ConversationModel.addMessage conversationId content isFromLead metadata).
Proof. respects_auto. Qed.

(** [addMessage] appends the row it was asked to, or leaves [messages] alone
    and throws. *)
Lemma addMessage_runs conversationId content isFromLead metadata w r w' :
  ConversationModel.addMessage conversationId content isFromLead metadata w = (r, w') →
  (∃ row, r = Ret (Some row)
          ∧ messages (db w') = messages (db w) ++ [row]
          ∧ Message.conversation_id row = conversationId
          ∧ Message.content row = content
          ∧ Message.is_from_lead row = isFromLead)
  ∨ (∃ e, r = Throw e ∧ messages (db w') = messages (db w)).
Proof.
  intros Hrun. unfold ConversationModel.addMessage in Hrun. run_unfold Hrun.
  destruct (db_fault (tick w)) as [e |]; simplify_eq; [by eauto |].
  left. destruct (db_fault _); simplify_eq; cbn; eauto 10.
Qed.

Lemma generateConversation_runs businessName industry services tone role_ requiredInfo
    history userMessage w r w' :
  OpenAIService.generateConversation businessName industry services tone role_
    requiredInfo history userMessage w = (r, w') →
  let request := OpenAIService.chat_messages businessName industry services tone role_
                   requiredInfo history userMessage in
  (∃ text, r = Ret text ∧ w' = record (ChatCompletion request (Some text)) w)
  ∨ (r = Throw (new_Error "Failed to generate response from AI")
     ∧ w' = record (ConsoleError "OpenAI API Error:")
              (record (ChatCompletion request None) w)).
Proof.
  intros Hrun.
  unfold OpenAIService.generateConversation, OpenAIService.create_completion in Hrun.
  run_unfold Hrun.
  destruct (chat_completions_create _ _) as [text |]; simplify_eq; eauto.
Qed.

Lemma deliver_no_failed_completion phone channel lead conversation config aiResponse :
  respects (grows not_failed_completion)
    (deliver phone channel lead conversation config aiResponse).
Proof. unfold deliver. respects_auto. Qed.

(** The scan skips what the lead did not write and analyses the rest. *)
Lemma scan_messages_from_lead field rows :
  ∀ qd,
    scan_messages field rows qd
    = foldl (fun qd m => analyse field (toLowerCase (Message.content m)) qd)
        qd (from_lead rows).
Proof.
  unfold scan_messages, from_lead.
  induction rows as [| m rows IH]; intros qd; [done |].
  destruct (Message.is_from_lead m) eqn:Hm.
  - rewrite filter_cons_True by done. cbn [foldl]. rewrite Hm. apply IH.
  - rewrite filter_cons_False by (by rewrite Hm). cbn [foldl]. rewrite Hm. apply IH.
Qed.

Lemma scan_fields_from_lead fields rows :
  scan_fields fields rows = analysis fields (from_lead rows).
Proof.
  unfold scan_fields, analysis. generalize (∅ : gmap string jsval).
  induction fields as [| field fields IH]; intros qd; [done |].
  cbn. rewrite scan_messages_from_lead. apply IH.
Qed.

Lemma quiet_no_failed_completion w w' :
  leads_kept w w' → grows not_failed_completion w w'.
Proof. intros [_ Hg]. eapply grows_weaken; [| exact Hg]. by intros [| | | | |]. Qed.

(** A run of [processIncomingMessage] either gets through without a
    failed completion request, or stops at the failed request with the
    inbound message stored. *)
Lemma processIncomingMessage_runs phone message channel w r w' :
  processIncomingMessage phone message channel w = (r, w') →
  grows not_failed_completion w w'
  ∨ (r = Throw (new_Error
                 "Failed to process incoming message: Failed to generate response from AI")
     ∧ leads (db w') = leads (db w)
     ∧ (∃ inbound, messages (db w') = messages (db w) ++ [inbound]
                   ∧ Message.content inbound = message
                   ∧ Message.is_from_lead inbound = true)
     ∧ ∃ before request,
         trace w' = trace w ++ before ++
                    [ChatCompletion request None;
                     ConsoleError "OpenAI API Error:";
                     ConsoleError "Process Incoming Message Error:"]
         ∧ Forall is_db before).
Proof.
  intros Hrun. unfold processIncomingMessage in Hrun.
  assert (∀ wa wb, leads_kept w wa → wb = record (ConsoleError
            "Process Incoming Message Error:") wa → grows not_failed_completion w wb)
    as Hstop.
  { intros wa wb Hk ->. etransitivity; [by apply quiet_no_failed_completion |].
    by apply grows_record. }
  apply try_catch_inv in Hrun as [(a & Hbody & ->) | (e & w0 & Hbody & Hcatch)].
  - (* the body returned: the completion request succeeded *)
    left.
    apply bind_inv in Hbody as [(found & w1 & H1 & Hbody) | (e & H1 & ?)]; [| done].
    apply getLeadsByPhone_quiet in H1 as [_ K1].
    destruct found as [| lead found]; [done |].
    apply bind_inv in Hbody as [(active & w2 & H2 & Hbody) | (e & H2 & ?)]; [| done].
    apply getActiveConversation_quiet in H2 as [_ K2].
    apply bind_inv in Hbody as [(conversation & w3 & H3 & Hbody) | (e & H3 & ?)]; [| done].
    assert (leads_kept w2 w3) as K3.
    { destruct active; [unfold mret, M_ret in H3; by simplify_eq |].
      by apply startConversation_quiet in H3 as [_ K3]. }
    apply bind_inv in Hbody as [(stored & w4 & H4 & Hbody) | (e & H4 & ?)]; [| done].
    apply addMessage_leads_kept in H4.
    apply bind_inv in Hbody as [(business & w5 & H5 & Hbody) | (e & H5 & ?)]; [| done].
    apply getBusinessById_quiet in H5 as [_ K5].
    apply bind_inv in Hbody as [(config & w6 & H6 & Hbody) | (e & H6 & ?)]; [| done].
    apply getAssistantConfig_quiet in H6 as [_ K6].
    destruct config as [config |]; [| done].
    apply bind_inv in Hbody as [(history & w7 & H7 & Hbody) | (e & H7 & ?)]; [| done].
    apply getRecentMessages_quiet in H7 as [_ K7].
    apply bind_inv in Hbody as [(aiResponse & w8 & H8 & Hbody) | (e & H8 & ?)]; [| done].
    apply generateConversation_runs in H8 as [(text & ? & ->) | [? _]]; [| done].
    apply deliver_no_failed_completion in Hbody.
    etransitivity; [| exact Hbody].
    etransitivity; [| by apply grows_record].
    apply quiet_no_failed_completion.
    etransitivity; [exact K1 |]. etransitivity; [exact K2 |].
    etransitivity; [exact K3 |]. etransitivity; [exact H4 |].
    etransitivity; [exact K5 |]. etransitivity; [exact K6 |]. exact K7.
  - (* the body threw at [w0]; the handler logs and throws again *)
    unfold rethrow, console_error, emit, throw, mbind, M_bind in Hcatch.
    simplify_eq.
    apply bind_inv in Hbody as [(found & w1 & H1 & Hbody) | (e' & H1 & ?)];
      apply getLeadsByPhone_quiet in H1 as [M1 K1]; [| left; by eapply Hstop].
    destruct found as [| lead found];
      [unfold throw in Hbody; simplify_eq; left; by eapply Hstop |].
    apply bind_inv in Hbody as [(active & w2 & H2 & Hbody) | (e' & H2 & ?)];
      apply getActiveConversation_quiet in H2 as [M2 K2];
      [| left; eapply Hstop; [| done]; by etransitivity].
    apply bind_inv in Hbody as [(conversation & w3 & H3 & Hbody) | (e' & H3 & ?)].
    2: { left. eapply Hstop; [| done].
         destruct active; [by unfold mret, M_ret in H3 |].
         apply startConversation_quiet in H3 as [_ K3].
         etransitivity; [| exact K3]. by etransitivity. }
    assert (quiet w2 w3) as [M3 K3].
    { destruct active; [unfold mret, M_ret in H3; by simplify_eq |].
      by apply startConversation_quiet in H3. }
    assert (quiet w w3) as [M03 K03].
    { etransitivity; [by split |]. etransitivity; by split. }
    clear M1 K1 M2 K2 M3 K3.
    apply bind_inv in Hbody as [(stored & w4 & H4 & Hbody) | (e' & H4 & ?)];
      pose proof (addMessage_leads_kept _ _ _ _ _ _ _ H4) as K4;
      [| left; eapply Hstop; [| done]; by etransitivity].
    apply addMessage_runs in H4 as [(inbound & _ & M4 & _ & Hc & Hl) | (? & ? & _)];
      [| done].
    apply bind_inv in Hbody as [(business & w5 & H5 & Hbody) | (e' & H5 & ?)];
      apply getBusinessById_quiet in H5 as [M5 K5];
      [| left; eapply Hstop; [| done]; etransitivity; [| exact K5]; by etransitivity].
    apply bind_inv in Hbody as [(config & w6 & H6 & Hbody) | (e' & H6 & ?)];
      apply getAssistantConfig_quiet in H6 as [M6 K6];
      [| left; eapply Hstop; [| done]; etransitivity; [| exact K6];
         etransitivity; [| exact K5]; by etransitivity].
    assert (leads_kept w w6) as K06.
    { etransitivity; [| exact K6]. etransitivity; [| exact K5]. by etransitivity. }
    assert (messages (db w6) = messages (db w) ++ [inbound]) as M06.
    { unfold keeps in *. congruence. }
    clear M03 K03 K4 M4 M5 K5 M6 K6.
    destruct config as [config |];
      [| unfold throw in Hbody; simplify_eq; left; by eapply Hstop].
    apply bind_inv in Hbody as [(history & w7 & H7 & Hbody) | (e' & H7 & ?)];
      apply getRecentMessages_quiet in H7 as [M7 K7];
      [| left; eapply Hstop; [| done]; by etransitivity].
    apply bind_inv in Hbody as [(aiResponse & w8 & H8 & Hbody) | (e' & H8 & ?)];
      apply generateConversation_runs in H8 as [(text & ? & ->) | [? ->]];
      simplify_eq.
    + (* the reply was generated; what throws comes later *)
      left. apply deliver_no_failed_completion in Hbody.
      etransitivity; [| by apply grows_record].
      etransitivity; [| exact Hbody].
      etransitivity; [| by apply grows_record].
      apply quiet_no_failed_completion. by etransitivity.
    + (* the completion request failed *)
      right. split; [done |].
      assert (leads_kept w w7) as [L07 (before & Htr & Hbefore)] by by etransitivity.
      split; [exact L07 |]. split.
      * exists inbound. cbn. unfold keeps in M7. rewrite M7, M06. done.
      * eexists before, _. split; [| exact Hbefore].
        cbn. rewrite Htr, <- !app_assoc. reflexivity.
Qed.

End Conversation.
End ConversationFacts.

Module ConversationClaims.
Import Vocabulary Runs ConversationService ConversationFacts.

(** A row of [messages] has a property [is_from_lead] and none called
    [isFromLead]. *)
Lemma to_object_isFromLead m : OpenAIService.prop (Message.to_object m) "isFromLead" = None.
Proof. unfold OpenAIService.prop, Message.to_object. by simplify_map_eq. Qed.

Lemma to_object_content m :
  OpenAIService.prop (Message.to_object m) "content" = Some (JStr (Message.content m)).
Proof. unfold OpenAIService.prop, Message.to_object. by simplify_map_eq. Qed.

(** Every stored message is tagged [assistant], whoever wrote it. *)
Lemma formattedHistory_rows rows :
  OpenAIService.formattedHistory (Message.to_object <$> rows)
  = (fun m => {| role := "assistant"; content := Some (JStr (Message.content m)) |})
    <$> rows.
Proof.
  unfold OpenAIService.formattedHistory. rewrite <- list_fmap_compose.
  apply list_fmap_ext. intros i m _. cbn.
  by rewrite to_object_isFromLead, to_object_content.
Qed.

(** C4.  The instruction sequence built for the greeting of the assistant
    followed by a question of the lead: the system prompt, both stored
    messages tagged [assistant], the question of the lead included, then
    the latest text tagged [user]. *)
Theorem chat_messages_tag_lead_as_assistant :
  OpenAIService.chat_messages "Acme" "retail" "shoes" "friendly" "sales assistant"
    "Budget, Timeline" (Message.to_object <$> [greeting; question]) "What do you charge?"
  = [{| role := "system";
        content := Some (JStr (OpenAIService.systemPrompt "Acme" "retail" "shoes"
                                 "friendly" "sales assistant" "Budget, Timeline")) |};
     {| role := "assistant";
        content := Some (JStr "Hi there! How can I help you today?") |};
     {| role := "assistant"; content := Some (JStr "What do you charge?") |};
     {| role := "user"; content := Some (JStr "What do you charge?") |}].
Proof. unfold OpenAIService.chat_messages. by rewrite formattedHistory_rows. Qed.

(** The same tagging end to end: when Ada writes in, her message, already
    stored, reaches the completion provider tagged [assistant] and then
    again as the final [user] instruction. *)
Lemma processIncomingMessage_request_roles :
  omap (fun e => match e with
                 | ChatCompletion request _ => Some (role <$> request)
                 | _ => None
                 end)
    (trace (snd (@processIncomingMessage (outside None None (Some "Hello!"))
                   ascii_strings "+15551230000" "What do you charge?" "whatsapp"
                   acme_world)))
  = [["system"; "assistant"; "user"]].
Proof. vm_compute. reflexivity. Qed.

(** X25 ([extractQualificationData]).  The extraction step never throws,
    and the data it merges is the analysis of the lead-authored messages
    among the first hundred messages of the conversation, oldest first:
    messages of the assistant are skipped and later messages are not
    fetched.  A run either fails to fetch and leaves the tables alone, or
    finds nothing there and leaves the tables alone, or merges that
    analysis. *)
Theorem extractQualificationData_scans `{Providers} `{JsString}
    (leadId conversationId requiredInfo : string) (w w' : world) (r : outcome unit) :
  extractQualificationData leadId conversationId requiredInfo w = (r, w') →
  let data := analysis (requiredFields requiredInfo)
                (from_lead (first_hundred conversationId (db w))) in
  r = Ret tt
  ∧ ((∃ e, db_fault (tick w) = Some e ∧ db w' = db w)
     ∨ (db_fault (tick w) = None ∧ size data = 0%nat ∧ db w' = db w)
     ∨ (db_fault (tick w) = None ∧ size data ≠ 0%nat
        ∧ ∃ r2 w2,
            LeadModel.addLeadQualificationData leadId (JObj data)
              (record (Db "messages" Select None) w) = (r2, w2)
            ∧ db w' = db w2)).
Proof.
  intros Hrun data. unfold extractQualificationData in Hrun.
  assert (∀ wa (ra : outcome unit) wb,
            console_error "Extract Qualification Data Error:" wa = (ra, wb) →
            ra = Ret tt ∧ db wb = db wa) as Hlog.
  { intros wa ra wb Hlog. unfold console_error, emit in Hlog. by simplify_eq. }
  apply try_catch_inv in Hrun as [(a & Hbody & ->) | (e & w0 & Hbody & Hcatch)].
  - destruct a. split; [done |].
    apply bind_inv in Hbody as [(fetched & w1 & Hfetch & Hbody) | (e & Hfetch & ?)];
      [| done].
    unfold ConversationModel.getMessagesByConversationId in Hfetch. run_unfold Hfetch.
    destruct (db_fault (tick w)) as [e |] eqn:Hfault; simplify_eq.
    rewrite scan_fields_from_lead in Hbody. cbn in Hbody.
    rewrite drop_0 in Hbody.
    fold (first_hundred conversationId (db w)) in Hbody. fold data in Hbody.
    destruct (size data) as [| n] eqn:Hsize; cbn in Hbody.
    + right. left. unfold mret, M_ret in Hbody. by simplify_eq.
    + right. right. split; [done |]. split; [done |].
      apply bind_inv in Hbody as [(row & w2 & Hmerge & Hret) | (e & Hmerge & ?)];
        [| done].
      unfold mret, M_ret in Hret. simplify_eq. by exists (Ret row), w'.
  - apply Hlog in Hcatch as [-> Hdb]. split; [done |].
    apply bind_inv in Hbody as [(fetched & w1 & Hfetch & Hbody) | (e' & Hfetch & ?)].
    + unfold ConversationModel.getMessagesByConversationId in Hfetch. run_unfold Hfetch.
      destruct (db_fault (tick w)) as [e' |] eqn:Hfault; simplify_eq.
      rewrite scan_fields_from_lead in Hbody. cbn in Hbody.
      rewrite drop_0 in Hbody.
      fold (first_hundred conversationId (db w)) in Hbody. fold data in Hbody.
      destruct (size data) as [| n] eqn:Hsize; cbn in Hbody;
        [by unfold mret, M_ret in Hbody |].
      right. right. split; [done |]. split; [done |].
      apply bind_inv in Hbody as [(row & w2 & Hmerge & Hret) | (e' & Hmerge & ?)];
        [by unfold mret, M_ret in Hret |].
      eexists _, _. split; [exact Hmerge | exact Hdb].
    + left. unfold ConversationModel.getMessagesByConversationId in Hfetch.
      run_unfold Hfetch.
      destruct (db_fault (tick w)) as [e'' |] eqn:Hfault; simplify_eq.
      exists e''. by rewrite Hdb.
Qed.

(** X25 at work on the short conversation: the budget Ada wrote is
    merged into her row, the figure the assistant named afterwards is
    not. *)
Lemma extractQualificationData_scans_witness :
  fst (@extractQualificationData (outside None None None) ascii_strings
         "lead-1" "conv-1" "Budget, Timeline" short_conversation)
  = Ret tt
  ∧ qualification_map
    <$> leads (db (snd (@extractQualificationData (outside None None None)
                          ascii_strings "lead-1" "conv-1" "Budget, Timeline"
                          short_conversation)))
    = [{[ "budget" := JStr "5000" ]}].
Proof.
  destruct (@extractQualificationData_scans (outside None None None) ascii_strings
              "lead-1" "conv-1" "Budget, Timeline" short_conversation
              (snd (@extractQualificationData (outside None None None) ascii_strings
                      "lead-1" "conv-1" "Budget, Timeline" short_conversation))
              (fst (@extractQualificationData (outside None None None) ascii_strings
                      "lead-1" "conv-1" "Budget, Timeline" short_conversation)))
    as [Hret [(e & Hfault & _) | [(_ & Hsize & _) | (_ & _ & r2 & w2 & Hmerge & Hdb)]]].
  - apply surjective_pairing.
  - discriminate Hfault.
  - vm_compute in Hsize. discriminate Hsize.
  - split; [exact Hret |]. rewrite Hdb.
    apply (f_equal snd) in Hmerge. cbn [snd] in Hmerge. rewrite <- Hmerge.
    vm_compute. reflexivity.
Defined.

(** The long conversation is not scanned to its end: the answer of the
    lead is its 101st message and is not among the messages fetched. *)
Lemma long_conversation_not_scanned :
  ¬ @every_lead_message_scanned (outside None None None) "conv-1" long_conversation.
Proof.
  intros Hall.
  specialize (Hall (reminder <$> seq 0 100)
                (record (Db "messages" Select None) long_conversation)).
  assert (answer ∈ from_lead (reminder <$> seq 0 100)) as Hin.
  { apply Hall; [vm_compute; reflexivity |]. vm_compute. by left. }
  vm_compute in Hin. by apply elem_of_nil in Hin.
Qed.

(** C9.  The extraction does not scan every message of the lead.  On the
    long conversation (a hundred reminders of the assistant, then the
    answer of the lead with her budget) a run asks for the messages once,
    is handed the first hundred, finds nothing to merge and leaves the
    lead as she was, although the analysis of all her messages in the
    conversation yields her budget. *)
Theorem long_conversation_budget_missed :
  @extractQualificationData (outside None None None) ascii_strings
    "lead-1" "conv-1" "Budget, Timeline" long_conversation
  = (Ret tt, record (Db "messages" Select None) long_conversation)
  ∧ leads (db long_conversation) = [ada]
  ∧ @analysis ascii_strings ["budget"; "timeline"]
      (from_lead (ConversationModel.of_conversation "conv-1"
                    (messages (db long_conversation))))
    = {[ "budget" := JStr "5000" ]}.
Proof. repeat split; vm_compute; reflexivity. Qed.

(** C7.  When the completion request of a run of [processIncomingMessage]
    fails, the run throws; the one row it has added to [messages] is the
    inbound message, flagged [is_from_lead]; the leads are untouched;
    before the failed request the run made database calls only, and after
    it nothing but the two [console.error] logs: no outbound message is
    stored, nothing is sent through Twilio, no extraction runs. *)
Theorem processIncomingMessage_generation_failure `{Providers} `{JsString}
    (phone message channel : string) (w w' : world)
    (r : outcome (Lead.t * Conversation.t * string))
    (evs : list event) (request : list chat_message) :
  processIncomingMessage phone message channel w = (r, w') →
  trace w' = trace w ++ evs →
  In (ChatCompletion request None) evs →
  r = Throw (new_Error
               "Failed to process incoming message: Failed to generate response from AI")
  ∧ (∃ inbound, messages (db w') = messages (db w) ++ [inbound]
                ∧ Message.content inbound = message
                ∧ Message.is_from_lead inbound = true)
  ∧ leads (db w') = leads (db w)
  ∧ (∀ body from to error, ¬ In (TwilioCreate body from to error) evs)
  ∧ ∃ before,
      evs = before ++ [ChatCompletion request None;
                       ConsoleError "OpenAI API Error:";
                       ConsoleError "Process Incoming Message Error:"]
      ∧ Forall is_db before.
Proof.
  intros Hrun Htr Hin.
  apply processIncomingMessage_runs in Hrun
    as [Hok | (-> & Hleads & Hinbound & before & request' & Htr' & Hbefore)].
  { eapply grows_events in Hok; [| exact Htr].
    by apply (Forall_In _ _ _ Hok) in Hin. }
  rewrite Htr' in Htr. apply app_inv_head in Htr. subst evs.
  assert (request' = request) as ->.
  { apply in_app_or in Hin as [Hin | [Hin | [Hin | [Hin | []]]]]; try done.
    - by apply (Forall_In _ _ _ Hbefore) in Hin.
    - by simplify_eq. }
  split; [done |]. split; [done |]. split; [done |]. split; [| by exists before].
  intros body from to error Hsent.
  apply in_app_or in Hsent as [Hsent | [Hsent | [Hsent | [Hsent | []]]]]; try done.
  by apply (Forall_In _ _ _ Hbefore) in Hsent.
Qed.

(** C7 at work: the completion provider is down when Ada writes in. *)
Lemma processIncomingMessage_generation_failure_witness :
  ∃ inbound,
    messages (db (snd (@processIncomingMessage (outside None None None) ascii_strings
                         "+15551230000" "My budget is 5,000" "whatsapp" acme_world)))
    = messages (db acme_world) ++ [inbound]
    ∧ Message.content inbound = "My budget is 5,000"
    ∧ Message.is_from_lead inbound = true.
Proof.
  edestruct (@processIncomingMessage_generation_failure (outside None None None)
               ascii_strings "+15551230000" "My budget is 5,000" "whatsapp" acme_world
               (snd (@processIncomingMessage (outside None None None) ascii_strings
                       "+15551230000" "My budget is 5,000" "whatsapp" acme_world))
               (fst (@processIncomingMessage (outside None None None) ascii_strings
                       "+15551230000" "My budget is 5,000" "whatsapp" acme_world)))
    as (_ & Hinbound & _).
  - apply surjective_pairing.
  - vm_compute. reflexivity.
  - cbn. do 8 right. left. reflexivity.
  - exact Hinbound.
Defined.

End ConversationClaims.

(* ===================================================================== *)
(** * Properties of the qualification merge *)
(* ===================================================================== *)

Module LeadFacts.
Import Vocabulary Runs LeadModel.

Lemma own_props_js_or v :
  own_props (js_or v (JObj ∅)) = match v with Some x => own_props x | None => ∅ end.
Proof.
  destruct v as [[| b | n | s | l | m] |]; cbn; try done.
  - by destruct b.
  - by destruct (n =? 0).
  - destruct (String.eqb_spec s ""); by subst.
Qed.

(** The qualification map after the merge: the new fields over the old. *)
Lemma qualification_map_merged info qd at_ l :
  Lead.additional_info l = info →
  qualification_map (with_additional_info (updatedInfo info qd) at_ l)
  = own_props qd ∪ qualification_map l.
Proof.
  intros <-. unfold qualification_map at 1. cbn.
  unfold opt_get at 1. cbn. rewrite lookup_insert_eq.
  cbn. unfold spread2. by rewrite own_props_js_or.
Qed.

Lemma other_info_merged info qd at_ l :
  Lead.additional_info l = info →
  other_info (with_additional_info (updatedInfo info qd) at_ l) = other_info l.
Proof. intros <-. unfold other_info. cbn. by rewrite delete_insert_eq. Qed.

Lemma filter_update_where_id leadId f rows :
  (∀ l, Lead.id (f l) = Lead.id l) →
  filter (fun l => Lead.id l = leadId) (update_where_id leadId f rows)
  = f <$> filter (fun l => Lead.id l = leadId) rows.
Proof.
  intros Hid. unfold update_where_id.
  induction rows as [| l rows IH]; [done |].
  rewrite fmap_cons. destruct (decide (Lead.id l = leadId)) as [Heq | Hne].
  - rewrite !filter_cons_True by (by rewrite ?Hid). by rewrite fmap_cons, IH.
  - by rewrite !filter_cons_False.
Qed.

Lemma Forall2_update_where_id (R : Lead.t → Lead.t → Prop) leadId f rows :
  (∀ l, R l l) → (∀ l, l ∈ rows → Lead.id l = leadId → R l (f l)) →
  Forall2 R rows (update_where_id leadId f rows).
Proof.
  intros Hrefl. unfold update_where_id.
  induction rows as [| l rows IH]; intros Hf; cbn; constructor.
  - destruct (decide (Lead.id l = leadId)); [apply Hf; [by left | done] | done].
  - apply IH. intros l' Hl'. apply Hf. by right.
Qed.

Lemma Forall2_updated (R : Lead.t → Lead.t → Prop) leadId f rows :
  (∀ l, l ∈ rows → Lead.id l = leadId → R l (f l)) →
  Forall2 (fun l l' => Lead.id l = leadId → R l l') rows
    (update_where_id leadId f rows).
Proof.
  unfold update_where_id.
  induction rows as [| l rows IH]; intros Hf; cbn; constructor.
  - destruct (decide (Lead.id l = leadId)); [| done].
    intros _. apply Hf; [by left | done].
  - apply IH. intros l' Hl'. apply Hf. by right.
Qed.

Lemma Forall2_same {A} (R : A → A → Prop) l : (∀ x, R x x) → Forall2 R l l.
Proof. intros Hrefl. induction l; by constructor. Qed.

Section Merge.
Context `{Providers}.

(** A run of the merge fails and leaves the tables alone, or rewrites
    the one lead with that id. *)
Lemma addLeadQualificationData_runs leadId qd w r w' :
  addLeadQualificationData leadId qd w = (r, w') →
  (db w' = db w ∧ ∃ e, r = Throw e)
  ∨ (∃ lead at_,
       filter (fun l => Lead.id l = leadId) (leads (db w)) = [lead]
       ∧ db w' = set_leads
                   (update_where_id leadId
                      (with_additional_info
                         (updatedInfo (Lead.additional_info lead) qd) at_))
                   (db w)
       ∧ Lead.id lead = leadId
       ∧ r = Ret (Some (with_additional_info
                          (updatedInfo (Lead.additional_info lead) qd) at_ lead))).
Proof.
  intros Hrun. unfold addLeadQualificationData, getLeadById in Hrun. run_unfold Hrun.
  destruct (db_fault (tick w)) as [e |]; [simplify_eq; left; eauto |].
  destruct (filter _ (leads (db w))) as [| lead [| lead' rest]] eqn:Hfound;
    [simplify_eq; left; eauto | | simplify_eq; left; eauto].
  cbn in Hrun.
  destruct (db_fault _) as [e |]; [simplify_eq; left; eauto |].
  simplify_eq. right. exists lead. eexists. split; [done |]. cbn. split; [done |].
  assert (lead ∈ filter (λ l, Lead.id l = leadId) (leads (db w))) as Hin
    by (rewrite Hfound; by left).
  apply list_elem_of_filter in Hin as [Hid _]. split; [done |].
  rewrite filter_update_where_id by done. by rewrite Hfound.
Qed.

(** When the database answers both requests and exactly one lead has
    the id, the merge returns a row. *)
Lemma addLeadQualificationData_returns leadId qd w lead :
  db_fault (tick w) = None →
  db_fault (S (tick w)) = None →
  filter (fun l => Lead.id l = leadId) (leads (db w)) = [lead] →
  ∃ row, fst (addLeadQualificationData leadId qd w) = Ret (Some row).
Proof.
  intros Hfirst Hsecond Hfound.
  destruct (addLeadQualificationData leadId qd w) as [r w'] eqn:Hrun.
  unfold addLeadQualificationData, getLeadById in Hrun. run_unfold Hrun.
  rewrite Hfirst, Hfound in Hrun. cbn in Hrun.
  rewrite length_app, Nat.add_1_r in Hrun. unfold tick in Hsecond.
  rewrite Hsecond in Hrun.
  rewrite filter_update_where_id, Hfound in Hrun by done.
  cbn in Hrun. simplify_eq. by eexists.
Qed.

End Merge.
End LeadFacts.

Module LeadClaims.
Import Vocabulary Runs LeadModel LeadFacts.

(** C8.  The merge of qualification data is additive.  Whatever a run of
    [addLeadQualificationData] does, for every lead every field of its
    stored qualification map is still there afterwards; a field found
    afterwards holds the new value when the merged data names it and the
    old value otherwise; and merging data without fields (an empty
    object, or none) leaves the map as it was.  A run either throws and
    leaves the tables alone, or returns the row of the one lead asked
    for, and the stored map of that lead is then the fields of the data,
    with their new values, over the fields it had.  When the database
    answers both requests and exactly one lead has the id, the run does
    return. *)
Theorem addLeadQualificationData_additive `{Providers}
    (leadId : string) (qualificationData : jsval) (w w' : world)
    (r : outcome (option Lead.t)) :
  addLeadQualificationData leadId qualificationData w = (r, w') →
  Forall2
    (fun l l' =>
       dom (qualification_map l) ⊆ dom (qualification_map l')
       ∧ (∀ k, own_props qualificationData !! k = None →
               qualification_map l' !! k = qualification_map l !! k)
       ∧ (∀ k v, qualification_map l' !! k = Some v →
                 own_props qualificationData !! k = Some v
                 ∨ qualification_map l !! k = Some v)
       ∧ (own_props qualificationData = ∅ →
          qualification_map l' = qualification_map l))
    (leads (db w)) (leads (db w'))
  ∧ ((∃ e, r = Throw e ∧ db w' = db w)
     ∨ (∃ lead row,
          r = Ret (Some row)
          ∧ filter (fun l => Lead.id l = leadId) (leads (db w)) = [lead]
          ∧ Lead.id row = leadId
          ∧ row ∈ leads (db w')
          ∧ qualification_map row = own_props qualificationData ∪ qualification_map lead
          ∧ Forall2
              (fun l l' =>
                 Lead.id l = leadId →
                 qualification_map l'
                 = own_props qualificationData ∪ qualification_map l
                 ∧ ∀ k v, own_props qualificationData !! k = Some v →
                          qualification_map l' !! k = Some v)
              (leads (db w)) (leads (db w'))))
  ∧ (∀ lead,
       db_fault (tick w) = None →
       db_fault (S (tick w)) = None →
       filter (fun l => Lead.id l = leadId) (leads (db w)) = [lead] →
       ∃ row, r = Ret (Some row)).
Proof.
  intros Hrun.
  pose proof (addLeadQualificationData_returns leadId qualificationData w) as Hreturns.
  rewrite Hrun in Hreturns. cbn [fst] in Hreturns.
  apply addLeadQualificationData_runs in Hrun
    as [(-> & e & ->) | (lead & at_ & Hfound & -> & Hid & ->)].
  { split; [| split].
    - apply Forall2_same. intros l. repeat split; auto.
    - left. by exists e.
    - intros lead Hfirst Hsecond Hfound.
      destruct (Hreturns lead Hfirst Hsecond Hfound) as [row Hrow]. by exists row. }
  assert (∀ l, l ∈ leads (db w) → Lead.id l = leadId → l = lead) as Honly.
  { intros l Hl Hidl.
    assert (l ∈ filter (λ l, Lead.id l = leadId) (leads (db w))) as Hin
      by by apply list_elem_of_filter.
    rewrite Hfound in Hin. by apply list_elem_of_singleton in Hin. }
  assert (lead ∈ leads (db w)) as Hlead.
  { assert (lead ∈ filter (λ l, Lead.id l = leadId) (leads (db w))) as Hin
      by (rewrite Hfound; by left).
    by apply list_elem_of_filter in Hin as [_ Hin]. }
  split; [| split].
  - cbn. apply Forall2_update_where_id.
    { intros l. repeat split; auto. }
    intros l Hl Hidl. rewrite (Honly l Hl Hidl).
    rewrite qualification_map_merged by done.
    split; [rewrite dom_union; set_solver |].
    split; [intros k Hk; by rewrite lookup_union_r |].
    split.
    + intros k v Hk. apply lookup_union_Some_raw in Hk as [Hk | [_ Hk]]; auto.
    + intros ->. by rewrite (left_id ∅ (∪)).
  - right. eexists lead, _. split; [done |]. split; [done |]. split; [done |].
    split; [| split].
    + cbn. unfold update_where_id. apply list_elem_of_fmap. exists lead.
      split; [| done]. by rewrite decide_True.
    + by rewrite qualification_map_merged.
    + cbn. apply Forall2_updated. intros l Hl Hidl.
      rewrite (Honly l Hl Hidl). rewrite qualification_map_merged by done.
      split; [done |]. intros k v Hk. by apply lookup_union_Some_l.
  - intros lead' _ _ _. by eexists.
Qed.

(** C8 at work: a budget and a timeline merged into a lead that has a
    budget and a region.  The run returns her row; the budget is the new
    one, the timeline is added and the region is kept. *)
Lemma addLeadQualificationData_additive_witness :
  ∃ row,
    fst (@addLeadQualificationData (outside None None None) "lead-2"
           (JObj {[ "budget" := JStr "5000"; "timeline" := JStr "weeks" ]}) two_leads)
    = Ret (Some row)
    ∧ qualification_map row !! "budget" = Some (JStr "5000")
    ∧ qualification_map row !! "timeline" = Some (JStr "weeks")
    ∧ qualification_map row !! "region" = Some (JStr "EU").
Proof.
  destruct (@addLeadQualificationData_additive (outside None None None) "lead-2"
              (JObj {[ "budget" := JStr "5000"; "timeline" := JStr "weeks" ]})
              two_leads
              (snd (@addLeadQualificationData (outside None None None) "lead-2"
                      (JObj {[ "budget" := JStr "5000"; "timeline" := JStr "weeks" ]})
                      two_leads))
              (fst (@addLeadQualificationData (outside None None None) "lead-2"
                      (JObj {[ "budget" := JStr "5000"; "timeline" := JStr "weeks" ]})
                      two_leads)))
    as (_ & [(e & Hthrow & _) | (lead & row & Hrow & Hfound & _ & _ & Hmap & _)]
        & Hreturns).
  - apply surjective_pairing.
  - destruct (Hreturns grace) as [row Hrow]; [reflexivity | reflexivity | |].
    + vm_compute. reflexivity.
    + rewrite Hthrow in Hrow. discriminate Hrow.
  - exists row. split; [exact Hrow |].
    assert (lead = grace) as -> by (vm_compute in Hfound; by injection Hfound as <-).
    rewrite Hmap. repeat split; vm_compute; reflexivity.
Defined.

(** C10.  Frame of the merge.  Whatever a run of
    [addLeadQualificationData] does, the tables other than [leads] are as
    before, and every lead keeps its id, business, name, phone, email,
    source, channel, status and creation date, and every entry of its
    [additional_info] other than [qualification_data]. *)
Theorem addLeadQualificationData_frame `{Providers}
    (leadId : string) (qualificationData : jsval) (w w' : world)
    (r : outcome (option Lead.t)) :
  addLeadQualificationData leadId qualificationData w = (r, w') →
  other_tables (db w') = other_tables (db w)
  ∧ Forall2 (fun l l' => identity l' = identity l ∧ other_info l' = other_info l)
      (leads (db w)) (leads (db w')).
Proof.
  intros Hrun.
  apply addLeadQualificationData_runs in Hrun
    as [(-> & e & ->) | (lead & at_ & Hfound & -> & Hid & ->)].
  { split; [done |]. by apply Forall2_same. }
  split; [done |]. cbn. apply Forall2_update_where_id; [done |].
  intros l Hl Hidl.
  assert (l ∈ filter (λ l, Lead.id l = leadId) (leads (db w))) as Hin
    by by apply list_elem_of_filter.
  rewrite Hfound in Hin. apply list_elem_of_singleton in Hin as ->.
  split; [done |]. by apply other_info_merged.
Qed.

(** C10 at work on the same merge. *)
Lemma addLeadQualificationData_frame_witness :
  Forall2 (fun l l' => identity l' = identity l ∧ other_info l' = other_info l)
    [ada; grace]
    (leads (db (snd (@addLeadQualificationData (outside None None None) "lead-2"
                       (JObj {[ "budget" := JStr "5000"; "timeline" := JStr "weeks" ]})
                       two_leads)))).
Proof.
  destruct (@addLeadQualificationData_frame (outside None None None) "lead-2"
              (JObj {[ "budget" := JStr "5000"; "timeline" := JStr "weeks" ]})
              two_leads
              (snd (@addLeadQualificationData (outside None None None) "lead-2"
                      (JObj {[ "budget" := JStr "5000"; "timeline" := JStr "weeks" ]})
                      two_leads))
              (fst (@addLeadQualificationData (outside None None None) "lead-2"
                      (JObj {[ "budget" := JStr "5000"; "timeline" := JStr "weeks" ]})
                      two_leads)))
    as [_ Hall].
  - apply surjective_pairing.
  - exact Hall.
Defined.

End LeadClaims.

(* ===================================================================== *)
(** * More on the slot calculator *)
(* ===================================================================== *)

Module SlotShapeFacts.
Import Calendar Vocabulary SlotShape CalendarFacts.

Lemma candidates_nil dayStart dayEnd step :
  0 < step → dayEnd < dayStart + step → candidates dayStart dayEnd step = [].
Proof.
  intros Hstep Hclosed. unfold candidates.
  rewrite seqZ_nil; [done |].
  assert ((dayEnd - dayStart) / step < 1); [| lia].
  apply Z.div_lt_upper_bound; lia.
Qed.

Lemma candidates_cons dayStart dayEnd step :
  0 < step → dayStart + step ≤ dayEnd →
  candidates dayStart dayEnd step
  = {| slot_start := dayStart + step; slot_end := time_clip (dayStart + step + step) |}
    :: candidates (dayStart + step) dayEnd step.
Proof.
  intros Hstep Hopen. unfold candidates.
  assert ((dayEnd - dayStart) / step = 1 + (dayEnd - (dayStart + step)) / step) as ->.
  { replace (dayEnd - dayStart) with (1 * step + (dayEnd - (dayStart + step))) by lia.
    by rewrite Z.div_add_l by lia. }
  assert (0 ≤ (dayEnd - (dayStart + step)) / step) by (apply Z.div_pos; lia).
  rewrite seqZ_cons by lia. rewrite fmap_cons. f_equal.
  - f_equal; [lia | f_equal; lia].
  - replace (Z.succ 1) with (1 + 1) by lia.
    replace (Z.pred (1 + (dayEnd - (dayStart + step)) / step))
      with ((dayEnd - (dayStart + step)) / step) by lia.
    rewrite <- (fmap_add_seqZ 1 1). rewrite <- list_fmap_compose.
    apply list_fmap_ext. intros i k _. cbn. f_equal; [lia | f_equal; lia].
Qed.

(** X1.  The slots the inner loop adds for a window whose opening and
    closing time are instants a date can hold, with a positive duration:
    the candidates that start at [dayStart + k * step], for
    [k = 1 .. (dayEnd - dayStart) / step], and end one step later, in
    that order, without those that conflict with a busy interval. *)
Theorem slot_loop_closed_form (fuel : nat) (durationMinutes : Z)
    (busySlots : list busy) (dayEnd dayStart : Z) (acc result : list slot) :
  0 < durationMinutes →
  - max_instant ≤ dayStart →
  dayEnd ≤ max_instant →
  slot_loop fuel durationMinutes busySlots dayEnd dayStart acc = Some result →
  result = acc ++ filter (free busySlots)
                    (candidates dayStart dayEnd (durationMinutes * ms_per_minute)).
Proof.
  intros Hdur Hlow Hhigh.
  revert dayStart Hlow acc result.
  induction fuel as [| fuel IH]; intros dayStart Hlow acc result Hrun; [done |].
  rewrite slot_loop_step in Hrun. cbn zeta in Hrun.
  assert (0 < durationMinutes * ms_per_minute) as Hstep
    by (unfold ms_per_minute; lia).
  destruct (decide _) as [[Hrange Hle] | Hstop].
  - rewrite candidates_cons by lia.
    apply IH in Hrun as ->; [| lia].
    destruct (existsb _ busySlots) eqn:Hfree.
    + rewrite filter_cons_False; [done |]. unfold free. cbn. by rewrite Hfree.
    + rewrite filter_cons_True by done. by rewrite <- app_assoc.
  - simplify_eq. rewrite candidates_nil by lia. by rewrite filter_nil, app_nil_r.
Qed.

(** X1 at work: the Monday window 09:00-10:00 with 09:30-10:00 busy. *)
Lemma slot_loop_closed_form_witness :
  slot_loop 5 30 [{| busy_start := at_clock monday 9 30;
                     busy_end := at_clock monday 10 0 |}]
    (at_clock monday 10 0) (at_clock monday 9 0) []
  = Some ([] ++ filter (free [{| busy_start := at_clock monday 9 30;
                                 busy_end := at_clock monday 10 0 |}])
                  (candidates (at_clock monday 9 0) (at_clock monday 10 0)
                     (30 * ms_per_minute))).
Proof.
  destruct (slot_loop 5 30 [{| busy_start := at_clock monday 9 30;
                               busy_end := at_clock monday 10 0 |}]
              (at_clock monday 10 0) (at_clock monday 9 0) []) as [result |] eqn:Hrun;
    [| by vm_compute in Hrun].
  f_equal.
  apply (slot_loop_closed_form 5 30 _ _ _ [] result);
    [lia | vm_compute; discriminate | vm_compute; discriminate | exact Hrun].
Defined.

(** X2.  With a positive duration, the slots the inner loop adds for a
    window come in order and do not overlap one another: each ends no
    later than the next one starts. *)
Theorem slot_loop_slots_in_order (fuel : nat) (durationMinutes : Z)
    (busySlots : list busy) (dayEnd dayStart : Z) (result : list slot) :
  0 < durationMinutes →
  slot_loop fuel durationMinutes busySlots dayEnd dayStart [] = Some result →
  StronglySorted precedes result.
Proof.
  intros Hdur. revert dayStart result.
  assert (∀ fuel dayStart acc result,
            slot_loop fuel durationMinutes busySlots dayEnd dayStart acc = Some result →
            ∃ new, result = acc ++ new ∧ StronglySorted precedes new
                   ∧ Forall (fun s => dayStart + durationMinutes * ms_per_minute
                                      ≤ slot_start s
                                      ∧ slot_start s ≤ max_instant) new) as Hgen.
  { clear fuel. induction fuel as [| fuel IH]; intros dayStart acc result Hrun; [done |].
    rewrite slot_loop_step in Hrun. cbn zeta in Hrun.
    destruct (decide _) as [[Hrange Hle] | Hstop];
      [| simplify_eq; exists []; rewrite app_nil_r; by repeat constructor].
    apply IH in Hrun as (new & -> & Hsorted & Hlater).
    assert (Forall (λ s, dayStart + durationMinutes * ms_per_minute ≤ slot_start s
                         ∧ slot_start s ≤ max_instant) new)
      as Hlater'.
    { eapply Forall_impl; [exact Hlater |]. cbn. unfold ms_per_minute. intros s. lia. }
    destruct (existsb _ busySlots); [by exists new |].
    eexists (_ :: new). split; [by rewrite <- app_assoc |]. split.
    - constructor; [done |]. eapply Forall_impl; [exact Hlater |].
      intros s [Hlo Hhi]. eexists. split; [| exact Hlo].
      cbn. apply time_clip_in_range. unfold ms_per_minute in *. lia.
    - constructor; [cbn; lia | done]. }
  intros dayStart result Hrun.
  apply Hgen in Hrun as (new & -> & Hsorted & _). done.
Qed.

Lemma slot_loop_slots_in_order_witness :
  StronglySorted precedes
    [{| slot_start := at_clock monday 9 30; slot_end := Some (at_clock monday 10 0) |};
     {| slot_start := at_clock monday 10 0;
        slot_end := Some (at_clock monday 10 30) |}].
Proof.
  apply (slot_loop_slots_in_order 5 30 [] (at_clock monday 10 0) (at_clock monday 9 0));
    [lia | reflexivity].
Defined.

Lemma days_loop_in_window `{MomentTz} fuel startDate endDate tz dur hours busySlots :
  0 ≤ dur →
  ∀ days acc result,
    Forall (fun d => startDate ≤ d ≤ endDate) days →
    Forall (in_window startDate endDate tz dur hours) acc →
    days_loop fuel tz dur hours busySlots days acc = Some result →
    Forall (in_window startDate endDate tz dur hours) result.
Proof.
  intros Hdur.
  induction days as [| d days IH]; intros acc result Hdays Hacc Hrun; cbn in Hrun.
  - by simplify_eq.
  - apply Forall_cons in Hdays as [Hd Hdays].
    destruct (day_slots fuel tz dur hours busySlots d acc) as [acc' |] eqn:Hday;
      [| done].
    eapply IH; [done | | exact Hrun].
    unfold day_slots in Hday.
    destruct (find _ hours) as [h |] eqn:Hfind; [| by simplify_eq].
    destruct (tz_parse tz d (start h)) as [dayStart |] eqn:Hstart; [| by simplify_eq].
    destruct (tz_parse tz d (end_ h)) as [dayEnd |] eqn:Hend; [| by simplify_eq].
    apply slot_loop_starts in Hday as (new & -> & Hnew); [| done].
    apply Forall_app. split; [done |].
    eapply Forall_impl; [exact Hnew |]. intros s [Hlo Hhi].
    by exists d, h, dayStart, dayEnd.
Qed.

(** X3.  With a positive duration, every slot [suggestTimeSlots] returns
    belongs to a day of the requested range whose weekday has business
    hours: it starts between one duration after the opening time and the
    closing time of the first entry for that weekday.  Days without an
    entry, and entries after the first one for a weekday, give no slot. *)
Theorem suggestTimeSlots_slots_in_window `{Providers} `{MomentTz}
    (fuel : nat) (refreshToken : string) (startDate endDate : Z) (timezone : string)
    (durationMinutes : Z) (businessHours : list hours) (w w' : world)
    (slots : list slot) :
  0 < durationMinutes →
  CalendarService.suggestTimeSlots fuel refreshToken startDate endDate timezone
    durationMinutes businessHours w = Some (Ret slots, w') →
  Forall (in_window startDate endDate timezone durationMinutes businessHours) slots.
Proof.
  intros Hdur Hrun.
  unfold CalendarService.suggestTimeSlots, CalendarService.freebusy in Hrun.
  destruct (freebusy_query _ _ _ _) as [busySlots |]; [| done].
  destruct (days_loop _ _ _ _ _ _ _) as [result |] eqn:Hloop; [| done].
  simplify_eq.
  eapply days_loop_in_window; [| | | exact Hloop]; [lia | | done].
  apply Forall_forall. intros d Hd. unfold days_between in Hd.
  apply elem_of_seqZ in Hd. lia.
Qed.

Lemma suggestTimeSlots_slots_in_window_witness :
  Forall (@in_window utc monday (monday + 6) "UTC" 30 monday_9_to_10)
    [{| slot_start := at_clock monday 9 30; slot_end := Some (at_clock monday 10 0) |};
     {| slot_start := at_clock monday 10 0;
        slot_end := Some (at_clock monday 10 30) |}].
Proof.
  eapply (@suggestTimeSlots_slots_in_window (outside (Some []) None None) utc
            10 "token" monday (monday + 6) "UTC" 30 monday_9_to_10 empty_world);
    [lia |].
  vm_compute. reflexivity.
Defined.

(** A range in which no day has business hours gives no slot at all. *)
Lemma suggestTimeSlots_closed_days `{Providers} `{MomentTz}
    fuel refreshToken startDate endDate timezone durationMinutes businessHours w w' slots :
  (∀ d, startDate ≤ d ≤ endDate →
        find (fun h => String.eqb (day h) (weekday_name d)) businessHours = None) →
  CalendarService.suggestTimeSlots fuel refreshToken startDate endDate timezone
    durationMinutes businessHours w = Some (Ret slots, w') →
  slots = [].
Proof.
  intros Hclosed Hrun.
  unfold CalendarService.suggestTimeSlots, CalendarService.freebusy in Hrun.
  destruct (freebusy_query _ _ _ _) as [busySlots |]; [| done].
  destruct (days_loop _ _ _ _ _ _ _) as [result |] eqn:Hloop; [| done].
  simplify_eq.
  assert (∀ days acc result,
            Forall (fun d => startDate ≤ d ≤ endDate) days →
            days_loop fuel timezone durationMinutes businessHours busySlots days acc
            = Some result → result = acc) as Hgen.
  { induction days as [| d days IH]; intros acc result Hdays Hr; cbn in Hr;
      [by simplify_eq |].
    apply Forall_cons in Hdays as [Hd Hdays].
    unfold day_slots in Hr. rewrite (Hclosed d Hd) in Hr. by apply IH. }
  eapply Hgen; [| exact Hloop].
  apply Forall_forall. intros d Hd. unfold days_between in Hd.
  apply elem_of_seqZ in Hd. lia.
Qed.

(** With a duration of zero the inner loop never leaves a day it has
    entered. *)
Lemma days_loop_zero_duration `{MomentTz} fuel timezone businessHours busySlots
    d h dayStart dayEnd :
  find (fun h => String.eqb (day h) (weekday_name d)) businessHours = Some h →
  tz_parse timezone d (start h) = Some dayStart →
  tz_parse timezone d (end_ h) = Some dayEnd →
  - max_instant ≤ dayStart ≤ max_instant →
  dayStart ≤ dayEnd →
  ∀ days acc, d ∈ days →
    days_loop fuel timezone 0 businessHours busySlots days acc = None.
Proof.
  intros Hfind Hstart Hend Hrange Hopen.
  induction days as [| current days IH]; intros acc Hd; [by apply elem_of_nil in Hd |].
  cbn [days_loop].
  destruct (decide (current = d)) as [-> | Hother].
  - unfold day_slots. rewrite Hfind, Hstart, Hend.
    rewrite slot_loop_diverges by done. done.
  - destruct (day_slots _ _ _ _ _ _ _); [| done].
    apply IH. apply elem_of_cons in Hd as [-> | Hd]; done.
Qed.

(** X9.  With [durationMinutes = 0], a calendar that answers, and a day of
    the range that has business hours whose opening time, an instant a
    date can hold, is not after the closing time, [suggestTimeSlots] never
    returns: the inner loop adds nothing to [slotStart], so its condition
    stays true, whatever the fuel. *)
Theorem suggestTimeSlots_zero_duration `{Providers} `{MomentTz}
    (fuel : nat) (refreshToken : string) (startDate endDate : Z) (timezone : string)
    (businessHours : list hours) (w : world) (busySlots : list busy)
    (d : Z) (h : hours) (dayStart dayEnd : Z) :
  freebusy_query (tick w) refreshToken
    (Instant (tz_startOf_day timezone startDate))
    (Instant (tz_endOf_day timezone endDate)) = Some busySlots →
  startDate ≤ d ≤ endDate →
  find (fun h => String.eqb (day h) (weekday_name d)) businessHours = Some h →
  tz_parse timezone d (start h) = Some dayStart →
  tz_parse timezone d (end_ h) = Some dayEnd →
  - max_instant ≤ dayStart ≤ max_instant →
  dayStart ≤ dayEnd →
  CalendarService.suggestTimeSlots fuel refreshToken startDate endDate timezone
    0 businessHours w = None.
Proof.
  intros Hbusy Hd Hfind Hstart Hend Hrange Hopen.
  unfold CalendarService.suggestTimeSlots, CalendarService.freebusy.
  rewrite Hbusy.
  rewrite (days_loop_zero_duration fuel timezone businessHours busySlots
             d h dayStart dayEnd Hfind Hstart Hend Hrange Hopen); [done |].
  unfold days_between. apply elem_of_seqZ. lia.
Qed.

(** X9 at work: Monday 09:00-10:00, a thousand rounds of fuel. *)
Lemma suggestTimeSlots_zero_duration_witness :
  @CalendarService.suggestTimeSlots (outside (Some []) None None) utc
    1000 "token" monday (monday + 6) "UTC" 0 monday_9_to_10 empty_world = None.
Proof.
  eapply (@suggestTimeSlots_zero_duration (outside (Some []) None None) utc
            1000 "token" monday (monday + 6) "UTC" monday_9_to_10 empty_world []
            monday).
  - reflexivity.
  - unfold monday. lia.
  - vm_compute. reflexivity.
  - vm_compute. reflexivity.
  - vm_compute. reflexivity.
  - vm_compute. split; discriminate.
  - vm_compute. discriminate.
Defined.

End SlotShapeFacts.

(* ===================================================================== *)
(** * The conversation pipeline, step by step *)
(* ===================================================================== *)

Module PipelineFacts.
Import Vocabulary PipelineVocabulary Runs ConversationService ConversationFacts.

Section Pipeline.
Context `{Providers} `{JsString}.

(** What a run of [sendMessage] does, by channel. *)
Lemma sendMessage_inv (to message channel : string) (w w' : world) (r : outcome unit) :
  TwilioService.sendMessage to message channel w = (r, w') →
  db w' = db w
  ∧ match addresses to channel with
    | None => w' = w ∧ r = Throw (new_Error ("Unsupported channel: " +:+ channel))
    | Some (from, to') =>
        (trace w' = trace w ++ [TwilioCreate message from to' None] ∧ r = Ret tt)
        ∨ ∃ e, trace w' = trace w ++ [TwilioCreate message from to' (Some e);
                                       ConsoleError (fst (send_failure channel))]
               ∧ r = Throw (new_Error (snd (send_failure channel) +:+ ": "
                                       +:+ err_message e))
    end.
Proof.
  intros Hrun. unfold TwilioService.sendMessage in Hrun.
  unfold addresses, send_failure.
  destruct (String.eqb (toLowerCase channel) "whatsapp");
    [| destruct (String.eqb (toLowerCase channel) "sms")].
  - unfold TwilioService.sendWhatsAppMessage, TwilioService.messages_create in Hrun.
    run_unfold Hrun.
    destruct (twilio_messages_create _ _ _ _) as [e |]; simplify_eq; cbn.
    + split; [done |]. right. exists e. by rewrite <- app_assoc.
    + split; [done |]. by left.
  - unfold TwilioService.sendSMS, TwilioService.messages_create in Hrun.
    run_unfold Hrun.
    destruct (twilio_messages_create _ _ _ _) as [e |]; simplify_eq; cbn.
    + split; [done |]. right. exists e. by rewrite <- app_assoc.
    + split; [done |]. by left.
  - unfold throw in Hrun. by simplify_eq.
Qed.


(** [extractQualificationData] never throws. *)
Lemma extract_returns leadId conversationId requiredInfo w r w' :
  extractQualificationData leadId conversationId requiredInfo w = (r, w') → r = Ret tt.
Proof.
  intros Hrun. unfold extractQualificationData in Hrun.
  apply try_catch_inv in Hrun as [([] & _ & ->) | (e & w0 & _ & Hlog)]; [done |].
  unfold console_error, emit in Hlog. by simplify_eq.
Qed.

Lemma extract_keeps_messages leadId conversationId requiredInfo :
  respects (both (keeps messages) (grows is_db))
    (extractQualificationData leadId conversationId requiredInfo).
Proof. respects_auto. Qed.

(** [deliver]: every outcome, with what it stored and sent. *)
Lemma deliver_inv phone channel lead conversation config text w r w' :
  deliver phone channel lead conversation config text w = (r, w') →
  (* the reply could not be stored: nothing sent *)
  (grows is_db w w' ∧ messages (db w') = messages (db w) ∧ ∃ e, r = Throw e)
  ∨ ∃ outbound,
      messages (db w') = messages (db w) ++ [outbound]
      ∧ Message.conversation_id outbound = Conversation.id conversation
      ∧ Message.content outbound = text
      ∧ Message.is_from_lead outbound = false
      ∧ match addresses phone channel with
        | None =>
            grows is_db w w'
            ∧ r = Throw (new_Error ("Unsupported channel: " +:+ channel))
        | Some (from, to) =>
            ∃ before error after,
              trace w' = trace w ++ before ++ [TwilioCreate text from to error] ++ after
              ∧ Forall is_db before ∧ Forall is_db after
              ∧ match error with
                | None => r = Ret (lead, conversation, text)
                | Some e =>
                    r = Throw (new_Error (snd (send_failure channel) +:+ ": "
                                          +:+ err_message e))
                end
        end.
Proof.
  intros Hrun. unfold deliver in Hrun.
  apply bind_inv in Hrun as [(stored & w1 & Hadd & Hrun) | (e & Hadd & ->)];
    pose proof (addMessage_leads_kept _ _ _ _ _ _ _ Hadd) as [_ Hgrow1];
    apply addMessage_runs in Hadd
      as [(outbound & ? & Hmsg & Hconv & Hcontent & Hflag) | (e' & ? & Hmsg)];
    simplify_eq.
  2: { left. eauto. }
  right. exists outbound.
  apply bind_inv in Hrun as [([] & w2 & Hsend & Hrun) | (e & Hsend & ->)];
    apply sendMessage_inv in Hsend as [Hdb2 Hsend].
  - (* sent; the extraction follows *)
    apply bind_inv in Hrun as [([] & w3 & Hextract & Hret) | (e & Hextract & ->)];
      [| by apply extract_returns in Hextract].
    unfold mret, M_ret in Hret. simplify_eq.
    apply extract_keeps_messages in Hextract as [Hkeep (after & Htr3 & Hafter)].
    unfold keeps in Hkeep. rewrite Hkeep, Hdb2.
    split; [done |]. split; [done |]. split; [done |]. split; [done |].
    destruct (addresses phone channel) as [[from to] |]; [| by destruct Hsend].
    destruct Hsend as [[Htr2 _] | (e & _ & ?)]; [| done].
    destruct Hgrow1 as (before & Htr1 & Hbefore).
    exists before, None, after. split; [| done].
    by rewrite Htr3, Htr2, Htr1, <- !app_assoc.
  - rewrite Hdb2.
    split; [done |]. split; [done |]. split; [done |]. split; [done |].
    destruct (addresses phone channel) as [[from to] |].
    + destruct Hsend as [[_ ?] | (e' & Htr2 & Hr)]; [done |].
      destruct Hgrow1 as (before & Htr1 & Hbefore).
      exists before, (Some e'), [ConsoleError (fst (send_failure channel))].
      split; [by rewrite Htr2, Htr1, <- !app_assoc |].
      split; [done |]. split; [apply Forall_singleton; exact I | by simplify_eq].
    + destruct Hsend as [-> Hr]. split; [done | by simplify_eq].
Qed.

(** ** The steps before the reply *)

Lemma leads_kept_no_reply w w' : leads_kept w w' → grows no_reply w w'.
Proof. intros [_ Hg]. eapply grows_weaken; [| exact Hg]. by intros [| | | | |]. Qed.

Lemma getLeadsByPhone_runs phone w r w' :
  LeadModel.getLeadsByPhone phone w = (r, w') →
  db w' = db w
  ∧ ∀ found, r = Ret found →
      found = filter (fun l => Lead.phone l = Some phone) (leads (db w)).
Proof.
  intros Hrun. unfold LeadModel.getLeadsByPhone in Hrun. run_unfold Hrun.
  destruct (db_fault (tick w)); simplify_eq; cbn; split; try done.
  intros found ?. by simplify_eq.
Qed.

Lemma getActiveConversation_runs leadId w c w' :
  ConversationModel.getActiveConversationByLeadId leadId w = (Ret (Some c), w') →
  c ∈ conversations (db w)
  ∧ Conversation.lead_id c = leadId ∧ Conversation.status c = "active".
Proof.
  intros Hrun. unfold ConversationModel.getActiveConversationByLeadId in Hrun.
  run_unfold Hrun.
  destruct (db_fault (tick w)) as [e |].
  { cbn in Hrun. destruct (is_pgrst116 e); by simplify_eq. }
  match type of Hrun with context [take 1 ?l] => destruct (take 1 l) as [| c' [| ? ?]] eqn:Htake end;
    cbn in Hrun; simplify_eq.
  assert (c ∈ take 1 (ConversationModel.newest_conversation_first
            (filter (fun c => Conversation.lead_id c = leadId
                              ∧ Conversation.status c = "active")
                    (conversations (db w))))) as Hin
    by (rewrite Htake; apply list_elem_of_singleton; done).
  apply elem_of_take in Hin as (i & Hin & _).
  apply list_elem_of_lookup_2 in Hin.
  unfold ConversationModel.newest_conversation_first in Hin.
  rewrite merge_sort_Permutation in Hin.
  by apply list_elem_of_filter in Hin as [[? ?] ?].
Qed.

Lemma startConversation_runs leadId businessId w c w' :
  ConversationModel.startConversation leadId businessId None w = (Ret c, w') →
  Conversation.lead_id c = leadId ∧ Conversation.business_id c = businessId
  ∧ Conversation.status c = "active"
  ∧ conversations (db w') = conversations (db w) ++ [c].
Proof.
  intros Hrun. unfold ConversationModel.startConversation in Hrun. run_unfold Hrun.
  destruct (db_fault (tick w)); cbn in Hrun; by simplify_eq.
Qed.

Lemma getLeadsByPhone_configs phone :
  respects (keeps assistant_configs) (LeadModel.getLeadsByPhone phone).
Proof. respects_auto. Qed.

Lemma getActiveConversation_configs leadId :
  respects (keeps assistant_configs)
    (ConversationModel.getActiveConversationByLeadId leadId).
Proof. respects_auto. Qed.

Lemma startConversation_configs leadId businessId :
  respects (keeps assistant_configs)
    (ConversationModel.startConversation leadId businessId None).
Proof. respects_auto. Qed.

Lemma addMessage_configs conversationId content isFromLead metadata :
  respects (keeps assistant_configs)
    (ConversationModel.addMessage conversationId content isFromLead metadata).
Proof. respects_auto. Qed.

Lemma getBusinessById_configs businessId :
  respects (keeps assistant_configs) (BusinessModel.getBusinessById businessId).
Proof. respects_auto. Qed.

Lemma getAssistantConfig_found businessId w config w' :
  BusinessModel.getAssistantConfig businessId w = (Ret (Some config), w') →
  filter (fun c => AssistantConfig.business_id c = businessId)
    (assistant_configs (db w)) = [config].
Proof.
  intros Hrun. unfold BusinessModel.getAssistantConfig in Hrun. run_unfold Hrun.
  destruct (db_fault (tick w)) as [e |].
  { cbn in Hrun. destruct (is_pgrst116 e); by simplify_eq. }
  destruct (filter _ _) as [| c [| ? ?]]; cbn in Hrun; by simplify_eq.
Qed.

(** A run of [processIncomingMessage] either stops before there is a reply
    (no completion obtained, nothing sent, leads as before), or it reaches
    [deliver] with the lead found by its phone, an active conversation of
    that lead, the inbound message stored and the reply generated. *)
Lemma processIncomingMessage_phases phone message channel w r w' :
  processIncomingMessage phone message channel w = (r, w') →
  ((∃ e, r = Throw e) ∧ grows no_reply w w' ∧ leads (db w') = leads (db w))
  ∨ ∃ lead rest conversation config text inbound w1 r1 w2,
      filter (fun l => Lead.phone l = Some phone) (leads (db w)) = lead :: rest
      ∧ Conversation.lead_id conversation = Lead.id lead
      ∧ Conversation.status conversation = "active"
      ∧ filter (fun c => AssistantConfig.business_id c = Lead.business_id lead)
          (assistant_configs (db w)) = [config]
      ∧ leads (db w1) = leads (db w)
      ∧ messages (db w1) = messages (db w) ++ [inbound]
      ∧ Message.conversation_id inbound = Conversation.id conversation
      ∧ Message.content inbound = message
      ∧ Message.is_from_lead inbound = true
      ∧ (∃ before request,
           trace w1 = trace w ++ before ++ [ChatCompletion request (Some text)]
           ∧ Forall is_db before)
      ∧ deliver phone channel lead conversation config text w1 = (r1, w2)
      ∧ match r1 with
        | Ret a => r = Ret a ∧ w' = w2
        | Throw e =>
            r = Throw (new_Error ("Failed to process incoming message" +:+ ": "
                                  +:+ err_message e))
            ∧ w' = record (ConsoleError "Process Incoming Message Error:") w2
        end.
Proof.
  intros Hrun. unfold processIncomingMessage in Hrun.
  match type of Hrun with try_catch ?b _ _ = _ => set (body := b) in * end.
  assert (∀ rb wb, body w = (rb, wb) →
            ((∃ e, rb = Throw e) ∧ leads_kept w wb)
            ∨ ((∃ e, rb = Throw e) ∧ leads (db wb) = leads (db w)
               ∧ ∃ wa, leads_kept w wa
                       ∧ ∃ request, wb = record (ConsoleError "OpenAI API Error:")
                                           (record (ChatCompletion request None) wa))
            ∨ ∃ lead rest conversation config text inbound w1,
                filter (fun l => Lead.phone l = Some phone) (leads (db w)) = lead :: rest
                ∧ Conversation.lead_id conversation = Lead.id lead
                ∧ Conversation.status conversation = "active"
                ∧ filter (fun c => AssistantConfig.business_id c = Lead.business_id lead)
                    (assistant_configs (db w)) = [config]
                ∧ leads (db w1) = leads (db w)
                ∧ messages (db w1) = messages (db w) ++ [inbound]
                ∧ Message.conversation_id inbound = Conversation.id conversation
                ∧ Message.content inbound = message
                ∧ Message.is_from_lead inbound = true
                ∧ (∃ before request,
                     trace w1 = trace w ++ before ++ [ChatCompletion request (Some text)]
                     ∧ Forall is_db before)
                ∧ deliver phone channel lead conversation config text w1 = (rb, wb))
    as Hbody.
  { subst body. clear Hrun. intros rb wb Hbody.
    apply bind_inv in Hbody as [(found & w1 & H1 & Hbody) | (e & H1 & ->)];
      pose proof (getLeadsByPhone_quiet _ _ _ _ H1) as (M1 & K1);
      pose proof (getLeadsByPhone_configs _ _ _ _ H1) as A1;
      [| left; eauto].
    apply getLeadsByPhone_runs in H1 as [D1 F1]. specialize (F1 _ eq_refl).
    destruct found as [| lead rest];
      [unfold throw in Hbody; simplify_eq; left; eauto |].
    apply bind_inv in Hbody as [(active & w2 & H2 & Hbody) | (e & H2 & ->)];
      pose proof (getActiveConversation_quiet _ _ _ _ H2) as (M2 & K2);
      pose proof (getActiveConversation_configs _ _ _ _ H2) as A2;
      [| left; split; [eauto | by etransitivity]].
    apply bind_inv in Hbody as [(conversation & w3 & H3 & Hbody) | (e & H3 & ->)].
    2: { left. split; [eauto |]. destruct active; [done |].
         apply startConversation_quiet in H3 as [_ K3].
         etransitivity; [exact K1 |]. by etransitivity. }
    assert (quiet w2 w3 ∧ keeps assistant_configs w2 w3
            ∧ Conversation.lead_id conversation = Lead.id lead
            ∧ Conversation.status conversation = "active")
      as ((M3 & K3) & A3 & Hlead & Hactive).
    { destruct active as [c |].
      - unfold mret, M_ret in H3. simplify_eq.
        apply getActiveConversation_runs in H2 as (_ & ? & ?).
        split; [reflexivity |]. split; [reflexivity | done].
      - pose proof (startConversation_quiet _ _ _ _ _ H3).
        pose proof (startConversation_configs _ _ _ _ _ H3).
        by apply startConversation_runs in H3 as (? & _ & ? & _). }
    assert (leads_kept w w3) as K03
      by (etransitivity; [exact K1 |]; by etransitivity).
    assert (messages (db w3) = messages (db w)) as M03
      by (unfold keeps in M1, M2, M3; congruence).
    apply bind_inv in Hbody as [(stored & w4 & H4 & Hbody) | (e & H4 & ->)];
      pose proof (addMessage_leads_kept _ _ _ _ _ _ _ H4) as K4;
      pose proof (addMessage_configs _ _ _ _ _ _ _ H4) as A4;
      [| left; split; [eauto | by etransitivity]].
    apply addMessage_runs in H4
      as [(inbound & ? & Hmsg & Hconv & Hcontent & Hflag) | (e' & ? & _)];
      [| done].
    assert (leads_kept w w4) as K04 by (by etransitivity).
    apply bind_inv in Hbody as [(business & w5 & H5 & Hbody) | (e & H5 & ->)];
      pose proof (getBusinessById_configs _ _ _ _ H5) as A5;
      apply getBusinessById_quiet in H5 as [M5 K5];
      [| left; split; [eauto | by etransitivity]].
    apply bind_inv in Hbody as [(config & w6 & H6 & Hbody) | (e & H6 & ->)];
      pose proof (getAssistantConfig_quiet _ _ _ _ H6) as [M6 K6];
      [| left; split; [eauto |]; etransitivity; [exact K04 |]; by etransitivity].
    assert (leads_kept w w6) as K06
      by (etransitivity; [exact K04 |]; by etransitivity).
    destruct config as [config |];
      [| unfold throw in Hbody; simplify_eq; left; eauto].
    apply getAssistantConfig_found in H6.
    assert (assistant_configs (db w5) = assistant_configs (db w)) as A05
      by (unfold keeps in A1, A2, A3, A4, A5; congruence).
    rewrite A05 in H6.
    apply bind_inv in Hbody as [(history & w7 & H7 & Hbody) | (e & H7 & ->)];
      apply getRecentMessages_quiet in H7 as [M7 K7];
      [| left; split; [eauto | by etransitivity]].
    assert (leads_kept w w7) as K07 by (by etransitivity).
    apply bind_inv in Hbody as [(text & w8 & H8 & Hbody) | (e & H8 & ->)];
      apply generateConversation_runs in H8 as [(text' & ? & ->) | [? ->]];
      simplify_eq.
    - right. right.
      exists lead, rest, conversation, config, text', inbound.
      match type of Hbody with _ ?w1 = _ => exists w1 end.
      split; [done |]. split; [done |]. split; [done |]. split; [exact H6 |].
      destruct K07 as [L07 (before & Htr & Hbefore)].
      unfold keeps in *. cbn.
      split; [done |]. split; [congruence |].
      split; [done |]. split; [done |]. split; [done |].
      split; [| exact Hbody].
      eexists before, _. split; [| done]. by rewrite Htr, <- app_assoc.
    - right. left. split; [eauto |].
      destruct K07 as [L07 G07]. split; [exact L07 |].
      exists w7. split; [by split |]. eauto. }
  apply try_catch_inv in Hrun as [(a & Hrun & ->) | (e & w0 & Hrun & Hcatch)];
    destruct (Hbody _ _ Hrun)
      as [[[e' ?] K] | [([e' ?] & L & wa & K & request & ->) | Hdeliver]];
    try done.
  - right.
    destruct Hdeliver as (lead & rest & conversation & config & text & inbound & w1
                          & ? & ? & ? & ? & ? & ? & ? & ? & ? & ? & Hdeliver).
    exists lead, rest, conversation, config, text, inbound, w1, (Ret a), w'.
    do 10 (split; [done |]). done.
  - left. unfold rethrow in Hcatch. run_unfold Hcatch. simplify_eq.
    split; [eauto |]. split; [| by destruct K].
    transitivity w0; [by apply leads_kept_no_reply | by apply grows_record].
  - left. unfold rethrow in Hcatch. run_unfold Hcatch. simplify_eq.
    split; [eauto |]. split; [| exact L].
    transitivity wa; [by apply leads_kept_no_reply |].
    exists [ChatCompletion request None; ConsoleError "OpenAI API Error:";
            ConsoleError "Process Incoming Message Error:"].
    split; [cbn; by rewrite <- !app_assoc | by repeat constructor].
  - right. unfold rethrow in Hcatch. run_unfold Hcatch. simplify_eq.
    destruct Hdeliver as (lead & rest & conversation & config & text & inbound & w1
                          & ? & ? & ? & ? & ? & ? & ? & ? & ? & ? & Hdeliver).
    exists lead, rest, conversation, config, text, inbound, w1, (Throw e), w0.
    do 10 (split; [done |]). done.
Qed.

Lemma is_db_not_sent l : Forall is_db l → Forall not_sent l.
Proof. intros Hl. eapply Forall_impl; [exact Hl |]. by intros [| | | | |]. Qed.

Lemma no_reply_not_sent l : Forall no_reply l → Forall not_sent l.
Proof. intros Hl. eapply Forall_impl; [exact Hl |]. by intros [| | | | |]. Qed.

(** The one request a run of [processIncomingMessage] can make to Twilio. *)
Lemma processIncomingMessage_send_inv phone message channel w r w' :
  processIncomingMessage phone message channel w = (r, w') →
  ((∃ e, r = Throw e) ∧ grows not_sent w w')
  ∨ ∃ from to text error pre post inbound outbound,
      addresses phone channel = Some (from, to)
      ∧ trace w' = trace w ++ pre ++ [TwilioCreate text from to error] ++ post
      ∧ Forall not_sent pre ∧ Forall is_db post
      ∧ (∃ request, In (ChatCompletion request (Some text)) pre)
      ∧ messages (db w') = messages (db w) ++ [inbound; outbound]
      ∧ Message.content inbound = message ∧ Message.is_from_lead inbound = true
      ∧ Message.content outbound = text ∧ Message.is_from_lead outbound = false
      ∧ match error with
        | None => ∃ lead conversation, r = Ret (lead, conversation, text)
        | Some e =>
            r = Throw (new_Error ("Failed to process incoming message: "
                                  +:+ snd (send_failure channel) +:+ ": "
                                  +:+ err_message e))
        end.
Proof.
  intros Hrun.
  apply processIncomingMessage_phases in Hrun
    as [(Hr & (evs & Htr & Hevs) & _)
       | (lead & rest & conversation & config & text & inbound & w1 & r1 & w2
          & _ & _ & _ & _ & _ & Hm1 & _ & Hcontent & Hflag
          & (before & request & Htr1 & Hbefore) & Hdeliver & Hr)].
  { left. split; [done |]. exists evs. split; [done | by apply no_reply_not_sent]. }
  apply is_db_not_sent in Hbefore.
  apply deliver_inv in Hdeliver
    as [((evs & Htr2 & Hevs) & _ & e & ->)
       | (outbound & Hm2 & _ & Hcontent' & Hflag' & Hsend)].
  { left. destruct Hr as [-> ->]. split; [eauto |].
    exists (before ++ [ChatCompletion request (Some text)] ++ evs
            ++ [ConsoleError "Process Incoming Message Error:"]).
    split; [cbn; rewrite Htr2, Htr1, <- !app_assoc; done |].
    apply is_db_not_sent in Hevs.
    repeat first [apply Forall_app_2 | apply Forall_cons_2 | apply Forall_nil_2];
      done. }
  destruct (addresses phone channel) as [[from to] |] eqn:Haddr.
  - right. destruct Hsend as (mid & error & after & Htr2 & Hmid & Hafter & Hr1).
    apply is_db_not_sent in Hmid.
    destruct error as [e |]; subst r1; destruct Hr as [-> ->].
    + exists from, to, text, (Some e),
        (before ++ [ChatCompletion request (Some text)] ++ mid),
        (after ++ [ConsoleError "Process Incoming Message Error:"]),
        inbound, outbound.
      split; [done |].
      split; [cbn; rewrite Htr2, Htr1, <- !app_assoc; done |].
      split; [repeat first [apply Forall_app_2 | apply Forall_cons_2]; done |].
      split; [apply Forall_app_2; [done | by apply Forall_singleton] |].
      split; [exists request; apply in_or_app; right; by left |].
      split; [cbn; rewrite Hm2, Hm1, <- app_assoc; done |].
      do 4 (split; [done |]). done.
    + exists from, to, text, None,
        (before ++ [ChatCompletion request (Some text)] ++ mid), after,
        inbound, outbound.
      split; [done |].
      split; [rewrite Htr2, Htr1, <- !app_assoc; done |].
      split; [repeat first [apply Forall_app_2 | apply Forall_cons_2]; done |].
      split; [done |].
      split; [exists request; apply in_or_app; right; by left |].
      split; [rewrite Hm2, Hm1, <- app_assoc; done |].
      do 4 (split; [done |]). eauto.
  - left. destruct Hsend as [(evs & Htr2 & Hevs) ->]. destruct Hr as [-> ->].
    split; [eauto |].
    exists (before ++ [ChatCompletion request (Some text)] ++ evs
            ++ [ConsoleError "Process Incoming Message Error:"]).
    split; [cbn; rewrite Htr2, Htr1, <- !app_assoc; done |].
    apply is_db_not_sent in Hevs.
    repeat first [apply Forall_app_2 | apply Forall_cons_2 | apply Forall_nil_2];
      done.
Qed.

(** ** What the pipeline guarantees *)

(** X4.  [sendMessage] never touches the tables.  For a channel other than
    WhatsApp and SMS (compared in lower case) it throws
    "Unsupported channel: <channel>" without calling Twilio; otherwise it
    makes exactly one request to Twilio, from the configured number of the
    channel to the recipient (both prefixed with "whatsapp:" on WhatsApp),
    and a refused request is logged and thrown again under the prefix of
    the channel. *)
Theorem sendMessage_runs (to message channel : string) (w w' : world) (r : outcome unit) :
  TwilioService.sendMessage to message channel w = (r, w') →
  db w' = db w
  ∧ match addresses to channel with
    | None => w' = w ∧ r = Throw (new_Error ("Unsupported channel: " +:+ channel))
    | Some (from, to') =>
        (trace w' = trace w ++ [TwilioCreate message from to' None] ∧ r = Ret tt)
        ∨ ∃ e, trace w' = trace w ++ [TwilioCreate message from to' (Some e);
                                       ConsoleError (fst (send_failure channel))]
               ∧ r = Throw (new_Error (snd (send_failure channel) +:+ ": "
                                       +:+ err_message e))
    end.
Proof. apply sendMessage_inv. Qed.

(** X5.  A run of [processIncomingMessage] makes at most one request to
    Twilio.  When it makes one, the request goes to the caller's phone on
    the caller's channel, it carries a text that a completion request of
    the same run returned before, the inbound message and that text are by
    then the two newest rows of [messages], and the run returns the text
    exactly when Twilio accepted the request.  When it makes none, the run
    throws. *)
Theorem processIncomingMessage_sends_once phone message channel w r w' :
  processIncomingMessage phone message channel w = (r, w') →
  ((∃ e, r = Throw e) ∧ grows not_sent w w')
  ∨ ∃ from to text error pre post inbound outbound,
      addresses phone channel = Some (from, to)
      ∧ trace w' = trace w ++ pre ++ [TwilioCreate text from to error] ++ post
      ∧ Forall not_sent pre ∧ Forall is_db post
      ∧ (∃ request, In (ChatCompletion request (Some text)) pre)
      ∧ messages (db w') = messages (db w) ++ [inbound; outbound]
      ∧ Message.content inbound = message ∧ Message.is_from_lead inbound = true
      ∧ Message.content outbound = text ∧ Message.is_from_lead outbound = false
      ∧ match error with
        | None => ∃ lead conversation, r = Ret (lead, conversation, text)
        | Some e =>
            r = Throw (new_Error ("Failed to process incoming message: "
                                  +:+ snd (send_failure channel) +:+ ": "
                                  +:+ err_message e))
        end.
Proof. apply processIncomingMessage_send_inv. Qed.

(** X6.  When [processIncomingMessage] returns, the lead it returns is the
    first row of [leads] with the caller's phone, the conversation is an
    active conversation of that lead, and [messages] has grown by exactly
    two rows of that conversation: the inbound text, marked as written by
    the lead, then the returned reply, marked as not. *)
Theorem processIncomingMessage_returns phone message channel w w' lead conversation text :
  processIncomingMessage phone message channel w = (Ret (lead, conversation, text), w') →
  (∃ rest, filter (fun l => Lead.phone l = Some phone) (leads (db w)) = lead :: rest)
  ∧ Conversation.lead_id conversation = Lead.id lead
  ∧ Conversation.status conversation = "active"
  ∧ ∃ inbound outbound,
      messages (db w') = messages (db w) ++ [inbound; outbound]
      ∧ Message.conversation_id inbound = Conversation.id conversation
      ∧ Message.conversation_id outbound = Conversation.id conversation
      ∧ Message.content inbound = message ∧ Message.is_from_lead inbound = true
      ∧ Message.content outbound = text ∧ Message.is_from_lead outbound = false.
Proof.
  intros Hrun.
  apply processIncomingMessage_phases in Hrun
    as [([e ?] & _) | (lead' & rest & conversation' & config & text' & inbound & w1 & r1
                       & w2 & Hfound & Hlead & Hactive & _ & _ & Hm1 & Hconv & Hcontent
                       & Hflag & _ & Hdeliver & Hr)]; [done |].
  apply deliver_inv in Hdeliver
    as [(_ & _ & e & ->) | (outbound & Hm2 & Hconv' & Hcontent' & Hflag' & Hsend)];
    [by destruct Hr |].
  assert (r1 = Ret (lead', conversation', text')) as ->.
  { destruct (addresses phone channel) as [[from to] |].
    - destruct Hsend as (? & [e |] & ? & _ & _ & _ & ->); [by destruct Hr | done].
    - destruct Hsend as [_ ->]. by destruct Hr. }
  destruct Hr as [? ->]. simplify_eq.
  split; [eauto |]. split; [done |]. split; [done |].
  exists inbound, outbound. rewrite Hm2, Hm1, <- app_assoc. done.
Qed.

(** X7.  When no row of [leads] has the caller's phone (and the database
    answers), [processIncomingMessage] throws "Failed to process incoming
    message: Lead not found for this phone number" after one read of
    [leads] and one log; the tables are as before. *)
Theorem processIncomingMessage_unknown_phone phone message channel w r w' :
  filter (fun l => Lead.phone l = Some phone) (leads (db w)) = [] →
  db_fault (tick w) = None →
  processIncomingMessage phone message channel w = (r, w') →
  r = Throw (new_Error
               "Failed to process incoming message: Lead not found for this phone number")
  ∧ db w' = db w
  ∧ trace w' = trace w ++ [Db "leads" Select None;
                           ConsoleError "Process Incoming Message Error:"].
Proof.
  intros Hnone Hanswer Hrun.
  unfold processIncomingMessage, LeadModel.getLeadsByPhone in Hrun.
  run_unfold Hrun. rewrite Hanswer in Hrun. cbn in Hrun. rewrite Hnone in Hrun.
  cbn in Hrun. simplify_eq. cbn. by rewrite <- app_assoc.
Qed.

End Pipeline.

(** X4 at work: a channel the service does not know. *)
Lemma sendMessage_runs_witness :
  snd (@TwilioService.sendMessage (outside None None None) ascii_strings
         "+15551230000" "Hello Ada" "email" acme_world) = acme_world
  ∧ fst (@TwilioService.sendMessage (outside None None None) ascii_strings
           "+15551230000" "Hello Ada" "email" acme_world)
    = Throw (new_Error "Unsupported channel: email").
Proof.
  destruct (@sendMessage_runs (outside None None None) ascii_strings
              "+15551230000" "Hello Ada" "email" acme_world
              (snd (@TwilioService.sendMessage (outside None None None) ascii_strings
                      "+15551230000" "Hello Ada" "email" acme_world))
              (fst (@TwilioService.sendMessage (outside None None None) ascii_strings
                      "+15551230000" "Hello Ada" "email" acme_world)))
    as [_ Hrun].
  - apply surjective_pairing.
  - exact Hrun.
Defined.

(** X5 at work: Ada writes in on WhatsApp and the provider answers. *)
Lemma processIncomingMessage_sends_once_witness :
  ∃ pre post,
    trace (snd (@processIncomingMessage (outside None None (Some "Hello Ada"))
                  ascii_strings "+15551230000" "My budget is 5,000" "WhatsApp"
                  acme_world))
    = pre ++ [TwilioCreate "Hello Ada" "whatsapp:+15550000001"
                "whatsapp:+15551230000" None] ++ post
    ∧ Forall not_sent pre ∧ Forall is_db post.
Proof.
  destruct (@processIncomingMessage_sends_once (outside None None (Some "Hello Ada"))
              ascii_strings "+15551230000" "My budget is 5,000" "WhatsApp" acme_world
              (fst (@processIncomingMessage (outside None None (Some "Hello Ada"))
                      ascii_strings "+15551230000" "My budget is 5,000" "WhatsApp"
                      acme_world))
              (snd (@processIncomingMessage (outside None None (Some "Hello Ada"))
                      ascii_strings "+15551230000" "My budget is 5,000" "WhatsApp"
                      acme_world)))
    as [[[e He] _]
       | (from & to & text & error & pre & post & inbound & outbound
          & Haddr & Htr & Hpre & Hpost & _ & _ & _ & _ & _ & _ & Hr)].
  - apply surjective_pairing.
  - vm_compute in He. discriminate He.
  - assert (error = None ∧ text = "Hello Ada") as [-> ->].
    { destruct error as [e |]; [vm_compute in Hr; discriminate Hr |].
      destruct Hr as (lead & conversation & Hr). vm_compute in Hr.
      split; [reflexivity | congruence]. }
    vm_compute in Haddr. injection Haddr as <- <-.
    exists pre, post. split; [exact Htr |]. split; [exact Hpre | exact Hpost].
Defined.

(** X6 at work: the same exchange, read off the tables. *)
Lemma processIncomingMessage_returns_witness :
  ∃ inbound outbound,
    messages (db (snd (@processIncomingMessage (outside None None (Some "Hello Ada"))
                         ascii_strings "+15551230000" "My budget is 5,000" "whatsapp"
                         acme_world)))
    = [inbound; outbound]
    ∧ Message.content inbound = "My budget is 5,000"
    ∧ Message.content outbound = "Hello Ada".
Proof.
  assert (∃ conversation,
            @processIncomingMessage (outside None None (Some "Hello Ada"))
              ascii_strings "+15551230000" "My budget is 5,000" "whatsapp" acme_world
            = (Ret (ada, conversation, "Hello Ada"),
               snd (@processIncomingMessage (outside None None (Some "Hello Ada"))
                      ascii_strings "+15551230000" "My budget is 5,000" "whatsapp"
                      acme_world))) as [conversation Hrun].
  { eexists. vm_compute. reflexivity. }
  destruct (@processIncomingMessage_returns (outside None None (Some "Hello Ada"))
              ascii_strings "+15551230000" "My budget is 5,000" "whatsapp" acme_world
              _ ada conversation "Hello Ada" Hrun)
    as (_ & _ & _ & inbound & outbound & Hm & _ & _ & Hin & _ & Hout & _).
  exists inbound, outbound. split; [exact Hm |]. split; [exact Hin | exact Hout].
Defined.

(** X7 at work: a number nobody has. *)
Lemma processIncomingMessage_unknown_phone_witness :
  db (snd (@processIncomingMessage (outside None None (Some "Hello")) ascii_strings
             "+15559999999" "Hi" "sms" acme_world))
  = db acme_world.
Proof.
  edestruct (@processIncomingMessage_unknown_phone (outside None None (Some "Hello"))
               ascii_strings "+15559999999" "Hi" "sms" acme_world
               (fst (@processIncomingMessage (outside None None (Some "Hello"))
                       ascii_strings "+15559999999" "Hi" "sms" acme_world))
               (snd (@processIncomingMessage (outside None None (Some "Hello"))
                       ascii_strings "+15559999999" "Hi" "sms" acme_world)))
    as (_ & Hdb & _).
  - vm_compute. reflexivity.
  - reflexivity.
  - apply surjective_pairing.
  - exact Hdb.
Defined.

End PipelineFacts.

(* ===================================================================== *)
(** * Properties of the Twilio webhook *)
(* ===================================================================== *)

Module WebhookFacts.
Import Vocabulary PipelineVocabulary Runs ConversationService WebhookRoute PipelineFacts.

Lemma prefix_append (p rest : string) : String.prefix p (p +:+ rest) = true.
Proof.
  induction p as [| c p IH]; [by destruct rest |].
  change (String c p +:+ rest) with (String c (p +:+ rest)).
  cbn [String.prefix]. destruct (ascii_dec c c); [exact IH | congruence].
Qed.

Lemma substring_append (p rest : string) (n : nat) :
  String.substring (String.length p) n (p +:+ rest) = String.substring 0 n rest.
Proof.
  induction p as [| c p IH]; [done |].
  change (String c p +:+ rest) with (String c (p +:+ rest)). exact IH.
Qed.

Lemma substring_all (s : string) : String.substring 0 (String.length s) s = s.
Proof. induction s as [| c s IH]; cbn; [done | by rewrite IH]. Qed.

Lemma length_append (p rest : string) :
  String.length (p +:+ rest) = (String.length p + String.length rest)%nat.
Proof.
  induction p as [| c p IH]; [done |].
  change (String c p +:+ rest) with (String c (p +:+ rest)). cbn. by rewrite IH.
Qed.

Lemma remove_first_unfold (pattern s : string) :
  remove_first pattern s
  = match skip_prefix pattern s with
    | Some rest => rest
    | None =>
        match s with
        | String c s' => String c (remove_first pattern s')
        | EmptyString => EmptyString
        end
    end.
Proof. by destruct s. Qed.

(** A leading occurrence of the pattern is the one that goes. *)
Lemma remove_first_prefix (pattern rest : string) :
  remove_first pattern (pattern +:+ rest) = rest.
Proof.
  rewrite remove_first_unfold. unfold skip_prefix.
  rewrite prefix_append, substring_append, length_append.
  replace (String.length pattern + String.length rest - String.length pattern)%nat
    with (String.length rest) by lia.
  apply substring_all.
Qed.

(** Without an occurrence, nothing goes. *)
Lemma remove_first_absent (pattern s : string) :
  includes s pattern = false → remove_first pattern s = s.
Proof.
  induction s as [| c s IH]; intros Habsent; rewrite remove_first_unfold;
    unfold skip_prefix; cbn [includes] in Habsent;
    apply orb_false_iff in Habsent as [-> Habsent]; [done |].
  by rewrite IH.
Qed.

Lemma prefix_split (p s : string) :
  String.prefix p s = true → ∃ rest, s = p +:+ rest.
Proof.
  revert s. induction p as [| c p IH]; intros s Hp; [by exists s |].
  destruct s as [| c' s]; [done |]. cbn in Hp.
  destruct (ascii_dec c c') as [-> |]; [| done].
  destruct (IH _ Hp) as [rest ->]. by exists rest.
Qed.

Section Webhook.
Context `{Providers} `{JsString}.

(** X8.  The webhook answers the empty TwiML document whatever happens,
    and, for a sender that starts with "whatsapp:" or does not contain it,
    every request to Twilio that the processing makes is addressed to the
    sender as Twilio named it. *)
Theorem twilio_incoming_replies_to_sender (sender body : string) (w w' : world)
    (reply : string) :
  toLowerCase "whatsapp" = "whatsapp" →
  toLowerCase "sms" = "sms" →
  String.prefix "whatsapp:" sender = true ∨ includes sender "whatsapp:" = false →
  twilio_incoming (Some sender) body w = (reply, w') →
  reply = acknowledgement ∧ grows (replies_to sender) w w'.
Proof.
  intros Hwhatsapp Hsms Hsender Hrun. unfold twilio_incoming in Hrun.
  injection Hrun as <- <-. split; [done |].
  set (channel := if String.prefix "whatsapp:" sender then "whatsapp" else "sms").
  set (phone := remove_first "whatsapp:" sender).
  assert (∀ from to, addresses phone channel = Some (from, to) → to = sender) as Hto.
  { intros from to. unfold addresses, channel, phone.
    destruct Hsender as [Hp | Hp].
    - rewrite Hp, Hwhatsapp. cbn. intros ?. simplify_eq.
      apply prefix_split in Hp as [rest ->]. by rewrite remove_first_prefix.
    - assert (String.prefix "whatsapp:" sender = false) as ->.
      { destruct sender; cbn [includes] in Hp; by apply orb_false_iff in Hp as [? _]. }
      rewrite Hsms. cbn. intros ?. simplify_eq. by apply remove_first_absent. }
  clearbody channel phone.
  destruct (processIncomingMessage phone body channel w) as [r0 w0] eqn:Hrun.
  assert (grows (replies_to sender) w w0) as Hgrow.
  { apply processIncomingMessage_send_inv in Hrun
      as [[_ Hgrow]
         | (from & to & text & error & pre & post & _ & _ & Haddr & Htr & Hpre & Hpost & _)].
    - eapply grows_weaken; [| exact Hgrow]. by intros [| | | | |].
    - exists (pre ++ [TwilioCreate text from to error] ++ post). split; [done |].
      apply Forall_app_2; [| apply Forall_cons_2].
      + eapply Forall_impl; [exact Hpre |]. by intros [| | | | |].
      + cbn. by eapply Hto.
      + eapply Forall_impl; [exact Hpost |]. by intros [| | | | |]. }
  unfold try_catch, mbind, M_bind. rewrite Hrun.
  destruct r0; cbn; [done |].
  etransitivity; [exact Hgrow |]. by apply grows_record.
Qed.

End Webhook.

(** X8 at work: Ada writes in on WhatsApp. *)
Lemma twilio_incoming_replies_to_sender_witness :
  grows (replies_to "whatsapp:+15551230000") acme_world
    (snd (@twilio_incoming (outside None None (Some "Hello Ada")) ascii_strings
            (Some "whatsapp:+15551230000") "My budget is 5,000" acme_world)).
Proof.
  edestruct (@twilio_incoming_replies_to_sender (outside None None (Some "Hello Ada"))
               ascii_strings "whatsapp:+15551230000" "My budget is 5,000" acme_world
               (snd (@twilio_incoming (outside None None (Some "Hello Ada")) ascii_strings
                       (Some "whatsapp:+15551230000") "My budget is 5,000" acme_world))
               (fst (@twilio_incoming (outside None None (Some "Hello Ada")) ascii_strings
                       (Some "whatsapp:+15551230000") "My budget is 5,000" acme_world)))
    as [_ Hgrows].
  - reflexivity.
  - reflexivity.
  - left. reflexivity.
  - apply surjective_pairing.
  - exact Hgrows.
Defined.

End WebhookFacts.

(* ===================================================================== *)
(** * What a booking stores *)
(* ===================================================================== *)

Module MeetingFacts.
Import Vocabulary BookingVocabulary Runs SchedulingRoute BookingFacts.

Section Meetings.
Context `{Providers} `{Validator}.

Lemma getBusinessByUserId_runs userId w business w' :
  BusinessModel.getBusinessByUserId userId w = (Ret (Some business), w') →
  filter (fun b => Business.user_id b = userId) (businesses (db w)) = [business].
Proof.
  intros Hrun. unfold BusinessModel.getBusinessByUserId in Hrun. run_unfold Hrun.
  destruct (db_fault (tick w)) as [e |].
  { cbn in Hrun. destruct (is_pgrst116 e); by simplify_eq. }
  destruct (filter _ _) as [| b [| ? ?]]; cbn in Hrun; by simplify_eq.
Qed.

Lemma getLeadById_runs leadId w lead w' :
  LeadModel.getLeadById leadId w = (Ret lead, w') →
  filter (fun l => Lead.id l = leadId) (leads (db w)) = [lead].
Proof.
  intros Hrun. unfold LeadModel.getLeadById in Hrun. run_unfold Hrun.
  destruct (db_fault (tick w)) as [e |]; [by simplify_eq |].
  destruct (filter _ _) as [| l [| ? ?]]; cbn in Hrun; by simplify_eq.
Qed.

Lemma createMeeting_row req business googleEventId w r w' :
  SchedulingModel.createMeeting (leadId req) (Business.id business) (conversationId req)
    {| SchedulingModel.title := title req;
       SchedulingModel.description := description req;
       SchedulingModel.start_time := startTime req;
       SchedulingModel.end_time := endTime req;
       SchedulingModel.timezone := timezone req;
       SchedulingModel.status := None;
       SchedulingModel.location := location req;
       SchedulingModel.google_event_id := googleEventId;
       SchedulingModel.outlook_event_id := None;
       SchedulingModel.additional_info := None |} w = (r, w') →
  (∃ row, r = Ret (Some row)
          ∧ db w' = set_meetings (fun rows => rows ++ [row]) (db w)
          ∧ row_of req business googleEventId row)
  ∨ (∃ e, r = Throw e ∧ db w' = db w).
Proof.
  intros Hrun. unfold SchedulingModel.createMeeting in Hrun. run_unfold Hrun.
  destruct (db_fault (tick w)) as [e |]; simplify_eq.
  - right. eauto.
  - left. eexists. split; [done |]. split; [done |]. by repeat split.
Qed.

Lemma updateLeadStatus_runs leadId status w r w' :
  LeadModel.updateLeadStatus leadId status w = (r, w') →
  (∃ row, r = Ret row
          ∧ db w' = set_leads (LeadModel.update_where_id leadId
                                 (LeadModel.with_status status (now (tick w)))) (db w))
  ∨ (∃ e, r = Throw e ∧ db w' = db w).
Proof.
  intros Hrun. unfold LeadModel.updateLeadStatus in Hrun. run_unfold Hrun.
  destruct (db_fault (tick w)) as [e |]; simplify_eq; eauto.
Qed.

(** What [persistMeeting] leaves in the tables. *)
Lemma persistMeeting_stores req business lead googleEventId w r w' :
  persistMeeting req business lead googleEventId w = (r, w') →
  (db w' = db w ∧ ∃ e, r = Throw e)
  ∨ ∃ row,
      row_of req business googleEventId row
      ∧ meetings (db w') = meetings (db w) ++ [row]
      ∧ if String.eqb (Lead.status lead) "new"
        then (leads (db w') = leads (db w) ∧ ∃ e, r = Throw e)
             ∨ (r = Ret (Json 201 "Meeting created successfully" (Some row))
                ∧ ∃ at_, leads (db w')
                         = LeadModel.update_where_id (leadId req)
                             (LeadModel.with_status "qualified" at_) (leads (db w)))
        else r = Ret (Json 201 "Meeting created successfully" (Some row))
             ∧ leads (db w') = leads (db w).
Proof.
  intros Hrun. unfold persistMeeting in Hrun.
  apply bind_inv in Hrun as [(meeting & w1 & Hinsert & Hrest) | (e & Hinsert & ->)];
    apply createMeeting_row in Hinsert as [(row & ? & Hdb & Hrow) | (e' & ? & Hdb)];
    simplify_eq; [| left; eauto].
  right. exists row. split; [done |].
  destruct (String.eqb (Lead.status lead) "new").
  - apply bind_inv in Hrest as [([] & w2 & Hupdate & Hret) | (e & Hupdate & ->)];
      apply bind_inv in Hupdate as [(updated & w3 & Hupdate & Hunit) | (e' & Hupdate & ?)];
      apply updateLeadStatus_runs in Hupdate as [(? & ? & Hdb') | (? & ? & Hdb')];
      unfold mret, M_ret in *; simplify_eq.
    + rewrite Hdb', Hdb. cbn. split; [done |]. right. split; [done |]. eauto.
    + rewrite Hdb', Hdb. cbn. split; [done |]. left. eauto.
  - unfold mret, M_ret, mbind, M_bind in Hrest. simplify_eq.
    rewrite Hdb. done.
Qed.

(** The booking leaves the tables alone or gets to [persistMeeting]. *)
Lemma bookMeeting_persists req business lead credentials w r w' :
  bookMeeting req business lead credentials w = (r, w') →
  (db w' = db w
   ∧ (r = Ret (Json 409 "Selected time slot is no longer available" None)
      ∨ ∃ e, r = Throw e))
  ∨ ∃ googleEventId w1,
      db w1 = db w
      ∧ (credentials = None → googleEventId = None)
      ∧ persistMeeting req business lead googleEventId w1 = (r, w').
Proof.
  intros Hrun. destruct credentials as [credentials |].
  - unfold bookMeeting, createRemoteEvent in Hrun.
    apply bind_inv in Hrun as [(a & w1 & Hremote & Hrest) | (e & Hremote & ->)];
      apply bind_inv in Hremote
        as [(isAvailable & w2 & Hcheck & Hremote) | (e' & Hcheck & ?)];
      apply checkAvailability_runs in Hcheck as [(busySlots & ? & ->) | [? ->]];
      simplify_eq.
    + destruct busySlots as [| b busySlots]; cbn in Hremote.
      * apply bind_inv in Hremote as [(eventId & w3 & Hcreate & Hret) | (e & Hcreate & ?)];
          apply createMeeting_runs in Hcreate as (ev & [(id & ? & ->) | [? ->]]);
          simplify_eq.
        unfold mret, M_ret in Hret. simplify_eq.
        right. eexists _, _. split; [| split; [| exact Hrest]]; done.
      * unfold mret, M_ret in Hremote, Hrest. simplify_eq. left. eauto.
    + destruct busySlots as [| b busySlots]; cbn in Hremote.
      * apply bind_inv in Hremote as [(eventId & w3 & Hcreate & Hret) | (e0 & Hcreate & ?)];
          apply createMeeting_runs in Hcreate as (ev & [(id & ? & ->) | [? ->]]);
          simplify_eq; try (by unfold mret, M_ret in Hret).
        left. eauto.
      * by unfold mret, M_ret in Hremote.
    + left. eauto.
  - right. exists None, w. unfold bookMeeting, createRemoteEvent in Hrun.
    unfold mret, M_ret, mbind, M_bind in Hrun. done.
Qed.

Lemma getCalendarCredentials_runs userId provider w found w' :
  UserModel.getCalendarCredentials userId provider w = (Ret (Some found), w') →
  filter (fun c => CalendarIntegration.user_id c = userId
                   ∧ CalendarIntegration.provider c = provider)
    (calendar_integrations (db w)) = [found].
Proof.
  intros Hrun. unfold UserModel.getCalendarCredentials in Hrun. run_unfold Hrun.
  destruct (db_fault (tick w)) as [e |].
  { cbn in Hrun. destruct (is_pgrst116 e); by simplify_eq. }
  destruct (filter _ _) as [| c [| ? ?]]; cbn in Hrun; by simplify_eq.
Qed.

(** The handler up to the booking proper: it answers on its own with the
    tables as they were, or it has found the caller's business and a lead
    of that business. *)
Lemma post_meetings_booking req w res w' :
  post_meetings req w = (res, w') →
  (only_reads w w' ∧ ∀ message meeting, res ≠ Json 201 message meeting)
  ∨ ∃ business lead credentials w1 r,
      valid req = true
      ∧ filter (fun b => Business.user_id b = userId req) (businesses (db w)) = [business]
      ∧ filter (fun l => Lead.id l = leadId req) (leads (db w)) = [lead]
      ∧ Lead.business_id lead = Business.id business
      ∧ db w1 = db w
      ∧ bookMeeting req business lead credentials w1 = (r, w')
      ∧ res = match r with Ret answer => answer | Throw e => Next e end
      ∧ grows is_read w w1
      ∧ ∀ found, credentials = Some found →
          filter (fun c => CalendarIntegration.user_id c = userId req
                           ∧ CalendarIntegration.provider c = "google")
            (calendar_integrations (db w)) = [found].
Proof.
  unfold post_meetings. intros Hrun.
  destruct (valid req) eqn:Hvalid; cbn [negb] in Hrun.
  2: { left. unfold mret, M_ret in Hrun. by simplify_eq. }
  match type of Hrun with
  | match ?m w with _ => _ end = _ => destruct (m w) as [r0 w0] eqn:Hh
  end.
  assert (res = match r0 with Ret answer => answer | Throw e => Next e end ∧ w0 = w')
    as [-> ->] by (destruct r0; by simplify_eq).
  clear Hrun.
  apply bind_inv in Hh as [(business & w1 & Hb & Hh) | (e & Hb & ->)];
    pose proof (getBusinessByUserId_reads _ _ _ _ Hb) as R1;
    pose proof R1 as [D1 _]; [| by left].
  destruct business as [business |];
    [| left; unfold mret, M_ret in Hh; by simplify_eq].
  apply getBusinessByUserId_runs in Hb.
  apply bind_inv in Hh as [(lead & w2 & Hl & Hh) | (e & Hl & ->)];
    pose proof (getLeadById_reads _ _ _ _ Hl) as R2;
    pose proof R2 as [D2 _];
    [| left; split; [by etransitivity | done]].
  apply getLeadById_runs in Hl. rewrite D1 in Hl.
  assert (only_reads w w2) as R02 by (by etransitivity).
  destruct (String.eqb_spec (Lead.business_id lead) (Business.id business))
    as [Hown | Hother]; cbn [negb] in Hh.
  2: { left. unfold mret, M_ret in Hh. by simplify_eq. }
  apply bind_inv in Hh as [(credentials & w3 & Hc & Hh) | (e & Hc & ->)];
    pose proof (getCalendarCredentials_reads _ _ _ _ _ Hc) as R3;
    [| left; split; [by etransitivity | done]].
  right. exists business, lead, credentials, w3, r0.
  do 4 (split; [done |]).
  assert (only_reads w w3) as [D03 G03] by (by etransitivity).
  split; [done |]. split; [done |]. split; [done |]. split; [done |].
  intros found ->. apply getCalendarCredentials_runs in Hc. congruence.
Qed.

(** X10.  [POST /api/scheduling/meetings] changes [meetings] only by
    appending one row, and only for a request that passed validation, for
    the one business of the caller and the one lead with the requested id,
    which belongs to that business.  The row carries that lead, that
    business and the requested title, times and time zone, and its status
    is "scheduled". *)
Theorem post_meetings_stores_own_meeting (req : request) (w w' : world) (res : response) :
  post_meetings req w = (res, w') →
  meetings (db w') ≠ meetings (db w) →
  ∃ business lead googleEventId row,
    valid req = true
    ∧ filter (fun b => Business.user_id b = userId req) (businesses (db w)) = [business]
    ∧ filter (fun l => Lead.id l = leadId req) (leads (db w)) = [lead]
    ∧ Lead.business_id lead = Business.id business
    ∧ meetings (db w') = meetings (db w) ++ [row]
    ∧ row_of req business googleEventId row.
Proof.
  intros Hrun Hchanged.
  apply post_meetings_booking in Hrun
    as [[[Hdb _] _] | (business & lead & credentials & w1 & r & Hvalid & Hb & Hl & Hown
                       & Hdb1 & Hbook & _)];
    [by rewrite Hdb in Hchanged |].
  apply bookMeeting_persists in Hbook
    as [[Hdb _] | (googleEventId & w2 & Hdb2 & _ & Hpersist)];
    [rewrite Hdb, Hdb1 in Hchanged; done |].
  apply persistMeeting_stores in Hpersist as [[Hdb _] | (row & Hrow & Hm & _)];
    [rewrite Hdb, Hdb2, Hdb1 in Hchanged; done |].
  exists business, lead, googleEventId, row.
  do 4 (split; [done |]). split; [by rewrite Hm, Hdb2, Hdb1 | done].
Qed.

(** X11.  When [POST /api/scheduling/meetings] answers 201, the answer
    carries the row it appended to [meetings].  If the status of the lead
    was "new", the rows of [leads] with the lead's id now have the status
    "qualified" and a new [updated_at], and no other row of [leads] has
    changed; otherwise [leads] is as before. *)
Theorem post_meetings_created (req : request) (w w' : world)
    (message : string) (meeting : option Meeting.t) :
  post_meetings req w = (Json 201 message meeting, w') →
  ∃ lead row,
    filter (fun l => Lead.id l = leadId req) (leads (db w)) = [lead]
    ∧ message = "Meeting created successfully"
    ∧ meeting = Some row
    ∧ meetings (db w') = meetings (db w) ++ [row]
    ∧ if String.eqb (Lead.status lead) "new"
      then ∃ at_, leads (db w')
                  = LeadModel.update_where_id (leadId req)
                      (LeadModel.with_status "qualified" at_) (leads (db w))
      else leads (db w') = leads (db w).
Proof.
  intros Hrun.
  apply post_meetings_booking in Hrun
    as [[_ Hno] | (business & lead & credentials & w1 & r & _ & _ & Hl & _
                   & Hdb1 & Hbook & Hres & _)];
    [by destruct (Hno message meeting) |].
  apply bookMeeting_persists in Hbook
    as [[_ [-> | [e ->]]] | (googleEventId & w2 & Hdb2 & _ & Hpersist)]; [done | done |].
  apply persistMeeting_stores in Hpersist
    as [[_ [e ->]] | (row & _ & Hm & Hleads)]; [done |].
  exists lead, row. split; [done |].
  rewrite Hm, Hdb2, Hdb1.
  destruct (String.eqb (Lead.status lead) "new").
  - destruct Hleads as [[_ [e ->]] | [-> [at_ Hleads]]]; [done |].
    simplify_eq. do 3 (split; [done |]). exists at_. by rewrite Hleads, Hdb2, Hdb1.
  - destruct Hleads as [-> Hleads]. simplify_eq.
    do 3 (split; [done |]). by rewrite Hleads, Hdb2, Hdb1.
Qed.

(** The one event a booking asks Google Calendar to create. *)
Lemma bookMeeting_event req business lead credentials w r w' evs token ev answer :
  bookMeeting req business lead credentials w = (r, w') →
  trace w' = trace w ++ evs →
  In (EventsInsert token ev answer) evs →
  ∃ found post,
    credentials = Some found
    ∧ token = CalendarIntegration.refresh_token found
    ∧ ev = event_of req lead
    ∧ evs = [FreeBusy token (IsoText (startTime req)) (IsoText (endTime req)) (Some []);
             EventsInsert token ev answer] ++ post
    ∧ Forall is_db post.
Proof.
  intros Hrun Htr Hin.
  assert (∀ wa, grows not_calendar wa w' → trace wa = trace w → False) as Hquiet.
  { intros wa (evs' & Htr' & Hall) Heq. rewrite Heq, Htr in Htr'.
    apply app_inv_head in Htr' as <-. by apply (Forall_In _ _ _ Hall) in Hin. }
  destruct credentials as [found |].
  2: { exfalso. apply (Hquiet w); [| done].
       unfold bookMeeting, createRemoteEvent in Hrun.
       unfold mret, M_ret, mbind, M_bind in Hrun.
       eapply persistMeeting_footprint; [| exact Hrun]. by intros [| | | | |]. }
  unfold bookMeeting, createRemoteEvent in Hrun.
  apply bind_inv in Hrun as [(a & w1 & Hremote & Hrest) | (e & Hremote & ->)];
    apply bind_inv in Hremote
      as [(isAvailable & w2 & Hcheck & Hremote) | (e' & Hcheck & ?)];
    apply checkAvailability_runs in Hcheck as [(busySlots & ? & ->) | [? ->]];
    simplify_eq.
  - destruct busySlots as [| b busySlots]; cbn in Hremote.
    + apply bind_inv in Hremote as [(eventId & w3 & Hcreate & Hret) | (e & Hcreate & ?)];
        [| done].
      unfold mret, M_ret in Hret. simplify_eq.
      unfold CalendarService.createMeeting, CalendarService.insert_event in Hcreate.
      run_unfold Hcreate.
      destruct (events_insert _ _ _) as [id |] eqn:Hanswer; simplify_eq.
      assert (grows is_db
                (record (EventsInsert (CalendarIntegration.refresh_token found)
                           (event_of req lead) (Some eventId))
                   (record (FreeBusy (CalendarIntegration.refresh_token found)
                              (IsoText (startTime req)) (IsoText (endTime req))
                              (Some [])) w)) w') as (post & Htr' & Hpost).
      { eapply persistMeeting_footprint; [| exact Hrest]. done. }
      cbn in Htr'. rewrite Htr, <- !app_assoc in Htr'.
      apply app_inv_head in Htr'. subst evs.
      destruct Hin as [? | [Hin | Hin]]; [done | |].
      * simplify_eq. exists found, post. done.
      * by apply (Forall_In _ _ _ Hpost) in Hin.
    + unfold mret, M_ret in Hremote, Hrest. simplify_eq. cbn in Htr.
      apply app_inv_head in Htr. subst evs. by destruct Hin as [? | []].
  - destruct busySlots as [| b busySlots]; cbn in Hremote.
    + apply bind_inv in Hremote as [(eventId & w3 & Hcreate & Hret) | (e0 & Hcreate & ?)];
        [by unfold mret, M_ret in Hret |].
      unfold CalendarService.createMeeting, CalendarService.insert_event in Hcreate.
      run_unfold Hcreate.
      destruct (events_insert _ _ _) as [id |] eqn:Hanswer; simplify_eq.
      cbn in Htr. rewrite <- !app_assoc in Htr.
      apply app_inv_head in Htr. subst evs.
      destruct Hin as [? | [Hin | [? | []]]]; [done | | done].
      simplify_eq. exists found, [ConsoleError "Google Calendar Event Creation Error:"].
      do 4 (split; [done |]). by repeat constructor.
    + by unfold mret, M_ret in Hremote.
  - cbn in Htr. rewrite <- !app_assoc in Htr.
    apply app_inv_head in Htr. subst evs. by destruct Hin as [? | [? | []]].
Qed.

(** X20.  An event that [POST /api/scheduling/meetings] asks Google
    Calendar to create is created with the refresh token of the one
    Google integration of the caller, right after a free/busy query for
    the requested window that reported nothing busy, and after reads
    only.  It has the requested title, times and time zone, the
    requested description or the empty text, the requested location if
    it is not empty, and the e-mail address of the lead as only attendee
    if the lead has one. *)
Theorem post_meetings_calendar_event (req : request) (w w' : world) (res : response)
    (evs : list event) (token : string) (ev : calendar_event)
    (answer : option string) :
  post_meetings req w = (res, w') →
  trace w' = trace w ++ evs →
  In (EventsInsert token ev answer) evs →
  ∃ lead found reads post,
    filter (fun l => Lead.id l = leadId req) (leads (db w)) = [lead]
    ∧ filter (fun c => CalendarIntegration.user_id c = userId req
                       ∧ CalendarIntegration.provider c = "google")
        (calendar_integrations (db w)) = [found]
    ∧ token = CalendarIntegration.refresh_token found
    ∧ ev = event_of req lead
    ∧ evs = reads
            ++ [FreeBusy token (IsoText (startTime req)) (IsoText (endTime req))
                  (Some []);
                EventsInsert token ev answer]
            ++ post
    ∧ Forall is_read reads ∧ Forall is_db post.
Proof.
  intros Hrun Htr Hin.
  apply post_meetings_booking in Hrun
    as [[[_ Hreads] _] | (business & lead & credentials & w1 & r & _ & _ & Hl & _
                          & Hdb1 & Hbook & _ & (reads & Htr1 & Hreads) & Hfound)].
  { eapply grows_events in Hreads; [| exact Htr].
    by apply (Forall_In _ _ _ Hreads) in Hin. }
  assert (∃ rest, trace w' = trace w1 ++ rest) as [rest Htr2].
  { pose proof (bookMeeting_runs _ _ _ _ _ _ _ Hbook)
      as [(? & ? & _ & _ & ->) | (rest & ? & _)]; [by eexists [_] | by exists rest]. }
  rewrite Htr2, Htr1, <- app_assoc in Htr. apply app_inv_head in Htr. subst evs.
  apply in_app_or in Hin as [Hin | Hin];
    [by apply (Forall_In _ _ _ Hreads) in Hin |].
  destruct (bookMeeting_event _ _ _ _ _ _ _ _ _ _ _ Hbook Htr2 Hin)
    as (found & post & -> & -> & -> & -> & Hpost).
  exists lead, found, reads, post.
  split; [done |]. split; [by apply Hfound |]. done.
Qed.

End Meetings.

(** X10 at work: Acme books Ada on a free Monday morning. *)
Lemma post_meetings_stores_own_meeting_witness :
  ∃ row,
    meetings (db (snd (@post_meetings (outside (Some []) (Some "evt-1") None) iso_shape
                         monday_booking acme_world)))
    = meetings (db acme_world) ++ [row]
    ∧ Meeting.business_id row = "biz-1"
    ∧ Meeting.lead_id row = "lead-1".
Proof.
  destruct (@post_meetings_stores_own_meeting
              (outside (Some []) (Some "evt-1") None) iso_shape
              monday_booking acme_world
              (snd (@post_meetings (outside (Some []) (Some "evt-1") None) iso_shape
                      monday_booking acme_world))
              (fst (@post_meetings (outside (Some []) (Some "evt-1") None) iso_shape
                      monday_booking acme_world)))
    as (business & lead & googleEventId & row & _ & Hb & _ & _ & Hm
        & Hlead & Hbusiness & _).
  - apply surjective_pairing.
  - vm_compute. discriminate.
  - vm_compute in Hb. injection Hb as <-.
    exists row. split; [exact Hm |]. split; [exact Hbusiness | exact Hlead].
Defined.

(** X11 at work: Ada was a new lead. *)
Lemma post_meetings_created_witness :
  ∃ at_,
    leads (db (snd (@post_meetings (outside (Some []) (Some "evt-1") None) iso_shape
                      monday_booking acme_world)))
    = LeadModel.update_where_id "lead-1" (LeadModel.with_status "qualified" at_) [ada].
Proof.
  assert (∃ message meeting,
            @post_meetings (outside (Some []) (Some "evt-1") None) iso_shape
              monday_booking acme_world
            = (Json 201 message meeting,
               snd (@post_meetings (outside (Some []) (Some "evt-1") None) iso_shape
                      monday_booking acme_world))) as (message & meeting & Hrun).
  { eexists _, _. vm_compute. reflexivity. }
  destruct (@post_meetings_created (outside (Some []) (Some "evt-1") None) iso_shape
              monday_booking acme_world _ message meeting Hrun)
    as (lead & row & Hl & _ & _ & _ & Hleads).
  vm_compute in Hl. injection Hl as <-. exact Hleads.
Defined.

(** X20 at work: Ada is invited to the Monday call. *)
Lemma post_meetings_calendar_event_witness :
  ∃ ev,
    In (EventsInsert "token" ev (Some "evt-1"))
      (trace (snd (@post_meetings (outside (Some []) (Some "evt-1") None) iso_shape
                     monday_booking acme_world)))
    ∧ attendees ev = ["ada@example.com"].
Proof.
  assert (∃ ev,
            In (EventsInsert "token" ev (Some "evt-1"))
              (trace (snd (@post_meetings (outside (Some []) (Some "evt-1") None)
                             iso_shape monday_booking acme_world))))
    as [ev Hin].
  { eexists. vm_compute. repeat first [left; reflexivity | right]. }
  destruct (@post_meetings_calendar_event (outside (Some []) (Some "evt-1") None)
              iso_shape monday_booking acme_world
              (snd (@post_meetings (outside (Some []) (Some "evt-1") None) iso_shape
                      monday_booking acme_world))
              (fst (@post_meetings (outside (Some []) (Some "evt-1") None) iso_shape
                      monday_booking acme_world))
              (trace (snd (@post_meetings (outside (Some []) (Some "evt-1") None)
                             iso_shape monday_booking acme_world)))
              "token" ev (Some "evt-1"))
    as (lead & found & reads & post & Hl & _ & _ & Hev & _).
  - apply surjective_pairing.
  - reflexivity.
  - exact Hin.
  - exists ev. split; [exact Hin |].
    vm_compute in Hl. injection Hl as <-. rewrite Hev. reflexivity.
Defined.

End MeetingFacts.

(* ===================================================================== *)
(** * Properties of the conversation queries *)
(* ===================================================================== *)

Module ConversationModelFacts.
Import Vocabulary Runs ConversationModel.

#[export] Instance sent_before_trans : Transitive (flip sent_before).
Proof. unfold flip, sent_before. intros a b c. lia. Qed.

#[export] Instance sent_before_total : Total (flip sent_before).
Proof. unfold flip, sent_before. intros a b. lia. Qed.

#[export] Instance started_before_trans : Transitive (flip started_before).
Proof. unfold flip, started_before. intros a b c. lia. Qed.

#[export] Instance started_before_total : Total (flip started_before).
Proof. unfold flip, started_before. intros a b. lia. Qed.

Lemma StronglySorted_reverse {A} (R : relation A) (l : list A) :
  StronglySorted R l → StronglySorted (flip R) (reverse l).
Proof.
  induction 1 as [| x l Hl IH Hx]; [constructor |].
  rewrite reverse_cons. apply StronglySorted_app_2; [| done | by repeat constructor].
  intros a b Ha Hb. apply list_elem_of_singleton in Hb as ->.
  rewrite elem_of_reverse in Ha. unfold flip.
  by eapply Forall_forall in Hx.
Qed.

Section Queries.
Context `{Providers}.

(** X12.  What [getRecentMessages] returns: as many rows of the
    conversation as there are, up to [limit]; oldest first; and no row of
    the conversation that was left out is newer than a returned one.  The
    tables are not changed. *)
Theorem getRecentMessages_newest (conversationId : string) (limit : nat)
    (w w' : world) (rows : list Message.t) :
  getRecentMessages conversationId limit w = (Ret rows, w') →
  db w' = db w
  ∧ length rows
    = (limit `min` length (of_conversation conversationId (messages (db w))))%nat
  ∧ StronglySorted sent_before rows
  ∧ ∃ older,
      rows ++ older ≡ₚ of_conversation conversationId (messages (db w))
      ∧ ∀ m r, m ∈ older → r ∈ rows → sent_before m r.
Proof.
  intros Hrun. unfold getRecentMessages in Hrun. run_unfold Hrun.
  destruct (db_fault (tick w)); simplify_eq. cbn.
  set (all := of_conversation conversationId (messages (db w))).
  pose proof (StronglySorted_merge_sort (flip sent_before) all) as Hsorted.
  pose proof (merge_sort_Permutation (flip sent_before) all) as Hperm.
  fold (newest_first all) in Hsorted, Hperm.
  rewrite <- (take_drop limit (newest_first all)) in Hsorted.
  split; [done |]. split.
  { by rewrite length_reverse, length_take, Hperm. }
  split.
  { apply StronglySorted_app_1_l, StronglySorted_reverse in Hsorted.
    exact Hsorted. }
  exists (drop limit (newest_first all)). split.
  - by rewrite reverse_Permutation, take_drop.
  - intros m r Hm Hr. rewrite elem_of_reverse in Hr.
    by apply (StronglySorted_app_1_elem_of _ _ _ _ _ Hsorted Hr Hm).
Qed.

(** X13.  [getActiveConversationByLeadId] leaves the tables alone.  The
    conversation it returns is an active conversation of the lead that no
    other active conversation of the lead is newer than; it returns
    [null] when the lead has no active conversation (or the database
    answers with the code PGRST116), and throws for any other error of
    the database. *)
Theorem getActiveConversationByLeadId_newest (leadId : string) (w w' : world)
    (r : outcome (option Conversation.t)) :
  getActiveConversationByLeadId leadId w = (r, w') →
  let active c := Conversation.lead_id c = leadId ∧ Conversation.status c = "active" in
  db w' = db w
  ∧ match r with
    | Ret (Some c) =>
        c ∈ conversations (db w) ∧ active c
        ∧ ∀ c', c' ∈ conversations (db w) → active c' → started_before c' c
    | Ret None =>
        (∀ c', c' ∈ conversations (db w) → ¬ active c')
        ∨ ∃ e, db_fault (tick w) = Some e ∧ is_pgrst116 e = true
    | Throw error =>
        ∃ e, db_fault (tick w) = Some e ∧ is_pgrst116 e = false
             ∧ error = new_Error ("Failed to fetch active conversation: "
                                  +:+ err_message e)
    end.
Proof.
  intros Hrun active. unfold getActiveConversationByLeadId in Hrun. run_unfold Hrun.
  destruct (db_fault (tick w)) as [e |].
  { cbn in Hrun. destruct (is_pgrst116 e) eqn:Hcode; simplify_eq; cbn; eauto 10. }
  set (found := filter (fun c => Conversation.lead_id c = leadId
                                 ∧ Conversation.status c = "active")
                  (conversations (db w))) in *.
  pose proof (StronglySorted_merge_sort (flip started_before) found) as Hsorted.
  pose proof (merge_sort_Permutation (flip started_before) found) as Hperm.
  fold (newest_conversation_first found) in Hsorted, Hperm.
  destruct (newest_conversation_first found) as [| c rest] eqn:Hnewest;
    cbn in Hrun; [| rewrite take_0 in Hrun; cbn in Hrun]; simplify_eq; cbn.
  - split; [done |]. left. intros c' Hin Hactive.
    assert (c' ∈ found) as Hfound by (by apply list_elem_of_filter).
    rewrite <- Hperm in Hfound. by apply elem_of_nil in Hfound.
  - split; [done |].
    assert (c ∈ found) as Hc by (rewrite <- Hperm; by left).
    apply list_elem_of_filter in Hc as [Hactive Hc].
    split; [done |]. split; [done |].
    intros c' Hin Hactive'.
    assert (c' ∈ found) as Hfound by (by apply list_elem_of_filter).
    rewrite <- Hperm in Hfound.
    apply elem_of_cons in Hfound as [-> | Hrest]; [unfold started_before; lia |].
    apply StronglySorted_cons in Hsorted as [Hc' _].
    by eapply Forall_forall in Hc'.
Qed.

End Queries.

(** X12 at work: the newest message of the long conversation is the
    answer of the lead. *)
Lemma getRecentMessages_newest_witness :
  ∃ older,
    [answer] ++ older ≡ₚ of_conversation "conv-1" (messages (db long_conversation))
    ∧ ∀ m r, m ∈ older → r ∈ [answer] → sent_before m r.
Proof.
  destruct (@getRecentMessages_newest (outside None None None) "conv-1" 1
              long_conversation
              (snd (@getRecentMessages (outside None None None) "conv-1" 1
                      long_conversation))
              [answer])
    as (_ & _ & _ & Holder).
  - vm_compute. reflexivity.
  - exact Holder.
Defined.

(** X13 at work: of Ada's three conversations the second is the newest
    active one. *)
Lemma getActiveConversationByLeadId_newest_witness :
  chat "conv-2" "active" 30 ∈ conversations (db three_chats)
  ∧ started_before (chat "conv-1" "active" 10) (chat "conv-2" "active" 30).
Proof.
  destruct (@getActiveConversationByLeadId_newest (outside None None None) "lead-1"
              three_chats
              (snd (@getActiveConversationByLeadId (outside None None None) "lead-1"
                      three_chats))
              (Ret (Some (chat "conv-2" "active" 30))))
    as (_ & Hin & _ & Hnewest).
  - vm_compute. reflexivity.
  - split; [exact Hin |]. apply Hnewest.
    + left.
    + split; reflexivity.
Defined.

End ConversationModelFacts.

(* ===================================================================== *)
(** * What the extraction can find *)
(* ===================================================================== *)

Module ExtractionFacts.
Import Vocabulary ConversationService.

Lemma remove_commas_no_comma (s : string) : includes (remove_commas s) "," = false.
Proof.
  induction s as [| c s IH]; [done |].
  cbn [remove_commas]. destruct (Ascii.eqb_spec c ","%char) as [-> | Hc]; [done |].
  cbn [includes String.prefix]. rewrite IH.
  destruct (ascii_dec ","%char c) as [<- |]; done.
Qed.

Section Extraction.
Context `{JsString}.

(** Where an entry of the extracted data can come from: a message, the
    fields asked for, the key and the value. *)
Lemma analyse_entries (P : string → jsval → Prop) field content qd :
  (∀ group1, field = "budget" → includes content "budget" = true →
             match_budget content = Some group1 →
             P "budget" (JStr (remove_commas group1))) →
  (field = "timeline" →
   includes content "timeline" || includes content "time frame" = true →
   (includes content "month" = true → P "timeline" (JStr "months"))
   ∧ (includes content "month" = false → includes content "week" = true →
      P "timeline" (JStr "weeks"))
   ∧ (includes content "month" = false → includes content "week" = false →
      includes content "day" = true → P "timeline" (JStr "days"))) →
  (∀ key value, qd !! key = Some value → P key value) →
  ∀ key value, analyse field content qd !! key = Some value → P key value.
Proof.
  intros Hbudget Htimeline Hqd. unfold analyse.
  set (qd1 := if String.eqb field "budget" && includes content "budget"
              then match match_budget content with
                   | Some group1 => <["budget" := JStr (remove_commas group1)]> qd
                   | None => qd
                   end
              else qd).
  assert (∀ key value, qd1 !! key = Some value → P key value) as Hqd1.
  { subst qd1. destruct (String.eqb_spec field "budget") as [Hfield |]; [| done].
    destruct (includes content "budget") eqn:Hincl; [| done]. cbn.
    destruct (match_budget content) as [group1 |] eqn:Hmatch; [| done].
    intros key value Hlook. apply lookup_insert_Some in Hlook as [[<- <-] | [_ Hlook]];
      [by apply Hbudget | by apply Hqd]. }
  clearbody qd1.
  destruct (String.eqb_spec field "timeline") as [Hfield |]; [| done].
  destruct (includes content "timeline" || includes content "time frame") eqn:Hincl;
    [| done].
  cbn. destruct (Htimeline Hfield eq_refl) as (Hmonths & Hweeks & Hdays).
  destruct (includes content "month") eqn:Hmonth.
  { intros key value Hlook. apply lookup_insert_Some in Hlook as [[<- <-] | [_ Hlook]];
      [by apply Hmonths | by apply Hqd1]. }
  destruct (includes content "week") eqn:Hweek.
  { intros key value Hlook. apply lookup_insert_Some in Hlook as [[<- <-] | [_ Hlook]];
      [by apply Hweeks | by apply Hqd1]. }
  destruct (includes content "day") eqn:Hday; [| done].
  intros key value Hlook. apply lookup_insert_Some in Hlook as [[<- <-] | [_ Hlook]];
    [by apply Hdays | by apply Hqd1].
Qed.

(** X14.  Every entry of the data the extraction collects is a budget or
    a timeline, it was asked for, and it comes from a message written by
    the lead: a budget is the first group of the budget pattern matched
    on the lower-cased text, with its commas removed; a timeline is
    "months", "weeks" or "days" according to the first of "month", "week"
    and "day" the text contains, for a text that contains "timeline" or
    "time frame". *)
Theorem scan_fields_entries (fields : list string) (rows : list Message.t)
    (key : string) (value : jsval) :
  scan_fields fields rows !! key = Some value →
  ∃ m, m ∈ rows ∧ Message.is_from_lead m = true
       ∧ let content := toLowerCase (Message.content m) in
         (key = "budget" ∧ "budget" ∈ fields
          ∧ includes content "budget" = true
          ∧ ∃ group1, match_budget content = Some group1
                      ∧ value = JStr (remove_commas group1)
                      ∧ includes (remove_commas group1) "," = false)
         ∨ (key = "timeline" ∧ "timeline" ∈ fields
            ∧ includes content "timeline" || includes content "time frame" = true
            ∧ (value = JStr "months" ∧ includes content "month" = true
               ∨ value = JStr "weeks" ∧ includes content "month" = false
                 ∧ includes content "week" = true
               ∨ value = JStr "days" ∧ includes content "month" = false
                 ∧ includes content "week" = false
                 ∧ includes content "day" = true)).
Proof.
  set (P := fun key value =>
    ∃ m, m ∈ rows ∧ Message.is_from_lead m = true
         ∧ let content := toLowerCase (Message.content m) in
           (key = "budget" ∧ "budget" ∈ fields
            ∧ includes content "budget" = true
            ∧ ∃ group1, match_budget content = Some group1
                        ∧ value = JStr (remove_commas group1)
                        ∧ includes (remove_commas group1) "," = false)
           ∨ (key = "timeline" ∧ "timeline" ∈ fields
              ∧ includes content "timeline" || includes content "time frame" = true
              ∧ (value = JStr "months" ∧ includes content "month" = true
                 ∨ value = JStr "weeks" ∧ includes content "month" = false
                   ∧ includes content "week" = true
                 ∨ value = JStr "days" ∧ includes content "month" = false
                   ∧ includes content "week" = false
                   ∧ includes content "day" = true))).
  revert key value. change (∀ key value, scan_fields fields rows !! key = Some value
                                         → P key value).
  assert (∀ field scanned qd,
            field ∈ fields → (∀ m, m ∈ scanned → m ∈ rows) →
            (∀ key value, qd !! key = Some value → P key value) →
            ∀ key value, scan_messages field scanned qd !! key = Some value
                         → P key value) as Hmessages.
  { intros field scanned. unfold scan_messages.
    induction scanned as [| m scanned IH]; intros qd Hfield Hsub Hqd; [done |].
    cbn [foldl]. apply IH; [done | by intros; apply Hsub; right |].
    destruct (Message.is_from_lead m) eqn:Hlead; cbn [negb]; [| done].
    assert (m ∈ rows) as Hm by (apply Hsub; by left).
    apply analyse_entries; [| | done].
    - intros group1 -> Hincl Hmatch. exists m. split; [done |]. split; [done |].
      left. do 3 (split; [done |]). exists group1.
      split; [done |]. split; [done | apply remove_commas_no_comma].
    - intros -> Hincl. split; [| split].
      + intros ?. exists m. do 2 (split; [done |]). right. do 3 (split; [done |]).
        by left.
      + intros ? ?. exists m. do 2 (split; [done |]). right. do 3 (split; [done |]).
        right. by left.
      + intros ? ? ?. exists m. do 2 (split; [done |]). right. do 3 (split; [done |]).
        right. by right. }
  unfold scan_fields.
  assert (∀ asked qd,
            (∀ field, field ∈ asked → field ∈ fields) →
            (∀ key value, qd !! key = Some value → P key value) →
            ∀ key value,
              foldl (fun qd field => scan_messages field rows qd) qd asked !! key
              = Some value → P key value) as Hfields.
  { induction asked as [| field asked IH]; intros qd Hsub Hqd; [done |].
    cbn [foldl]. apply IH; [by intros; apply Hsub; right |].
    apply Hmessages; [apply Hsub; by left | done | done]. }
  apply Hfields; [done |]. intros key value Hlook. by rewrite lookup_empty in Hlook.
Qed.

End Extraction.

(** X14 at work: the answer of the lead names her budget. *)
Lemma scan_fields_entries_witness :
  ∃ m, m ∈ [answer] ∧ Message.is_from_lead m = true
       ∧ ∃ group1, match_budget_ascii (lower (Message.content m)) = Some group1
                   ∧ JStr "5000" = JStr (remove_commas group1).
Proof.
  destruct (@scan_fields_entries ascii_strings ["budget"; "timeline"] [answer]
              "budget" (JStr "5000"))
    as (m & Hm & Hlead & [(_ & _ & _ & group1 & Hmatch & Hvalue & _) | (Hkey & _)]).
  - vm_compute. reflexivity.
  - exists m. split; [exact Hm |]. split; [exact Hlead |].
    exists group1. split; [exact Hmatch | exact Hvalue].
  - discriminate Hkey.
Defined.

End ExtractionFacts.

(* ===================================================================== *)
(** * The start of a conversation *)
(* ===================================================================== *)

Module LeadConversationFacts.
Import Vocabulary PipelineVocabulary StartVocabulary Runs LeadConversation
  BookingFacts ConversationFacts PipelineFacts MeetingFacts.

Section Start.
Context `{Providers} `{JsString}.

Lemma greeting_for_nonempty config business :
  String.eqb (greeting_for config business) "" = false.
Proof.
  unfold greeting_for, CalendarService.if_truthy.
  destruct (AssistantConfig.greeting_message config) as [text |]; [| done].
  by destruct (String.eqb text "") eqn:Htext.
Qed.

(** A conversation keeps its identity when a message is added to it. *)
Lemma addMessage_conversations conversationId content isFromLead metadata w r w' :
  ConversationModel.addMessage conversationId content isFromLead metadata w = (r, w') →
  ∀ c, c ∈ conversations (db w) →
       ∃ c', c' ∈ conversations (db w') ∧ same_conversation c c'.
Proof.
  intros Hrun c Hc. unfold ConversationModel.addMessage in Hrun. run_unfold Hrun.
  destruct (db_fault (tick w)); simplify_eq; [by exists c |].
  destruct (db_fault _); simplify_eq; cbn; [by exists c |].
  eexists. split; [apply list_elem_of_fmap; eexists; split; [reflexivity | exact Hc] |].
  by case_decide.
Qed.

Lemma startConversation_db_only leadId businessId initialMessage :
  respects (grows is_db)
    (ConversationModel.startConversation leadId businessId initialMessage).
Proof. respects_auto. Qed.

(** [startConversation] with a message to begin with. *)
Lemma startConversation_with_message leadId businessId text w conversation w' :
  String.eqb text "" = false →
  ConversationModel.startConversation leadId businessId (Some text) w
  = (Ret conversation, w') →
  Conversation.lead_id conversation = leadId
  ∧ Conversation.business_id conversation = businessId
  ∧ Conversation.status conversation = "active"
  ∧ leads (db w') = leads (db w)
  ∧ (∃ c, c ∈ conversations (db w') ∧ same_conversation conversation c)
  ∧ ∃ m, messages (db w') = messages (db w) ++ [m]
         ∧ Message.conversation_id m = Conversation.id conversation
         ∧ Message.content m = text
         ∧ Message.is_from_lead m = false.
Proof.
  intros Htext Hrun. unfold ConversationModel.startConversation in Hrun.
  rewrite Htext in Hrun. run_unfold Hrun.
  destruct (db_fault (tick w)); [by simplify_eq |]. cbn in Hrun.
  match type of Hrun with
  | context [ConversationModel.addMessage ?i ?t ?f ?d ?w1] =>
      destruct (ConversationModel.addMessage i t f d w1) as [[stored | e] w4] eqn:Hadd
  end; simplify_eq.
  pose proof (addMessage_leads_kept _ _ _ _ _ _ _ Hadd) as [Hleads _].
  pose proof (addMessage_conversations _ _ _ _ _ _ _ Hadd) as Hsame.
  apply addMessage_runs in Hadd as [(m & _ & Hm & ? & ? & ?) | (? & ? & _)]; [| done].
  cbn in *. do 3 (split; [done |]). split; [exact Hleads |]. split.
  - apply Hsame, elem_of_app. right. by left.
  - by exists m.
Qed.

Lemma getBusinessById_reads businessId :
  respects only_reads (BusinessModel.getBusinessById businessId).
Proof. respects_auto. Qed.

Lemma getAssistantConfig_reads businessId :
  respects only_reads (BusinessModel.getAssistantConfig businessId).
Proof. respects_auto. Qed.

Lemma getBusinessById_runs businessId w business w' :
  BusinessModel.getBusinessById businessId w = (Ret business, w') →
  filter (fun b => Business.id b = businessId) (businesses (db w)) = [business].
Proof.
  intros Hrun. unfold BusinessModel.getBusinessById in Hrun. run_unfold Hrun.
  destruct (db_fault (tick w)) as [e |]; [by simplify_eq |].
  destruct (filter _ _) as [| b [| ? ?]]; cbn in Hrun; by simplify_eq.
Qed.

Lemma getAssistantConfig_runs businessId w config w' :
  BusinessModel.getAssistantConfig businessId w = (Ret (Some config), w') →
  filter (fun c => AssistantConfig.business_id c = businessId)
    (assistant_configs (db w)) = [config].
Proof.
  intros Hrun. unfold BusinessModel.getAssistantConfig in Hrun. run_unfold Hrun.
  destruct (db_fault (tick w)) as [e |].
  { cbn in Hrun. destruct (is_pgrst116 e); by simplify_eq. }
  destruct (filter _ _) as [| c [| ? ?]]; cbn in Hrun; by simplify_eq.
Qed.

Lemma only_reads_db_only w w' : only_reads w w' → grows is_db w w'.
Proof.
  intros [_ Hreads]. eapply grows_weaken; [| exact Hreads].
  intros [? [] ? | | | | |]; done.
Qed.

(** A run of [startLeadConversation] calls the database only, or it
    reaches Twilio once, with the conversation and the greeting stored. *)
Lemma startLeadConversation_inv leadId businessId w r w' :
  startLeadConversation leadId businessId w = (r, w') →
  grows is_db w w'
  ∨ ∃ lead business config phone c m from to error pre post,
      filter (fun l => Lead.id l = leadId) (leads (db w)) = [lead]
      ∧ filter (fun b => Business.id b = businessId) (businesses (db w)) = [business]
      ∧ filter (fun c => AssistantConfig.business_id c = businessId)
          (assistant_configs (db w)) = [config]
      ∧ CalendarService.if_truthy (Lead.phone lead) = Some phone
      ∧ addresses phone (Lead.contact_channel lead) = Some (from, to)
      ∧ c ∈ conversations (db w')
      ∧ Conversation.lead_id c = leadId
      ∧ Conversation.business_id c = businessId
      ∧ Conversation.status c = "active"
      ∧ messages (db w') = messages (db w) ++ [m]
      ∧ Message.conversation_id m = Conversation.id c
      ∧ Message.content m = greeting_for config business
      ∧ Message.is_from_lead m = false
      ∧ trace w' = trace w ++ pre
                   ++ [TwilioCreate (greeting_for config business) from to error] ++ post
      ∧ Forall is_db pre ∧ Forall is_db post
      ∧ match error with
        | None => ∃ conversation, r = Ret conversation ∧ same_conversation conversation c
        | Some e =>
            r = Throw (new_Error
                         ("Failed to start lead conversation: "
                          +:+ snd (send_failure (Lead.contact_channel lead)) +:+ ": "
                          +:+ err_message e))
        end.
Proof.
  intros Hrun. unfold startLeadConversation in Hrun.
  match type of Hrun with try_catch ?b _ _ = _ => set (body := b) in * end.
  assert (∀ rb wb, body w = (rb, wb) →
            grows is_db w wb
            ∨ ∃ lead business config phone c m from to error pre,
                filter (fun l => Lead.id l = leadId) (leads (db w)) = [lead]
                ∧ filter (fun b => Business.id b = businessId) (businesses (db w))
                  = [business]
                ∧ filter (fun c => AssistantConfig.business_id c = businessId)
                    (assistant_configs (db w)) = [config]
                ∧ CalendarService.if_truthy (Lead.phone lead) = Some phone
                ∧ addresses phone (Lead.contact_channel lead) = Some (from, to)
                ∧ c ∈ conversations (db wb)
                ∧ Conversation.lead_id c = leadId
                ∧ Conversation.business_id c = businessId
                ∧ Conversation.status c = "active"
                ∧ messages (db wb) = messages (db w) ++ [m]
                ∧ Message.conversation_id m = Conversation.id c
                ∧ Message.content m = greeting_for config business
                ∧ Message.is_from_lead m = false
                ∧ Forall is_db pre
                ∧ match error with
                  | None =>
                      trace wb = trace w ++ pre
                                 ++ [TwilioCreate (greeting_for config business)
                                       from to None]
                      ∧ ∃ conversation, rb = Ret conversation
                                        ∧ same_conversation conversation c
                  | Some e =>
                      trace wb = trace w ++ pre
                                 ++ [TwilioCreate (greeting_for config business)
                                       from to (Some e);
                                     ConsoleError
                                       (fst (send_failure (Lead.contact_channel lead)))]
                      ∧ rb = Throw (new_Error
                                      (snd (send_failure (Lead.contact_channel lead))
                                       +:+ ": " +:+ err_message e))
                  end) as Hbody.
  { subst body. clear Hrun. intros rb wb Hbody.
    apply bind_inv in Hbody as [(lead & w1 & H1 & Hbody) | (e & H1 & ->)];
      pose proof (getLeadById_reads _ _ _ _ H1) as R1;
      [| left; by apply only_reads_db_only].
    apply getLeadById_runs in H1.
    apply bind_inv in Hbody as [(business & w2 & H2 & Hbody) | (e & H2 & ->)];
      pose proof (getBusinessById_reads _ _ _ _ H2) as R2;
      [| left; apply only_reads_db_only; by etransitivity].
    apply getBusinessById_runs in H2.
    apply bind_inv in Hbody as [(config & w3 & H3 & Hbody) | (e & H3 & ->)];
      pose proof (getAssistantConfig_reads _ _ _ _ H3) as R3;
      [| left; apply only_reads_db_only; etransitivity; [exact R1 |]; by etransitivity].
    assert (only_reads w w3) as R03
      by (etransitivity; [exact R1 |]; by etransitivity).
    destruct config as [config |];
      [| left; unfold throw in Hbody; simplify_eq; by apply only_reads_db_only].
    apply getAssistantConfig_runs in H3.
    destruct R1 as [D1 _], R2 as [D2 _]. rewrite D1 in H2. rewrite D2, D1 in H3.
    apply bind_inv in Hbody as [(conversation & w4 & H4 & Hbody) | (e & H4 & ->)];
      pose proof (startConversation_db_only _ _ _ _ _ _ H4) as G4;
      [| left; etransitivity; [by apply only_reads_db_only | exact G4]].
    apply startConversation_with_message in H4
      as (Hlead & Hbusiness & Hactive & _ & (c & Hc & Hsame) & m & Hm & Hconv & Hcontent
          & Hflag); [| apply greeting_for_nonempty].
    assert (grows is_db w w4) as G04
      by (etransitivity; [by apply only_reads_db_only | exact G4]).
    destruct R03 as [D03 _]. rewrite D03 in Hm.
    destruct Hsame as (Hid & Hlead' & Hbusiness' & Hactive').
    apply bind_inv in Hbody as [([] & w5 & H5 & Hret) | (e & H5 & ->)].
    - unfold mret, M_ret in Hret. simplify_eq.
      destruct (CalendarService.if_truthy (Lead.phone lead)) as [phone |] eqn:Hphone;
        [| left; unfold mret, M_ret in H5; by simplify_eq].
      apply sendMessage_inv in H5 as [D5 H5].
      destruct (addresses phone (Lead.contact_channel lead)) as [[from to] |] eqn:Haddr;
        [| by destruct H5].
      destruct H5 as [[Htr _] | (e & _ & ?)]; [| done].
      destruct G04 as (pre & Htr4 & Hpre).
      right. exists lead, business, config, phone, c, m, from, to, None, pre.
      rewrite D5. do 5 (split; [done |]).
      split; [done |]. split; [congruence |]. split; [congruence |].
      split; [congruence |]. split; [done |]. split; [congruence |].
      do 3 (split; [done |]).
      split; [by rewrite Htr, Htr4, <- app_assoc |].
      exists conversation. done.
    - destruct (CalendarService.if_truthy (Lead.phone lead)) as [phone |] eqn:Hphone;
        [| by unfold mret, M_ret in H5].
      apply sendMessage_inv in H5 as [D5 H5].
      destruct (addresses phone (Lead.contact_channel lead)) as [[from to] |] eqn:Haddr.
      + destruct H5 as [[_ ?] | (e' & Htr & Hr)]; [done |].
        destruct G04 as (pre & Htr4 & Hpre).
        right. exists lead, business, config, phone, c, m, from, to, (Some e'), pre.
        rewrite D5. do 5 (split; [done |]).
        split; [done |]. split; [congruence |]. split; [congruence |].
        split; [congruence |]. split; [done |]. split; [congruence |].
        do 3 (split; [done |]).
        split; [by rewrite Htr, Htr4, <- app_assoc |]. by simplify_eq.
      + destruct H5 as [-> _]. by left. }
  apply try_catch_inv in Hrun as [(a & Hrun & ->) | (e & w0 & Hrun & Hcatch)];
    destruct (Hbody _ _ Hrun)
      as [Hdb | (lead & business & config & phone & c & m & from & to & error & pre
                 & ? & ? & ? & ? & ? & ? & ? & ? & ? & ? & ? & ? & ? & ? & Hsent)].
  - by left.
  - right. exists lead, business, config, phone, c, m, from, to, error, pre, [].
    do 13 (split; [done |]).
    destruct error as [e |]; destruct Hsent as [Htr Hr]; [done |].
    split; [done |]. split; [done |]. split; [constructor | done].
  - left. unfold rethrow in Hcatch. run_unfold Hcatch. simplify_eq.
    etransitivity; [exact Hdb |]. by apply grows_record.
  - right. unfold rethrow in Hcatch. run_unfold Hcatch. simplify_eq.
    destruct error as [e' |]; destruct Hsent as [Htr Hr]; [| by destruct Hr as (? & ? & _)].
    simplify_eq.
    exists lead, business, config, phone, c, m, from, to, (Some e'), pre,
      [ConsoleError (fst (send_failure (Lead.contact_channel lead)));
       ConsoleError "Start Lead Conversation Error:"].
    do 13 (split; [done |]).
    split; [cbn; rewrite Htr, <- !app_assoc; done |].
    split; [done |]. split; [by repeat constructor | done].
Qed.

(** X15.  A request to Twilio made by a run of [startLeadConversation]
    goes to the phone of the lead on the lead's channel and carries the
    greeting: the greeting of the assistant configuration if it has one,
    else the standard greeting with the name of the business.  By then
    the conversation is stored as an active conversation of the lead with
    the business, and the greeting is its one new message, marked as not
    written by the lead.  The run returns if Twilio accepts the request
    and throws, leaving both rows stored, if it does not. *)
Theorem startLeadConversation_greets (leadId businessId : string) (w w' : world)
    (r : outcome Conversation.t) (evs : list event)
    (body from to : string) (error : option js_error) :
  startLeadConversation leadId businessId w = (r, w') →
  trace w' = trace w ++ evs →
  In (TwilioCreate body from to error) evs →
  ∃ lead business config phone c m,
    filter (fun l => Lead.id l = leadId) (leads (db w)) = [lead]
    ∧ filter (fun b => Business.id b = businessId) (businesses (db w)) = [business]
    ∧ filter (fun c => AssistantConfig.business_id c = businessId)
        (assistant_configs (db w)) = [config]
    ∧ CalendarService.if_truthy (Lead.phone lead) = Some phone
    ∧ addresses phone (Lead.contact_channel lead) = Some (from, to)
    ∧ body = greeting_for config business
    ∧ c ∈ conversations (db w')
    ∧ Conversation.lead_id c = leadId
    ∧ Conversation.business_id c = businessId
    ∧ Conversation.status c = "active"
    ∧ messages (db w') = messages (db w) ++ [m]
    ∧ Message.conversation_id m = Conversation.id c
    ∧ Message.content m = body
    ∧ Message.is_from_lead m = false
    ∧ match error with
      | None => ∃ conversation, r = Ret conversation ∧ same_conversation conversation c
      | Some e =>
          r = Throw (new_Error
                       ("Failed to start lead conversation: "
                        +:+ snd (send_failure (Lead.contact_channel lead)) +:+ ": "
                        +:+ err_message e))
      end.
Proof.
  intros Hrun Htr Hin.
  apply startLeadConversation_inv in Hrun
    as [Hdb | (lead & business & config & phone & c & m & from' & to' & error' & pre & post
               & ? & ? & ? & ? & ? & ? & ? & ? & ? & ? & ? & ? & ? & Htr' & Hpre & Hpost
               & Hr)].
  { eapply grows_events in Hdb; [| exact Htr].
    by apply (Forall_In _ _ _ Hdb) in Hin. }
  rewrite Htr in Htr'. apply app_inv_head in Htr'. subst evs.
  apply in_app_or in Hin as [Hin | [Hin | Hin]].
  { by apply (Forall_In _ _ _ Hpre) in Hin. }
  2: { by apply (Forall_In _ _ _ Hpost) in Hin. }
  simplify_eq. exists lead, business, config, phone, c, m.
  do 14 (split; [done |]). done.
Qed.

End Start.

(** X15 at work: Acme has no greeting of its own, and Ada is on WhatsApp. *)
Lemma startLeadConversation_greets_witness :
  ∃ m,
    messages (db (snd (@startLeadConversation (outside None None None) ascii_strings
                         "lead-1" "biz-1" acme_world)))
    = messages (db acme_world) ++ [m]
    ∧ Message.content m
      = "Hi there! I'm the virtual assistant for Acme. How can I help you today?".
Proof.
  destruct (@startLeadConversation_greets (outside None None None) ascii_strings
              "lead-1" "biz-1" acme_world
              (snd (@startLeadConversation (outside None None None) ascii_strings
                      "lead-1" "biz-1" acme_world))
              (fst (@startLeadConversation (outside None None None) ascii_strings
                      "lead-1" "biz-1" acme_world))
              (trace (snd (@startLeadConversation (outside None None None) ascii_strings
                             "lead-1" "biz-1" acme_world)))
              "Hi there! I'm the virtual assistant for Acme. How can I help you today?"
              "whatsapp:+15550000001" "whatsapp:+15551230000" None)
    as (lead & business & config & phone & c & m & _ & _ & _ & _ & _ & _ & _ & _ & _ & _
        & Hm & _ & Hcontent & _).
  - apply surjective_pairing.
  - reflexivity.
  - vm_compute. repeat first [left; reflexivity | right].
  - exists m. split; [exact Hm | exact Hcontent].
Defined.

End LeadConversationFacts.

(* ===================================================================== *)
(** * The creation of a lead *)
(* ===================================================================== *)

Module LeadCreationFacts.
Import Vocabulary Runs LeadCreation.

Lemma filter_none {A} (P : A → Prop) `{∀ x, Decision (P x)} (l : list A) :
  (∀ x, x ∈ l → ¬ P x) → filter P l = [].
Proof.
  induction l as [| x l IH]; intros Hnone; [done |].
  rewrite filter_cons_False by (apply Hnone; by left).
  apply IH. intros y Hy. apply Hnone. by right.
Qed.

Section Creation.
Context `{Providers}.

(** X16.  A lead that [createLead] has stored under an identifier no
    other lead has is what [getLeadById] returns for that identifier
    right after, when the database answers.  The stored row is the last
    of [leads], belongs to the given business, has the status "new" and
    the given contact channel, "whatsapp" when none is given. *)
Theorem createLead_then_getLeadById (businessId : string) (leadData : lead_data)
    (w w1 : world) (row : Lead.t) :
  createLead businessId leadData w = (Ret (Some row), w1) →
  (∀ l, l ∈ leads (db w) → Lead.id l ≠ uuidv4 (tick w)) →
  db_fault (tick w1) = None →
  LeadModel.getLeadById (Lead.id row) w1
  = (Ret row, record (Db "leads" Select None) w1)
  ∧ leads (db w1) = leads (db w) ++ [row]
  ∧ Lead.business_id row = businessId
  ∧ Lead.status row = "new"
  ∧ Lead.contact_channel row = default "whatsapp" (contact_channel leadData).
Proof.
  intros Hrun Hfresh Hanswer. unfold createLead in Hrun. run_unfold Hrun.
  destruct (db_fault (tick w)); simplify_eq.
  split; [| done].
  unfold LeadModel.getLeadById.
  unfold try_catch, db_single, or_throw, mbind, M_bind, mret, M_ret.
  rewrite Hanswer. cbn [db leads set_leads].
  rewrite filter_app, (filter_none _ (leads (db w))) by exact Hfresh.
  rewrite filter_cons_True, filter_nil by done. done.
Qed.

End Creation.

(** X16 at work: a walk-in lead at Acme. *)
Lemma createLead_then_getLeadById_witness :
  ∃ row,
    leads (db (snd (@createLead (outside None None None) "biz-1" walk_in acme_world)))
    = [ada; row]
    ∧ Lead.contact_channel row = "whatsapp"
    ∧ fst (@LeadModel.getLeadById (outside None None None) (Lead.id row)
             (snd (@createLead (outside None None None) "biz-1" walk_in acme_world)))
      = Ret row.
Proof.
  assert (∃ row,
            @createLead (outside None None None) "biz-1" walk_in acme_world
            = (Ret (Some row),
               snd (@createLead (outside None None None) "biz-1" walk_in acme_world)))
    as [row Hrun].
  { eexists. vm_compute. reflexivity. }
  destruct (@createLead_then_getLeadById (outside None None None) "biz-1" walk_in
              acme_world _ row Hrun)
    as (Hget & Hleads & _ & _ & Hchannel).
  - intros l Hl. apply list_elem_of_singleton in Hl as ->. vm_compute. discriminate.
  - reflexivity.
  - exists row. split; [exact Hleads |]. split; [exact Hchannel |].
    rewrite Hget. reflexivity.
Defined.

End LeadCreationFacts.

(* ===================================================================== *)
(** * Properties of the conversation routes *)
(* ===================================================================== *)

Module RouteFacts.
Import Vocabulary PipelineVocabulary RouteVocabulary Runs ConversationAdmin
  ConversationRoute BookingFacts ConversationFacts PipelineFacts MeetingFacts
  LeadConversationFacts.

#[local] Hint Unfold getConversationById updateConversationStatus : models.

Lemma filter_update_conversations conversationId f rows :
  (∀ c, Conversation.id (f c) = Conversation.id c) →
  filter (fun c => Conversation.id c = conversationId)
    (update_where_id conversationId f rows)
  = f <$> filter (fun c => Conversation.id c = conversationId) rows.
Proof.
  intros Hid. unfold update_where_id.
  induction rows as [| c rows IH]; [done |].
  rewrite fmap_cons. destruct (decide (Conversation.id c = conversationId)) as [Hc | Hc].
  - rewrite !filter_cons_True by (by rewrite ?Hid). rewrite fmap_cons. by f_equal.
  - rewrite !filter_cons_False by done. done.
Qed.

Section Routes.
Context `{Providers} `{JsString}.

Lemma getConversationById_reads conversationId :
  respects only_reads (getConversationById conversationId).
Proof. respects_auto. Qed.

Lemma getConversationById_runs conversationId w conversation w' :
  getConversationById conversationId w = (Ret conversation, w') →
  filter (fun c => Conversation.id c = conversationId) (conversations (db w))
  = [conversation].
Proof.
  intros Hrun. unfold getConversationById in Hrun. run_unfold Hrun.
  destruct (db_fault (tick w)) as [e |]; [by simplify_eq |].
  destruct (filter _ _) as [| c [| ? ?]]; cbn in Hrun; by simplify_eq.
Qed.

Lemma getRecentMessages_reads conversationId limit :
  respects only_reads (ConversationModel.getRecentMessages conversationId limit).
Proof. respects_auto. Qed.

Lemma getRecentMessages_runs conversationId limit w rows w' :
  ConversationModel.getRecentMessages conversationId limit w = (Ret rows, w') →
  rows = recent conversationId limit (db w).
Proof.
  intros Hrun. unfold ConversationModel.getRecentMessages in Hrun. run_unfold Hrun.
  destruct (db_fault (tick w)); by simplify_eq.
Qed.

Lemma updateConversationStatus_runs conversationId status w r w' :
  updateConversationStatus conversationId status w = (r, w') →
  (r = Ret (head (with_status status (now (tick w))
                  <$> filter (fun c => Conversation.id c = conversationId)
                        (conversations (db w))))
   ∧ db w' = set_conversations
               (update_where_id conversationId (with_status status (now (tick w))))
               (db w))
  ∨ (∃ e, r = Throw e ∧ db w' = db w).
Proof.
  intros Hrun. unfold updateConversationStatus in Hrun. run_unfold Hrun.
  destruct (db_fault (tick w)) as [e |]; simplify_eq; [right; eauto |].
  left. cbn. by rewrite filter_update_conversations.
Qed.

(** X17.  [PUT /api/conversations/:id/close] either leaves every table
    as it was and does not answer that the conversation is closed, or it
    has found the one business of the caller and the one conversation
    with the given identifier, which belongs to that business; then the
    rows of [conversations] with that identifier, and no others, have
    their status set to "closed", no other table has changed, and the
    answer carries the closed conversation. *)
Theorem put_close_closes (userId conversationId : string) (w w' : world)
    (res : response) :
  put_close userId conversationId w = (res, w') →
  (db w' = db w ∧ ∀ c, res ≠ ConversationClosed c)
  ∨ ∃ business conversation at_,
      filter (fun b => Business.user_id b = userId) (businesses (db w)) = [business]
      ∧ filter (fun c => Conversation.id c = conversationId) (conversations (db w))
        = [conversation]
      ∧ Conversation.business_id conversation = Business.id business
      ∧ db w' = set_conversations
                  (update_where_id conversationId (with_status "closed" at_)) (db w)
      ∧ res = ConversationClosed (Some (with_status "closed" at_ conversation))
      ∧ ∀ c, c ∈ conversations (db w') → Conversation.id c = conversationId →
             Conversation.status c = "closed".
Proof.
  unfold put_close. intros Hrun.
  match type of Hrun with
  | match ?m w with _ => _ end = _ => destruct (m w) as [r0 w0] eqn:Hh
  end.
  assert (res = match r0 with Ret answer => answer | Throw e => Next e end ∧ w0 = w')
    as [-> ->] by (destruct r0; by simplify_eq).
  clear Hrun.
  apply bind_inv in Hh as [(business & w1 & Hb & Hh) | (e & Hb & ->)];
    pose proof (getBusinessByUserId_reads _ _ _ _ Hb) as [D1 _]; [| by left].
  destruct business as [business |];
    [| left; unfold mret, M_ret in Hh; by simplify_eq].
  apply getBusinessByUserId_runs in Hb.
  apply bind_inv in Hh as [(conversation & w2 & Hc & Hh) | (e & Hc & ->)];
    pose proof (getConversationById_reads _ _ _ _ Hc) as [D2 _];
    [| left; split; [congruence | done]].
  apply getConversationById_runs in Hc. rewrite D1 in Hc.
  destruct (String.eqb_spec (Conversation.business_id conversation) (Business.id business))
    as [Hown | Hother]; cbn [negb] in Hh.
  2: { left. unfold mret, M_ret in Hh. simplify_eq. split; [congruence | done]. }
  apply bind_inv in Hh as [(updated & w3 & Hu & Hret) | (e & Hu & ->)];
    apply updateConversationStatus_runs in Hu as [[? Hdb] | (e' & ? & Hdb)];
    simplify_eq.
  - unfold mret, M_ret in Hret. simplify_eq.
    right. exists business, conversation, (now (tick w2)).
    rewrite D2, D1, Hc. do 3 (split; [done |]).
    split; [by rewrite Hdb, D2, D1 |]. split; [done |].
    intros c Hin Hid. rewrite Hdb in Hin. cbn in Hin. unfold update_where_id in Hin.
    apply list_elem_of_fmap in Hin as (c0 & -> & _).
    by destruct (decide (Conversation.id c0 = conversationId)).
  - left. split; [congruence | done].
Qed.

Lemma only_reads_no_completion w w' : only_reads w w' → grows not_completion w w'.
Proof.
  intros [_ Hreads]. eapply grows_weaken; [| exact Hreads].
  by intros [| | | | |].
Qed.

Lemma sendAiResponse_no_completion conversationId lead aiResponse :
  respects (grows not_completion) (sendAiResponse conversationId lead aiResponse).
Proof. unfold sendAiResponse. respects_auto. Qed.

(** What [sendAiResponse] has stored when it answers. *)
Lemma sendAiResponse_runs conversationId lead text w sentMessage aiResponse w' :
  sendAiResponse conversationId lead text w
  = (Ret (AiResponseSent sentMessage aiResponse), w') →
  aiResponse = text
  ∧ ∃ m, sentMessage = Some m
         ∧ messages (db w') = messages (db w) ++ [m]
         ∧ Message.conversation_id m = conversationId
         ∧ Message.content m = text
         ∧ Message.is_from_lead m = false.
Proof.
  intros Hrun. unfold sendAiResponse in Hrun.
  apply bind_inv in Hrun as [(stored & w1 & Hadd & Hrun) | (e & _ & ?)]; [| done].
  apply addMessage_runs in Hadd as [(m & ? & Hm & ? & ? & ?) | (e & ? & _)]; [| done].
  apply bind_inv in Hrun as [([] & w2 & Hsend & Hret) | (e & _ & ?)]; [| done].
  unfold mret, M_ret in Hret. simplify_eq. split; [done |].
  exists m. split; [done |].
  assert (db w' = db w1) as ->; [| done].
  destruct (CalendarService.if_truthy (Lead.phone lead)) as [phone |].
  - by apply sendMessage_inv in Hsend as [? _].
  - unfold mret, M_ret in Hsend. by simplify_eq.
Qed.

(** X18.  A completion request made by [POST /api/conversations/:id/ai-response]
    is made for the one conversation with the given identifier, which
    belongs to the one business of the caller, after reads only.  Its
    history is the (up to) twenty newest messages of the conversation,
    oldest first, and its final user message is the text of the last of
    them that the lead wrote.  If the request fails, the tables stay as
    they were and the error goes to [next]; if it succeeds and the handler
    answers with the reply, the reply is the text the provider returned
    and it is the one new row of [messages], of this conversation and
    marked as not written by the lead. *)
Theorem post_ai_response_request (userId conversationId : string) (w w' : world)
    (res : response) (evs : list event)
    (request : list chat_message) (answer : option string) :
  post_ai_response userId conversationId w = (res, w') →
  trace w' = trace w ++ evs →
  In (ChatCompletion request answer) evs →
  ∃ business conversation config lastLeadMessage,
    filter (fun b => Business.user_id b = userId) (businesses (db w)) = [business]
    ∧ filter (fun c => Conversation.id c = conversationId) (conversations (db w))
      = [conversation]
    ∧ Conversation.business_id conversation = Business.id business
    ∧ filter (fun c => AssistantConfig.business_id c = Business.id business)
        (assistant_configs (db w)) = [config]
    ∧ last (from_lead (recent conversationId 20 (db w))) = Some lastLeadMessage
    ∧ request
      = OpenAIService.chat_messages (Business.name business)
          (Business.industry business) (Business.services business)
          (AssistantConfig.tone config) (AssistantConfig.role config)
          (AssistantConfig.required_info config)
          (Message.to_object <$> recent conversationId 20 (db w))
          (Message.content lastLeadMessage)
    ∧ match answer with
      | None =>
          res = Next (new_Error "Failed to generate response from AI")
          ∧ db w' = db w
      | Some text =>
          ∀ sentMessage aiResponse,
            res = AiResponseSent sentMessage aiResponse →
            aiResponse = text
            ∧ ∃ m, sentMessage = Some m
                   ∧ messages (db w') = messages (db w) ++ [m]
                   ∧ Message.conversation_id m = conversationId
                   ∧ Message.content m = text
                   ∧ Message.is_from_lead m = false
      end.
Proof.
  unfold post_ai_response. intros Hrun Htr Hin.
  match type of Hrun with
  | match ?m w with _ => _ end = _ => destruct (m w) as [r0 w0] eqn:Hh
  end.
  assert (res = match r0 with Ret a => a | Throw e => Next e end ∧ w0 = w')
    as [-> ->] by (destruct r0; by simplify_eq).
  clear Hrun.
  assert (∀ wa, only_reads w wa → wa = w' → False) as Hquiet.
  { intros wa Hreads ->. apply only_reads_no_completion in Hreads.
    eapply grows_events in Hreads; [| exact Htr].
    by apply (Forall_In _ _ _ Hreads) in Hin. }
  apply bind_inv in Hh as [(business & w1 & Hb & Hh) | (e & Hb & ->)];
    pose proof (getBusinessByUserId_reads _ _ _ _ Hb) as R1;
    [| by destruct (Hquiet _ R1)].
  destruct business as [business |];
    [| unfold mret, M_ret in Hh; simplify_eq; by destruct (Hquiet _ R1)].
  apply getBusinessByUserId_runs in Hb.
  apply bind_inv in Hh as [(conversation & w2 & Hc & Hh) | (e & Hc & ->)].
  2: { apply getConversationById_reads in Hc. exfalso.
       eapply Hquiet; [| reflexivity]. by etransitivity. }
  pose proof (getConversationById_reads _ _ _ _ Hc) as R2.
  assert (only_reads w w2) as R02 by (by etransitivity).
  apply getConversationById_runs in Hc.
  destruct (String.eqb_spec (Conversation.business_id conversation) (Business.id business))
    as [Hown | Hother]; cbn [negb] in Hh.
  2: { unfold mret, M_ret in Hh. simplify_eq. by destruct (Hquiet _ R02). }
  apply bind_inv in Hh as [(lead & w3 & Hl & Hh) | (e & Hl & ->)].
  2: { apply getLeadById_reads in Hl. exfalso.
       eapply Hquiet; [| reflexivity]. by etransitivity. }
  apply getLeadById_reads in Hl as R3.
  assert (only_reads w w3) as R03 by (by etransitivity).
  apply bind_inv in Hh as [(config & w4 & Hg & Hh) | (e & Hg & ->)].
  2: { apply getAssistantConfig_reads in Hg. exfalso.
       eapply Hquiet; [| reflexivity]. by etransitivity. }
  pose proof (getAssistantConfig_reads _ _ _ _ Hg) as R4.
  assert (only_reads w w4) as R04 by (by etransitivity).
  destruct config as [config |];
    [| unfold mret, M_ret in Hh; simplify_eq; by destruct (Hquiet _ R04)].
  apply getAssistantConfig_runs in Hg.
  apply bind_inv in Hh as [(history & w5 & Hr & Hh) | (e & Hr & ->)].
  2: { apply getRecentMessages_reads in Hr. exfalso.
       eapply Hquiet; [| reflexivity]. by etransitivity. }
  pose proof (getRecentMessages_reads _ _ _ _ _ Hr) as R5.
  assert (only_reads w w5) as R05 by (by etransitivity).
  apply getRecentMessages_runs in Hr.
  destruct (Nat.eqb (length history) 0);
    [unfold mret, M_ret in Hh; simplify_eq; by destruct (Hquiet _ R05) |].
  destruct (last (filter _ history)) as [lastLeadMessage |] eqn:Hlast;
    [| unfold mret, M_ret in Hh; simplify_eq; by destruct (Hquiet _ R05)].
  destruct R1 as [D1 _], R02 as [D2 _], R03 as [D3 _], R04 as [D4 _].
  rewrite D1 in Hc. rewrite D3 in Hg. rewrite D4 in Hr. subst history.
  destruct R05 as [D5 (reads & Htr5 & Hreads)].
  assert (∀ l, Forall is_read l → Forall not_completion l) as Hweak.
  { intros l Hl'. eapply Forall_impl; [exact Hl' |]. by intros [| | | | |]. }
  apply Hweak in Hreads.
  exists business, conversation, config, lastLeadMessage.
  do 5 (split; [done |]).
  apply bind_inv in Hh as [(text & w6 & Hgen & Hh) | (e & Hgen & ->)];
    apply generateConversation_runs in Hgen as [(text' & ? & ->) | [? ->]];
    simplify_eq.
  - (* the provider answered; what follows makes no completion request *)
    pose proof (sendAiResponse_no_completion _ _ _ _ _ _ Hh) as (rest & Htr6 & Hrest).
    cbn in Htr6. rewrite Htr6, Htr5, <- !app_assoc in Htr.
    apply app_inv_head in Htr. subst evs.
    apply in_app_or in Hin as [Hin | [Hin | Hin]].
    { by apply (Forall_In _ _ _ Hreads) in Hin. }
    2: { by apply (Forall_In _ _ _ Hrest) in Hin. }
    simplify_eq. split; [done |].
    intros sentMessage aiResponse Hres. destruct r0 as [sent |]; [| done].
    subst sent. apply sendAiResponse_runs in Hh. cbn in Hh. by rewrite D5 in Hh.
  - (* the provider failed *)
    cbn in Htr. rewrite Htr5, <- !app_assoc in Htr.
    apply app_inv_head in Htr. subst evs.
    apply in_app_or in Hin as [Hin | [Hin | [Hin | []]]].
    { by apply (Forall_In _ _ _ Hreads) in Hin. }
    2: { done. }
    simplify_eq. split; [done |]. cbn. done.
Qed.

(** ** The other routes *)

Lemma sendIfPhone_inv lead text w r w' :
  sendIfPhone lead text w = (r, w') →
  db w' = db w
  ∧ ((w' = w ∧ (r = Ret tt ∨ ∃ e, r = Throw e))
     ∨ ∃ phone from to error post,
         CalendarService.if_truthy (Lead.phone lead) = Some phone
         ∧ addresses phone (Lead.contact_channel lead) = Some (from, to)
         ∧ trace w' = trace w ++ [TwilioCreate text from to error] ++ post
         ∧ Forall is_db post
         ∧ match error with
           | None => r = Ret tt
           | Some e =>
               r = Throw (new_Error (snd (send_failure (Lead.contact_channel lead))
                                     +:+ ": " +:+ err_message e))
           end).
Proof.
  intros Hrun. unfold sendIfPhone in Hrun.
  destruct (CalendarService.if_truthy (Lead.phone lead)) as [phone |] eqn:Hphone.
  - apply sendMessage_inv in Hrun as [Hdb Hrun]. split; [done |].
    destruct (addresses phone (Lead.contact_channel lead)) as [[from to] |] eqn:Haddr.
    + right. exists phone, from, to.
      destruct Hrun as [[Htr ->] | (e & Htr & ->)].
      * exists None, []. by rewrite app_nil_r.
      * exists (Some e), [ConsoleError (fst (send_failure (Lead.contact_channel lead)))].
        do 3 (split; [done |]). split; [by repeat constructor | done].
    + left. destruct Hrun as [-> ->]. eauto.
  - unfold mret, M_ret in Hrun. simplify_eq. eauto.
Qed.

Lemma addMessage_stored conversationId content isFromLead metadata w stored w' :
  ConversationModel.addMessage conversationId content isFromLead metadata w
  = (Ret stored, w') →
  ∃ row, stored = Some row
         ∧ messages (db w') = messages (db w) ++ [row]
         ∧ Message.conversation_id row = conversationId
         ∧ Message.content row = content
         ∧ Message.is_from_lead row = isFromLead
         ∧ Message.metadata row = metadata.
Proof.
  intros Hrun. unfold ConversationModel.addMessage in Hrun. run_unfold Hrun.
  destruct (db_fault (tick w)) as [e |]; simplify_eq.
  destruct (db_fault _); simplify_eq; cbn; eauto 10.
Qed.

Lemma getMessagesByConversationId_reads conversationId limit offset :
  respects only_reads
    (ConversationModel.getMessagesByConversationId conversationId limit offset).
Proof. respects_auto. Qed.

(** X21.  [GET /api/conversations/:id] only reads.  When it answers with
    a conversation, that is the one conversation with the given
    identifier and it belongs to the one business of the caller; the
    messages are the hundred oldest messages of the conversation, oldest
    first, and no more, however long the conversation is; the lead is the
    one lead the conversation names. *)
Theorem get_conversation_own (userId conversationId : string) (w w' : world)
    (res : response) :
  get_conversation userId conversationId w = (res, w') →
  only_reads w w'
  ∧ ∀ conversation rows lead,
      res = ConversationFound conversation rows lead →
      ∃ business,
        filter (fun b => Business.user_id b = userId) (businesses (db w)) = [business]
        ∧ filter (fun c => Conversation.id c = conversationId) (conversations (db w))
          = [conversation]
        ∧ Conversation.business_id conversation = Business.id business
        ∧ rows = first_hundred conversationId (db w)
        ∧ filter (fun l => Lead.id l = Conversation.lead_id conversation) (leads (db w))
          = [lead].
Proof.
  unfold get_conversation. intros Hrun.
  match type of Hrun with
  | match ?m w with _ => _ end = _ => destruct (m w) as [r0 w0] eqn:Hh
  end.
  assert (res = match r0 with Ret answer => answer | Throw e => Next e end ∧ w0 = w')
    as [-> ->] by (destruct r0; by simplify_eq).
  clear Hrun.
  apply bind_inv in Hh as [(business & w1 & Hb & Hh) | (e & Hb & ->)];
    pose proof (getBusinessByUserId_reads _ _ _ _ Hb) as R1; [| done].
  destruct business as [business |];
    [| unfold mret, M_ret in Hh; by simplify_eq].
  apply getBusinessByUserId_runs in Hb.
  apply bind_inv in Hh as [(conversation & w2 & Hc & Hh) | (e & Hc & ->)];
    pose proof (getConversationById_reads _ _ _ _ Hc) as R2;
    [| split; [by etransitivity | done]].
  assert (only_reads w w2) as R02 by (by etransitivity).
  apply getConversationById_runs in Hc.
  destruct (String.eqb_spec (Conversation.business_id conversation) (Business.id business))
    as [Hown | Hother]; cbn [negb] in Hh;
    [| unfold mret, M_ret in Hh; by simplify_eq].
  apply bind_inv in Hh as [(rows & w3 & Hm & Hh) | (e & Hm & ->)];
    pose proof (getMessagesByConversationId_reads _ _ _ _ _ _ Hm) as R3;
    [| split; [by etransitivity | done]].
  assert (only_reads w w3) as R03 by (by etransitivity).
  unfold ConversationModel.getMessagesByConversationId in Hm. run_unfold Hm.
  destruct (db_fault (tick w2)); simplify_eq. rewrite drop_0 in Hh.
  apply bind_inv in Hh as [(lead & w4 & Hl & Hh) | (e & Hl & ->)];
    pose proof (getLeadById_reads _ _ _ _ Hl) as R4;
    [| split; [by etransitivity | done]].
  apply getLeadById_runs in Hl. unfold mret, M_ret in Hh. simplify_eq.
  split; [by etransitivity |].
  intros conversation' rows' lead' ?. simplify_eq.
  destruct R1 as [D1 _], R02 as [D2 _]. cbn in Hl.
  exists business. rewrite D1 in Hc. rewrite D2 in Hl.
  do 3 (split; [done |]). split; [| done].
  unfold first_hundred. by rewrite D2.
Qed.

(** X22.  A request to Twilio made by [POST /api/conversations/:id/message]
    carries the message of the caller, which is not empty, to the phone
    of the lead of the one conversation with the given identifier, on the
    lead's channel; the conversation belongs to the one business of the
    caller.  By then the message is the one new row of [messages], of
    that conversation, marked as not written by the lead and as sent by
    the caller.  The handler answers with the stored row if Twilio
    accepts the request and hands the error to [next], the row staying
    stored, if Twilio refuses. *)
Theorem post_message_sends (userId conversationId message : string) (w w' : world)
    (res : response) (evs : list event)
    (body from to : string) (error : option js_error) :
  post_message userId conversationId message w = (res, w') →
  trace w' = trace w ++ evs →
  In (TwilioCreate body from to error) evs →
  ∃ business conversation lead phone m,
    filter (fun b => Business.user_id b = userId) (businesses (db w)) = [business]
    ∧ filter (fun c => Conversation.id c = conversationId) (conversations (db w))
      = [conversation]
    ∧ Conversation.business_id conversation = Business.id business
    ∧ filter (fun l => Lead.id l = Conversation.lead_id conversation) (leads (db w))
      = [lead]
    ∧ CalendarService.if_truthy (Lead.phone lead) = Some phone
    ∧ addresses phone (Lead.contact_channel lead) = Some (from, to)
    ∧ body = message ∧ message ≠ ""
    ∧ messages (db w') = messages (db w) ++ [m]
    ∧ Message.conversation_id m = conversationId
    ∧ Message.content m = message
    ∧ Message.is_from_lead m = false
    ∧ Message.metadata m = JObj {[ "sent_by_user_id" := JStr userId ]}
    ∧ match error with
      | None => res = MessageSent (Some m)
      | Some e =>
          res = Next (new_Error (snd (send_failure (Lead.contact_channel lead))
                                 +:+ ": " +:+ err_message e))
      end.
Proof.
  unfold post_message. intros Hrun Htr Hin.
  match type of Hrun with
  | match ?m w with _ => _ end = _ => destruct (m w) as [r0 w0] eqn:Hh
  end.
  assert (res = match r0 with Ret answer => answer | Throw e => Next e end ∧ w0 = w')
    as [-> ->] by (destruct r0; by simplify_eq).
  clear Hrun.
  assert (∀ wa, grows is_db w wa → wa = w' → False) as Hquiet.
  { intros wa Hdb ->. eapply grows_events in Hdb; [| exact Htr].
    by apply (Forall_In _ _ _ Hdb) in Hin. }
  assert (∀ wa, only_reads w wa → wa = w' → False) as Hreads.
  { intros wa Hr. apply Hquiet. by apply only_reads_db_only. }
  destruct (String.eqb_spec message "") as [Hempty | Hmessage].
  { unfold mret, M_ret in Hh. simplify_eq. by destruct (Hquiet w'). }
  apply bind_inv in Hh as [(business & w1 & Hb & Hh) | (e & Hb & ->)];
    pose proof (getBusinessByUserId_reads _ _ _ _ Hb) as R1;
    [| by destruct (Hreads _ R1)].
  destruct business as [business |];
    [| unfold mret, M_ret in Hh; simplify_eq; by destruct (Hreads _ R1)].
  apply getBusinessByUserId_runs in Hb.
  apply bind_inv in Hh as [(conversation & w2 & Hc & Hh) | (e & Hc & ->)].
  2: { apply getConversationById_reads in Hc. exfalso.
       eapply Hreads; [| reflexivity]. by etransitivity. }
  pose proof (getConversationById_reads _ _ _ _ Hc) as R2.
  assert (only_reads w w2) as R02 by (by etransitivity).
  apply getConversationById_runs in Hc.
  destruct (String.eqb_spec (Conversation.business_id conversation) (Business.id business))
    as [Hown | Hother]; cbn [negb] in Hh;
    [| unfold mret, M_ret in Hh; simplify_eq; by destruct (Hreads _ R02)].
  apply bind_inv in Hh as [(lead & w3 & Hl & Hh) | (e & Hl & ->)].
  2: { apply getLeadById_reads in Hl. exfalso.
       eapply Hreads; [| reflexivity]. by etransitivity. }
  pose proof (getLeadById_reads _ _ _ _ Hl) as R3.
  assert (only_reads w w3) as R03 by (by etransitivity).
  apply getLeadById_runs in Hl.
  destruct R1 as [D1 _], R02 as [D2 _]. rewrite D1 in Hc. rewrite D2 in Hl.
  apply only_reads_db_only in R03 as G03. destruct R03 as [D3 _].
  apply bind_inv in Hh as [(stored & w4 & Ha & Hh) | (e & Ha & ->)].
  2: { apply addMessage_leads_kept in Ha as [_ Ga]. exfalso.
       eapply Hquiet; [| reflexivity]. by etransitivity. }
  pose proof (addMessage_leads_kept _ _ _ _ _ _ _ Ha) as [_ G4].
  assert (grows is_db w w4) as (pre & Htr4 & Hpre) by (by etransitivity).
  apply addMessage_stored in Ha as (m & -> & Hm & ? & ? & ? & ?).
  rewrite D3 in Hm.
  assert (∃ rs w5, sendIfPhone lead message w4 = (rs, w5)
                   ∧ w' = w5
                   ∧ r0 = match rs with
                          | Ret _ => Ret (MessageSent (Some m))
                          | Throw e => Throw e
                          end) as (rs & w5 & Hsend & <- & ->).
  { apply bind_inv in Hh as [([] & w5 & Hsend & Hret) | (e & Hsend & ->)].
    - unfold mret, M_ret in Hret. simplify_eq. by eexists (Ret tt), _.
    - by eexists (Throw e), _. }
  apply sendIfPhone_inv in Hsend
    as [D5 [[-> _] | (phone & from' & to' & error' & post & Hphone & Haddr & Htr5 & Hpost
                      & Hrs)]].
  { exfalso. eapply Hquiet; [| reflexivity]. by exists pre. }
  rewrite Htr5, Htr4, <- app_assoc in Htr. apply app_inv_head in Htr. subst evs.
  apply in_app_or in Hin as [Hin | [Hin | Hin]].
  { by apply (Forall_In _ _ _ Hpre) in Hin. }
  2: { by apply (Forall_In _ _ _ Hpost) in Hin. }
  simplify_eq. exists business, conversation, lead, phone, m.
  rewrite D5. do 13 (split; [done |]).
  destruct error as [e |]; by subst rs.
Qed.

(** X23.  A request to Twilio made by [POST /api/conversations/lead/:leadId/start]
    carries the greeting of the one assistant configuration of the
    caller's business (the standard greeting with the name of the
    business when the configuration has none) to the phone of the one
    lead with the given identifier, which belongs to that business.  By
    then the conversation is stored as an active conversation of that
    lead with that business and the greeting is its one new message,
    marked as not written by the lead.  The handler answers with the
    conversation if Twilio accepts the request and hands the error to
    [next], both rows staying stored, if Twilio refuses. *)
Theorem post_start_greets (userId leadId : string) (w w' : world)
    (res : response) (evs : list event)
    (body from to : string) (error : option js_error) :
  post_start userId leadId w = (res, w') →
  trace w' = trace w ++ evs →
  In (TwilioCreate body from to error) evs →
  ∃ business lead config phone c m,
    filter (fun b => Business.user_id b = userId) (businesses (db w)) = [business]
    ∧ filter (fun l => Lead.id l = leadId) (leads (db w)) = [lead]
    ∧ Lead.business_id lead = Business.id business
    ∧ filter (fun c => AssistantConfig.business_id c = Business.id business)
        (assistant_configs (db w)) = [config]
    ∧ CalendarService.if_truthy (Lead.phone lead) = Some phone
    ∧ addresses phone (Lead.contact_channel lead) = Some (from, to)
    ∧ body = LeadConversation.greeting_for config business
    ∧ c ∈ conversations (db w')
    ∧ Conversation.lead_id c = leadId
    ∧ Conversation.business_id c = Business.id business
    ∧ Conversation.status c = "active"
    ∧ messages (db w') = messages (db w) ++ [m]
    ∧ Message.conversation_id m = Conversation.id c
    ∧ Message.content m = body
    ∧ Message.is_from_lead m = false
    ∧ match error with
      | None =>
          ∃ conversation, res = ConversationStarted conversation
                          ∧ StartVocabulary.same_conversation conversation c
      | Some e =>
          res = Next (new_Error (snd (send_failure (Lead.contact_channel lead))
                                 +:+ ": " +:+ err_message e))
      end.
Proof.
  unfold post_start. intros Hrun Htr Hin.
  match type of Hrun with
  | match ?m w with _ => _ end = _ => destruct (m w) as [r0 w0] eqn:Hh
  end.
  assert (res = match r0 with Ret answer => answer | Throw e => Next e end ∧ w0 = w')
    as [-> ->] by (destruct r0; by simplify_eq).
  clear Hrun.
  assert (∀ wa, grows is_db w wa → wa = w' → False) as Hquiet.
  { intros wa Hdb ->. eapply grows_events in Hdb; [| exact Htr].
    by apply (Forall_In _ _ _ Hdb) in Hin. }
  assert (∀ wa, only_reads w wa → wa = w' → False) as Hreads.
  { intros wa Hr. apply Hquiet. by apply only_reads_db_only. }
  apply bind_inv in Hh as [(business & w1 & Hb & Hh) | (e & Hb & ->)];
    pose proof (getBusinessByUserId_reads _ _ _ _ Hb) as R1;
    [| by destruct (Hreads _ R1)].
  destruct business as [business |];
    [| unfold mret, M_ret in Hh; simplify_eq; by destruct (Hreads _ R1)].
  apply getBusinessByUserId_runs in Hb.
  apply bind_inv in Hh as [(lead & w2 & Hl & Hh) | (e & Hl & ->)].
  2: { apply getLeadById_reads in Hl. exfalso.
       eapply Hreads; [| reflexivity]. by etransitivity. }
  pose proof (getLeadById_reads _ _ _ _ Hl) as R2.
  assert (only_reads w w2) as R02 by (by etransitivity).
  apply getLeadById_runs in Hl.
  destruct (String.eqb_spec (Lead.business_id lead) (Business.id business))
    as [Hown | Hother]; cbn [negb] in Hh;
    [| unfold mret, M_ret in Hh; simplify_eq; by destruct (Hreads _ R02)].
  apply bind_inv in Hh as [(config & w3 & Hg & Hh) | (e & Hg & ->)].
  2: { apply getAssistantConfig_reads in Hg. exfalso.
       eapply Hreads; [| reflexivity]. by etransitivity. }
  pose proof (getAssistantConfig_reads _ _ _ _ Hg) as R3.
  assert (only_reads w w3) as R03 by (by etransitivity).
  destruct config as [config |];
    [| unfold mret, M_ret in Hh; simplify_eq; by destruct (Hreads _ R03)].
  apply getAssistantConfig_runs in Hg.
  destruct R1 as [D1 _], R02 as [D2 _]. rewrite D1 in Hl. rewrite D2 in Hg.
  apply only_reads_db_only in R03 as G03. destruct R03 as [D3 _].
  apply bind_inv in Hh as [(conversation & w4 & Hs & Hh) | (e & Hs & ->)].
  2: { apply startConversation_db_only in Hs. exfalso.
       eapply Hquiet; [| reflexivity]. by etransitivity. }
  pose proof (startConversation_db_only _ _ _ _ _ _ Hs) as G4.
  assert (grows is_db w w4) as (pre & Htr4 & Hpre) by (by etransitivity).
  apply startConversation_with_message in Hs
    as (Hlead & Hbusiness & Hactive & _ & (c & Hc & Hsame) & m & Hm & Hconv & Hcontent
        & Hflag); [| apply greeting_for_nonempty].
  rewrite D3 in Hm.
  assert (∃ rs w5, sendIfPhone lead (LeadConversation.greeting_for config business) w4
                   = (rs, w5)
                   ∧ w' = w5
                   ∧ r0 = match rs with
                          | Ret _ => Ret (ConversationStarted conversation)
                          | Throw e => Throw e
                          end) as (rs & w5 & Hsend & <- & ->).
  { apply bind_inv in Hh as [([] & w5 & Hsend & Hret) | (e & Hsend & ->)].
    - unfold mret, M_ret in Hret. simplify_eq. by eexists (Ret tt), _.
    - by eexists (Throw e), _. }
  apply sendIfPhone_inv in Hsend
    as [D5 [[-> _] | (phone & from' & to' & error' & post & Hphone & Haddr & Htr5 & Hpost
                      & Hrs)]].
  { exfalso. eapply Hquiet; [| reflexivity]. by exists pre. }
  rewrite Htr5, Htr4, <- app_assoc in Htr. apply app_inv_head in Htr. subst evs.
  apply in_app_or in Hin as [Hin | [Hin | Hin]].
  { by apply (Forall_In _ _ _ Hpre) in Hin. }
  2: { by apply (Forall_In _ _ _ Hpost) in Hin. }
  simplify_eq. destruct Hsame as (Hid & Hlead' & Hbusiness' & Hactive').
  exists business, lead, config, phone, c, m.
  rewrite D5. do 7 (split; [done |]).
  split; [done |]. split; [congruence |]. split; [congruence |].
  split; [congruence |]. split; [done |]. split; [congruence |].
  do 2 (split; [done |]).
  destruct error as [e |]; subst rs; [done |].
  exists conversation. done.
Qed.

End Routes.

(** X17 at work: Acme closes Ada's conversation. *)
Lemma put_close_closes_witness :
  Conversation.status
    <$> conversations (db (snd (@put_close (outside None None None)
                                  "user-1" "conv-1" ada_chatting)))
  = ["closed"].
Proof.
  destruct (@put_close_closes (outside None None None) "user-1" "conv-1" ada_chatting
              (snd (@put_close (outside None None None) "user-1" "conv-1" ada_chatting))
              (fst (@put_close (outside None None None) "user-1" "conv-1" ada_chatting)))
    as [[_ Hno] | (business & conversation & at_ & _ & _ & _ & Hdb & _)].
  - apply surjective_pairing.
  - exfalso. eapply Hno. vm_compute. reflexivity.
  - rewrite Hdb. reflexivity.
Defined.

(** X18 at work: the assistant answers Ada's question. *)
Lemma post_ai_response_request_witness :
  ∃ lastLeadMessage,
    last (from_lead (recent "conv-1" 20 (db ada_chatting))) = Some lastLeadMessage
    ∧ Message.content lastLeadMessage = "What do you charge?".
Proof.
  assert (∃ request,
            In (ChatCompletion request (Some "We charge 10"))
              (trace (snd (@post_ai_response (outside None None (Some "We charge 10"))
                             ascii_strings "user-1" "conv-1" ada_chatting))))
    as [request Hin].
  { eexists. vm_compute. repeat first [left; reflexivity | right]. }
  destruct (@post_ai_response_request (outside None None (Some "We charge 10"))
              ascii_strings "user-1" "conv-1" ada_chatting
              (snd (@post_ai_response (outside None None (Some "We charge 10"))
                      ascii_strings "user-1" "conv-1" ada_chatting))
              (fst (@post_ai_response (outside None None (Some "We charge 10"))
                      ascii_strings "user-1" "conv-1" ada_chatting))
              (trace (snd (@post_ai_response (outside None None (Some "We charge 10"))
                             ascii_strings "user-1" "conv-1" ada_chatting)))
              request (Some "We charge 10"))
    as (business & conversation & config & lastLeadMessage & _ & _ & _ & _ & Hlast & _).
  - apply surjective_pairing.
  - reflexivity.
  - exact Hin.
  - exists lastLeadMessage. split; [exact Hlast |].
    vm_compute in Hlast. injection Hlast as <-. reflexivity.
Defined.

(** X21 at work: Acme looks at Ada's conversation. *)
Lemma get_conversation_own_witness :
  ∃ conversation rows lead,
    fst (@get_conversation (outside None None None) "user-1" "conv-1" ada_chatting)
    = ConversationFound conversation rows lead
    ∧ rows = first_hundred "conv-1" (db ada_chatting).
Proof.
  assert (∃ conversation rows lead,
            fst (@get_conversation (outside None None None) "user-1" "conv-1"
                   ada_chatting)
            = ConversationFound conversation rows lead)
    as (conversation & rows & lead & Hres).
  { eexists _, _, _. vm_compute. reflexivity. }
  destruct (@get_conversation_own (outside None None None) "user-1" "conv-1"
              ada_chatting
              (snd (@get_conversation (outside None None None) "user-1" "conv-1"
                      ada_chatting))
              (fst (@get_conversation (outside None None None) "user-1" "conv-1"
                      ada_chatting)))
    as [_ Hfound].
  - apply surjective_pairing.
  - destruct (Hfound conversation rows lead Hres) as (business & _ & _ & _ & Hrows & _).
    exists conversation, rows, lead. split; [exact Hres | exact Hrows].
Defined.

(** X22 at work: Acme writes to Ada by hand. *)
Lemma post_message_sends_witness :
  ∃ m,
    messages (db (snd (@post_message (outside None None None) ascii_strings
                         "user-1" "conv-1" "Hello Ada" ada_chatting)))
    = messages (db ada_chatting) ++ [m]
    ∧ Message.metadata m = JObj {[ "sent_by_user_id" := JStr "user-1" ]}.
Proof.
  destruct (@post_message_sends (outside None None None) ascii_strings
              "user-1" "conv-1" "Hello Ada" ada_chatting
              (snd (@post_message (outside None None None) ascii_strings
                      "user-1" "conv-1" "Hello Ada" ada_chatting))
              (fst (@post_message (outside None None None) ascii_strings
                      "user-1" "conv-1" "Hello Ada" ada_chatting))
              (trace (snd (@post_message (outside None None None) ascii_strings
                             "user-1" "conv-1" "Hello Ada" ada_chatting)))
              "Hello Ada" "whatsapp:+15550000001" "whatsapp:+15551230000" None)
    as (business & conversation & lead & phone & m & _ & _ & _ & _ & _ & _ & _ & _
        & Hm & _ & _ & _ & Hmeta & _).
  - apply surjective_pairing.
  - reflexivity.
  - vm_compute. repeat first [left; reflexivity | right].
  - exists m. split; [exact Hm | exact Hmeta].
Defined.

(** X23 at work: Acme starts a conversation with Ada. *)
Lemma post_start_greets_witness :
  ∃ m,
    messages (db (snd (@post_start (outside None None None) ascii_strings
                         "user-1" "lead-1" acme_world)))
    = messages (db acme_world) ++ [m]
    ∧ Message.content m
      = "Hi there! I'm the virtual assistant for Acme. How can I help you today?".
Proof.
  destruct (@post_start_greets (outside None None None) ascii_strings
              "user-1" "lead-1" acme_world
              (snd (@post_start (outside None None None) ascii_strings
                      "user-1" "lead-1" acme_world))
              (fst (@post_start (outside None None None) ascii_strings
                      "user-1" "lead-1" acme_world))
              (trace (snd (@post_start (outside None None None) ascii_strings
                             "user-1" "lead-1" acme_world)))
              "Hi there! I'm the virtual assistant for Acme. How can I help you today?"
              "whatsapp:+15550000001" "whatsapp:+15551230000" None)
    as (business & lead & config & phone & c & m & _ & _ & _ & _ & _ & _ & _ & _ & _ & _
        & _ & Hm & _ & Hcontent & _).
  - apply surjective_pairing.
  - reflexivity.
  - vm_compute. repeat first [left; reflexivity | right].
  - exists m. split; [exact Hm | exact Hcontent].
Defined.

End RouteFacts.

(* ===================================================================== *)
(** * What the assistant is asked *)
(* ===================================================================== *)

Module RequestFacts.
Import Vocabulary PipelineVocabulary RouteVocabulary Runs ConversationModel
  ConversationService ConversationFacts ConversationClaims PipelineFacts
  MeetingFacts LeadConversationFacts ConversationModelFacts RouteFacts.

#[local] Instance setup_kept_refl : Reflexive setup_kept.
Proof. unfold setup_kept. apply _. Qed.

#[local] Instance setup_kept_trans : Transitive setup_kept.
Proof. unfold setup_kept. apply _. Qed.

(** A row newer than every other row of its conversation is the last of
    the newest. *)
Lemma newest_snoc conversationId limit rows m :
  Message.conversation_id m = conversationId →
  (0 < limit)%nat →
  (∀ x, x ∈ of_conversation conversationId rows →
        Message.created_at x < Message.created_at m) →
  ∃ earlier, newest conversationId limit (rows ++ [m]) = earlier ++ [m].
Proof.
  intros Hconv Hlimit Hnewer. unfold newest, of_conversation.
  rewrite filter_app, filter_cons_True, filter_nil by done.
  fold (of_conversation conversationId rows).
  set (old := of_conversation conversationId rows) in *.
  pose proof (StronglySorted_merge_sort (flip sent_before) (old ++ [m])) as Hsorted.
  pose proof (merge_sort_Permutation (flip sent_before) (old ++ [m])) as Hperm.
  fold (newest_first (old ++ [m])) in Hsorted, Hperm.
  destruct (newest_first (old ++ [m])) as [| h rest].
  { apply Permutation_nil_l in Hperm. by destruct old. }
  assert (h = m) as ->.
  { assert (m ∈ h :: rest) as Hm by (rewrite Hperm; apply elem_of_app; right; by left).
    apply elem_of_cons in Hm as [-> | Hm]; [done |].
    assert (h ∈ old ++ [m]) as Hh by (rewrite <- Hperm; by left).
    apply elem_of_app in Hh as [Hh | Hh]; [| by apply list_elem_of_singleton in Hh].
    apply StronglySorted_cons in Hsorted as [Hhead _].
    eapply Forall_forall in Hhead; [| exact Hm].
    unfold flip, sent_before in Hhead. specialize (Hnewer h Hh). lia. }
  destruct limit as [| limit]; [lia |].
  cbn [take]. rewrite reverse_cons. by eexists.
Qed.

Section Request.
Context `{Providers} `{JsString}.

Lemma getLeadsByPhone_setup phone : respects setup_kept (LeadModel.getLeadsByPhone phone).
Proof. unfold setup_kept. respects_auto. Qed.

Lemma getActiveConversation_setup leadId :
  respects setup_kept (getActiveConversationByLeadId leadId).
Proof. unfold setup_kept. respects_auto. Qed.

Lemma startConversation_setup leadId businessId :
  respects setup_kept (startConversation leadId businessId None).
Proof. unfold setup_kept. respects_auto. Qed.

Lemma addMessage_setup conversationId content isFromLead metadata :
  respects setup_kept (addMessage conversationId content isFromLead metadata).
Proof. unfold setup_kept. respects_auto. Qed.

Lemma deliver_no_completion phone channel lead conversation config aiResponse :
  respects (grows not_completion)
    (deliver phone channel lead conversation config aiResponse).
Proof. unfold deliver. respects_auto. Qed.

Lemma is_db_no_completion l : Forall is_db l → Forall not_completion l.
Proof. intros Hl. eapply Forall_impl; [exact Hl |]. by intros [| | | | |]. Qed.

(** A run of [processIncomingMessage] calls the database only, or it makes
    one completion request, for the lead found by the phone, with the
    business and the configuration of that lead, after the inbound
    message is stored. *)
Lemma processIncomingMessage_request_inv phone message channel w r w' :
  processIncomingMessage phone message channel w = (r, w') →
  grows is_db w w'
  ∨ ∃ lead rest business config conversation inbound answer before after,
      filter (fun l => Lead.phone l = Some phone) (leads (db w)) = lead :: rest
      ∧ filter (fun b => Business.id b = Lead.business_id lead) (businesses (db w))
        = [business]
      ∧ filter (fun c => AssistantConfig.business_id c = Lead.business_id lead)
          (assistant_configs (db w)) = [config]
      ∧ Message.conversation_id inbound = Conversation.id conversation
      ∧ Message.content inbound = message
      ∧ Message.is_from_lead inbound = true
      ∧ trace w' = trace w ++ before
                   ++ [ChatCompletion
                         (OpenAIService.chat_messages (Business.name business)
                            (Business.industry business) (Business.services business)
                            (AssistantConfig.tone config) (AssistantConfig.role config)
                            (AssistantConfig.required_info config)
                            (Message.to_object
                               <$> newest (Conversation.id conversation) 20
                                     (messages (db w) ++ [inbound]))
                            message)
                         answer]
                   ++ after
      ∧ Forall is_db before ∧ Forall not_completion after.
Proof.
  intros Hrun. unfold processIncomingMessage in Hrun.
  match type of Hrun with try_catch ?b _ _ = _ => set (body := b) in * end.
  assert (∀ rb wb, body w = (rb, wb) →
            grows is_db w wb
            ∨ ∃ lead rest business config conversation inbound answer before after,
                filter (fun l => Lead.phone l = Some phone) (leads (db w)) = lead :: rest
                ∧ filter (fun b => Business.id b = Lead.business_id lead)
                    (businesses (db w)) = [business]
                ∧ filter (fun c => AssistantConfig.business_id c = Lead.business_id lead)
                    (assistant_configs (db w)) = [config]
                ∧ Message.conversation_id inbound = Conversation.id conversation
                ∧ Message.content inbound = message
                ∧ Message.is_from_lead inbound = true
                ∧ trace wb = trace w ++ before
                             ++ [ChatCompletion
                                   (OpenAIService.chat_messages (Business.name business)
                                      (Business.industry business)
                                      (Business.services business)
                                      (AssistantConfig.tone config)
                                      (AssistantConfig.role config)
                                      (AssistantConfig.required_info config)
                                      (Message.to_object
                                         <$> newest (Conversation.id conversation) 20
                                               (messages (db w) ++ [inbound]))
                                      message)
                                   answer]
                             ++ after
                ∧ Forall is_db before ∧ Forall not_completion after) as Hbody.
  { subst body. clear Hrun. intros rb wb Hbody.
    apply bind_inv in Hbody as [(found & w1 & H1 & Hbody) | (e & H1 & ->)].
    2: { left. by apply getLeadsByPhone_setup in H1 as (_ & _ & ?). }
    pose proof (getLeadsByPhone_quiet _ _ _ _ H1) as (M1 & _).
    pose proof (getLeadsByPhone_setup _ _ _ _ H1) as S1.
    apply getLeadsByPhone_runs in H1 as [_ F1]. specialize (F1 _ eq_refl).
    destruct found as [| lead rest].
    { left. unfold throw in Hbody. simplify_eq. by destruct S1 as (_ & _ & ?). }
    apply bind_inv in Hbody as [(active & w2 & H2 & Hbody) | (e & H2 & ->)].
    2: { left. apply getActiveConversation_setup in H2.
         assert (setup_kept w wb) as (_ & _ & ?) by (by etransitivity). done. }
    pose proof (getActiveConversation_quiet _ _ _ _ H2) as (M2 & _).
    apply getActiveConversation_setup in H2 as S2.
    assert (setup_kept w w2) as S02 by (by etransitivity).
    apply bind_inv in Hbody as [(conversation & w3 & H3 & Hbody) | (e & H3 & ->)].
    2: { left. destruct active; [done |]. apply startConversation_setup in H3.
         assert (setup_kept w wb) as (_ & _ & ?) by (by etransitivity). done. }
    assert (setup_kept w2 w3 ∧ messages (db w3) = messages (db w2)) as [S3 M3].
    { destruct active as [c |].
      - unfold mret, M_ret in H3. simplify_eq. split; reflexivity.
      - pose proof (startConversation_quiet _ _ _ _ _ H3) as (M3 & _).
        by apply startConversation_setup in H3. }
    assert (setup_kept w w3) as S03 by (by etransitivity).
    apply bind_inv in Hbody as [(stored & w4 & H4 & Hbody) | (e & H4 & ->)].
    2: { left. apply addMessage_setup in H4.
         assert (setup_kept w wb) as (_ & _ & ?) by (by etransitivity). done. }
    pose proof (addMessage_setup _ _ _ _ _ _ _ H4) as S4.
    assert (setup_kept w w4) as (B04 & C04 & G04) by (by etransitivity).
    apply addMessage_runs in H4
      as [(inbound & ? & Hmsg & Hconv & Hcontent & Hflag) | (e' & ? & _)]; [| done].
    unfold keeps in M1, M2, B04, C04.
    assert (messages (db w4) = messages (db w) ++ [inbound]) as M04 by congruence.
    apply bind_inv in Hbody as [(business & w5 & H5 & Hbody) | (e & H5 & ->)].
    2: { left. apply getBusinessById_reads, only_reads_db_only in H5.
         by etransitivity. }
    pose proof (getBusinessById_reads _ _ _ _ H5) as R5.
    apply getBusinessById_runs in H5. rewrite B04 in H5.
    assert (grows is_db w w5) as G05
      by (etransitivity; [exact G04 | by apply only_reads_db_only]).
    destruct R5 as [D5 _].
    apply bind_inv in Hbody as [(config & w6 & H6 & Hbody) | (e & H6 & ->)].
    2: { left. apply getAssistantConfig_reads, only_reads_db_only in H6.
         by etransitivity. }
    pose proof (getAssistantConfig_reads _ _ _ _ H6) as R6.
    assert (grows is_db w w6) as G06
      by (etransitivity; [exact G05 | by apply only_reads_db_only]).
    destruct R6 as [D6 _].
    destruct config as [config |];
      [| left; unfold throw in Hbody; by simplify_eq].
    apply getAssistantConfig_runs in H6. rewrite D5, C04 in H6.
    apply bind_inv in Hbody as [(history & w7 & H7 & Hbody) | (e & H7 & ->)].
    2: { left. apply getRecentMessages_reads, only_reads_db_only in H7.
         by etransitivity. }
    pose proof (getRecentMessages_reads _ _ _ _ _ H7) as R7.
    assert (grows is_db w w7) as (before & Htr7 & Hbefore)
      by (etransitivity; [exact G06 | by apply only_reads_db_only]).
    apply getRecentMessages_runs in H7. unfold recent in H7.
    rewrite D6, D5, M04 in H7. subst history.
    right. exists lead, rest, business, config, conversation, inbound.
    apply bind_inv in Hbody as [(text & w8 & H8 & Hbody) | (e & H8 & ->)];
      apply generateConversation_runs in H8 as [(text' & ? & ->) | [? ->]];
      simplify_eq.
    - apply deliver_no_completion in Hbody as (after & Htr & Hafter).
      exists (Some text'), before, after.
      do 6 (split; [done |]). split; [| done].
      cbn in Htr. by rewrite Htr, Htr7, <- !app_assoc.
    - exists None, before, [ConsoleError "OpenAI API Error:"].
      do 6 (split; [done |]). split; [| split; [done | by repeat constructor]].
      cbn. by rewrite Htr7, <- !app_assoc. }
  apply try_catch_inv in Hrun as [(a & Hrun & ->) | (e & w0 & Hrun & Hcatch)];
    destruct (Hbody _ _ Hrun)
      as [Hdb | (lead & rest & business & config & conversation & inbound & answer
                 & before & after & ? & ? & ? & ? & ? & ? & Htr & ? & Hafter)].
  - by left.
  - right. exists lead, rest, business, config, conversation, inbound, answer,
      before, after. done.
  - left. unfold rethrow in Hcatch. run_unfold Hcatch. simplify_eq.
    etransitivity; [exact Hdb |]. by apply grows_record.
  - right. unfold rethrow in Hcatch. run_unfold Hcatch. simplify_eq.
    exists lead, rest, business, config, conversation, inbound, answer, before,
      (after ++ [ConsoleError "Process Incoming Message Error:"]).
    do 6 (split; [done |]).
    split; [cbn; rewrite Htr, <- !app_assoc; done |].
    split; [done |]. apply Forall_app_2; [done | by repeat constructor].
Qed.

(** X19.  A completion request made by a run of [processIncomingMessage]
    is made for the first lead with the caller's phone, with the one
    business and the one assistant configuration of that lead, after the
    inbound text is stored as a message of the lead.  The request is the
    system prompt, then the (up to) twenty newest messages of the
    conversation, the inbound one included in the reading, every one of
    them tagged "assistant", then the inbound text tagged "user".  When
    the inbound row is newer than every other message of the
    conversation it is the last of that history: the text reaches the
    provider twice. *)
Theorem processIncomingMessage_request (phone message channel : string)
    (w w' : world) (r : outcome (Lead.t * Conversation.t * string))
    (evs : list event) (request : list chat_message) (answer : option string) :
  processIncomingMessage phone message channel w = (r, w') →
  trace w' = trace w ++ evs →
  In (ChatCompletion request answer) evs →
  ∃ lead rest business config conversation inbound,
    filter (fun l => Lead.phone l = Some phone) (leads (db w)) = lead :: rest
    ∧ filter (fun b => Business.id b = Lead.business_id lead) (businesses (db w))
      = [business]
    ∧ filter (fun c => AssistantConfig.business_id c = Lead.business_id lead)
        (assistant_configs (db w)) = [config]
    ∧ Message.conversation_id inbound = Conversation.id conversation
    ∧ Message.content inbound = message
    ∧ Message.is_from_lead inbound = true
    ∧ let history := newest (Conversation.id conversation) 20
                       (messages (db w) ++ [inbound]) in
      request
      = [{| role := "system";
            content := Some (JStr (OpenAIService.systemPrompt
                                     (Business.name business) (Business.industry business)
                                     (Business.services business)
                                     (AssistantConfig.tone config)
                                     (AssistantConfig.role config)
                                     (AssistantConfig.required_info config))) |}]
        ++ (as_assistant <$> history)
        ++ [{| role := "user"; content := Some (JStr message) |}]
      ∧ ((∀ m, m ∈ of_conversation (Conversation.id conversation) (messages (db w)) →
               Message.created_at m < Message.created_at inbound) →
         ∃ earlier, history = earlier ++ [inbound]).
Proof.
  intros Hrun Htr Hin.
  apply processIncomingMessage_request_inv in Hrun
    as [Hdb | (lead & rest & business & config & conversation & inbound & answer'
               & before & after & ? & ? & ? & Hconv & ? & ? & Htr' & Hbefore & Hafter)].
  { eapply grows_events in Hdb; [| exact Htr].
    by apply (Forall_In _ _ _ Hdb) in Hin. }
  rewrite Htr in Htr'. apply app_inv_head in Htr'. subst evs.
  apply is_db_no_completion in Hbefore.
  apply in_app_or in Hin as [Hin | [Hin | Hin]].
  { by apply (Forall_In _ _ _ Hbefore) in Hin. }
  2: { by apply (Forall_In _ _ _ Hafter) in Hin. }
  injection Hin as <- <-.
  exists lead, rest, business, config, conversation, inbound.
  do 6 (split; [done |]). split.
  - unfold OpenAIService.chat_messages. by rewrite formattedHistory_rows.
  - intros Hnewer. apply newest_snoc; [exact Hconv | lia | exact Hnewer].
Qed.

End Request.

(** X19 at work: Ada asks what Acme charges. *)
Lemma processIncomingMessage_request_witness :
  ∃ request first history,
    In (ChatCompletion request (Some "Hello!"))
      (trace (snd (@processIncomingMessage (outside None None (Some "Hello!"))
                     ascii_strings "+15551230000" "What do you charge?" "whatsapp"
                     acme_world)))
    ∧ request
      = [first] ++ (as_assistant <$> history)
        ++ [{| role := "user"; content := Some (JStr "What do you charge?") |}].
Proof.
  assert (∃ request,
            In (ChatCompletion request (Some "Hello!"))
              (trace (snd (@processIncomingMessage (outside None None (Some "Hello!"))
                             ascii_strings "+15551230000" "What do you charge?"
                             "whatsapp" acme_world))))
    as [request Hin].
  { eexists. vm_compute. repeat first [left; reflexivity | right]. }
  destruct (@processIncomingMessage_request (outside None None (Some "Hello!"))
              ascii_strings "+15551230000" "What do you charge?" "whatsapp" acme_world
              (snd (@processIncomingMessage (outside None None (Some "Hello!"))
                      ascii_strings "+15551230000" "What do you charge?" "whatsapp"
                      acme_world))
              (fst (@processIncomingMessage (outside None None (Some "Hello!"))
                      ascii_strings "+15551230000" "What do you charge?" "whatsapp"
                      acme_world))
              (trace (snd (@processIncomingMessage (outside None None (Some "Hello!"))
                             ascii_strings "+15551230000" "What do you charge?"
                             "whatsapp" acme_world)))
              request (Some "Hello!"))
    as (lead & rest & business & config & conversation & inbound & _ & _ & _ & _ & _ & _
        & Hrequest & _).
  - apply surjective_pairing.
  - reflexivity.
  - exact Hin.
  - eexists request, _, _. split; [exact Hin | exact Hrequest].
Defined.

End RequestFacts.

(* ===================================================================== *)
(** * What a message teaches about the lead *)
(* ===================================================================== *)

Module LearningFacts.
Import Vocabulary PipelineVocabulary Runs LeadModel ConversationService
  ConversationFacts LeadFacts PipelineFacts.

Section Learning.
Context `{Providers} `{JsString}.

(** The extraction leaves the tables alone, or it has found something in
    the first hundred messages and merged it into the one lead. *)
Lemma extract_inv leadId conversationId requiredInfo w r w' :
  extractQualificationData leadId conversationId requiredInfo w = (r, w') →
  let data := scan_fields (requiredFields requiredInfo)
                (first_hundred conversationId (db w)) in
  db w' = db w
  ∨ (data ≠ ∅
     ∧ ∃ lead at_,
         filter (fun l => Lead.id l = leadId) (leads (db w)) = [lead]
         ∧ db w' = set_leads
                     (update_where_id leadId
                        (with_additional_info
                           (updatedInfo (Lead.additional_info lead) (JObj data)) at_))
                     (db w)).
Proof.
  intros Hrun data. unfold extractQualificationData in Hrun.
  assert (∀ rb wb,
            (messages ← ConversationModel.getMessagesByConversationId conversationId
                          100 0;
             let qualificationData := scan_fields (requiredFields requiredInfo) messages in
             if Nat.ltb 0 (size qualificationData)
             then _ ← addLeadQualificationData leadId (JObj qualificationData); mret tt
             else mret tt) w = (rb, wb) →
            db wb = db w
            ∨ (data ≠ ∅
               ∧ ∃ lead at_,
                   filter (fun l => Lead.id l = leadId) (leads (db w)) = [lead]
                   ∧ db wb = set_leads
                               (update_where_id leadId
                                  (with_additional_info
                                     (updatedInfo (Lead.additional_info lead)
                                        (JObj data)) at_))
                               (db w))) as Hbody.
  { intros rb wb Hbody.
    apply bind_inv in Hbody as [(fetched & w1 & Hfetch & Hbody) | (e & Hfetch & ->)].
    2: { left. unfold ConversationModel.getMessagesByConversationId in Hfetch.
         run_unfold Hfetch. destruct (db_fault (tick w)); by simplify_eq. }
    unfold ConversationModel.getMessagesByConversationId in Hfetch. run_unfold Hfetch.
    destruct (db_fault (tick w)) as [e |]; simplify_eq.
    cbn in Hbody. rewrite drop_0 in Hbody.
    fold (first_hundred conversationId (db w)) in Hbody. fold data in Hbody.
    destruct (size data) as [| n] eqn:Hsize; cbn in Hbody.
    { left. unfold mret, M_ret in Hbody. by simplify_eq. }
    assert (data ≠ ∅) as Hdata.
    { intros Hempty. rewrite Hempty, map_size_empty in Hsize. done. }
    assert (∃ r2, addLeadQualificationData leadId (JObj data)
                    (record (Db "messages" Select None) w) = (r2, wb))
      as [r2 Hmerge].
    { apply bind_inv in Hbody as [(row & w2 & Hmerge & Hret) | (e & Hmerge & ?)].
      - unfold mret, M_ret in Hret. simplify_eq. by eexists.
      - by eexists. }
    apply addLeadQualificationData_runs in Hmerge
      as [(? & _) | (lead & at_ & Hfound & Hdb & _)]; [by left |].
    right. split; [done |]. by exists lead, at_. }
  apply try_catch_inv in Hrun as [(a & Hrun & _) | (e & w0 & Hrun & Hcatch)].
  - by apply Hbody in Hrun.
  - apply Hbody in Hrun. unfold console_error, emit in Hcatch. simplify_eq.
    exact Hrun.
Qed.

(** [deliver] changes the lead table only through the extraction, which
    runs after the reply was stored and sent. *)
Lemma deliver_learns phone channel lead conversation config text w r w' :
  deliver phone channel lead conversation config text w = (r, w') →
  leads (db w') = leads (db w)
  ∨ (r = Ret (lead, conversation, text)
     ∧ let data := scan_fields (requiredFields (AssistantConfig.required_info config))
                     (first_hundred (Conversation.id conversation) (db w')) in
       data ≠ ∅
       ∧ ∃ found at_,
           filter (fun l => Lead.id l = Lead.id lead) (leads (db w)) = [found]
           ∧ leads (db w')
             = update_where_id (Lead.id lead)
                 (with_additional_info
                    (updatedInfo (Lead.additional_info found) (JObj data)) at_)
                 (leads (db w))).
Proof.
  intros Hrun. unfold deliver in Hrun.
  apply bind_inv in Hrun as [(stored & w1 & Hadd & Hrun) | (e & Hadd & ->)];
    apply addMessage_leads_kept in Hadd as [Hleads1 _]; unfold keeps in Hleads1;
    [| by left].
  apply bind_inv in Hrun as [([] & w2 & Hsend & Hrun) | (e & Hsend & ->)];
    apply sendMessage_inv in Hsend as [Hdb2 _]; [| left; by rewrite Hdb2].
  apply bind_inv in Hrun as [([] & w3 & Hextract & Hret) | (e & Hextract & ->)];
    [| by apply extract_returns in Hextract].
  unfold mret, M_ret in Hret. simplify_eq.
  apply extract_inv in Hextract as [Hdb3 | (Hdata & found & at_ & Hfound & Hdb3)].
  { left. by rewrite Hdb3, Hdb2. }
  right. split; [done |].
  assert (first_hundred (Conversation.id conversation) (db w')
          = first_hundred (Conversation.id conversation) (db w2)) as ->
    by (by rewrite Hdb3).
  cbn zeta. split; [exact Hdata |].
  exists found, at_. rewrite Hdb2, Hleads1 in Hfound. split; [exact Hfound |].
  by rewrite Hdb3, Hdb2, <- Hleads1.
Qed.

(** X24 ([processIncomingMessage], with [extractQualificationData] and
    [addLeadQualificationData]): a run that changes the lead table has
    returned the lead, the conversation and the reply, and the only change
    is to the rows with the found lead's id, whose [additional_info] has
    been merged with what the scan of the conversation's first hundred
    messages, as stored at the end of the run, finds for the fields the
    business's assistant configuration requires; that scan found
    something. *)
Theorem processIncomingMessage_learns phone message channel w r w' :
  processIncomingMessage phone message channel w = (r, w') →
  leads (db w') ≠ leads (db w) →
  ∃ lead rest conversation config text at_,
    filter (fun l => Lead.phone l = Some phone) (leads (db w)) = lead :: rest
    ∧ filter (fun l => Lead.id l = Lead.id lead) (leads (db w)) = [lead]
    ∧ filter (fun c => AssistantConfig.business_id c = Lead.business_id lead)
        (assistant_configs (db w)) = [config]
    ∧ r = Ret (lead, conversation, text)
    ∧ let data := scan_fields (requiredFields (AssistantConfig.required_info config))
                    (first_hundred (Conversation.id conversation) (db w')) in
      data ≠ ∅
      ∧ leads (db w')
        = update_where_id (Lead.id lead)
            (with_additional_info
               (updatedInfo (Lead.additional_info lead) (JObj data)) at_)
            (leads (db w)).
Proof.
  intros Hrun Hchanged.
  apply processIncomingMessage_phases in Hrun
    as [(_ & _ & Hleads) | (lead & rest & conversation & config & text & inbound & w1
                            & r1 & w2 & Hphone & _ & _ & Hconfig & Hleads1 & _ & _ & _
                            & _ & _ & Hdeliver & Hend)]; [done |].
  apply deliver_learns in Hdeliver
    as [Hleads2 | (-> & Hdata & found & at_ & Hfound & Hleads2)].
  { exfalso. apply Hchanged.
    destruct r1 as [a | e]; destruct Hend as [_ ->]; cbn; by rewrite Hleads2. }
  destruct Hend as [-> ->]. rewrite Hleads1 in Hfound, Hleads2.
  assert (found = lead) as ->.
  { assert (lead ∈ filter (fun l => Lead.id l = Lead.id lead) (leads (db w))) as Hin.
    { apply list_elem_of_filter. split; [done |].
      assert (lead ∈ filter (fun l => Lead.phone l = Some phone) (leads (db w)))
        as Hin by (rewrite Hphone; apply list_elem_of_here).
      by apply list_elem_of_filter in Hin as [_ Hin]. }
    rewrite Hfound in Hin. by apply list_elem_of_singleton in Hin. }
  exists lead, rest, conversation, config, text, at_.
  split; [done |]. split; [done |]. split; [done |]. split; [done |].
  cbn zeta. split; [exact Hdata | exact Hleads2].
Qed.

End Learning.

Lemma processIncomingMessage_learns_witness :
  ∃ conversation config at_,
    let w' := snd (@processIncomingMessage (outside None None (Some "Hello Ada"))
                     ascii_strings "+15551230000" "My budget is 5,000" "whatsapp"
                     acme_world) in
    let data := @scan_fields ascii_strings
                  (@requiredFields ascii_strings (AssistantConfig.required_info config))
                  (first_hundred (Conversation.id conversation) (db w')) in
    data ≠ (∅ : gmap string jsval)
    ∧ leads (db w')
      = update_where_id (Lead.id ada)
          (with_additional_info (updatedInfo (Lead.additional_info ada) (JObj data)) at_)
          (leads (db acme_world)).
Proof.
  assert (∃ conversation,
            @processIncomingMessage (outside None None (Some "Hello Ada"))
              ascii_strings "+15551230000" "My budget is 5,000" "whatsapp" acme_world
            = (Ret (ada, conversation, "Hello Ada"),
               snd (@processIncomingMessage (outside None None (Some "Hello Ada"))
                      ascii_strings "+15551230000" "My budget is 5,000" "whatsapp"
                      acme_world))) as [conversation Hrun].
  { eexists. vm_compute. reflexivity. }
  destruct (@processIncomingMessage_learns (outside None None (Some "Hello Ada"))
              ascii_strings "+15551230000" "My budget is 5,000" "whatsapp" acme_world
              _ _ Hrun)
    as (lead & rest & conversation' & config & text & at_ & _ & _ & _ & Hr & Hdata
        & Hleads).
  - intros Heq. apply (f_equal (fmap Lead.updated_at)) in Heq.
    vm_compute in Heq. discriminate Heq.
  - exists conversation', config, at_. cbn zeta. injection Hr as <- _ _.
    split; [exact Hdata | exact Hleads].
Defined.

End LearningFacts.
